(** * xv6-labs-2020: buffer cache (kernel/bio.c) and page allocator
      (kernel/kalloc.c)

    A shallow embedding of the two kernel files and the properties their
    specification states about them.

    - Part I embeds [kernel/kalloc.c]: the free list, the reference-count
      table [ref], [kfree], [kalloc], [freerange]/[kinit], [cowpage] and
      [cowalloc].
    - Part II embeds [kernel/bio.c]: the hashed buffer cache with its
      thirteen bucket lists, [binit], [bget], [bread], [bwrite], [brelse],
      [bpin] and [bunpin], together with the trace of lock and disk events
      each call performs.
    - Part III and IV hold the theorems. *)

From Stdlib Require Import ZArith Lia List Bool.
From Stdlib.Strings Require Import String Byte.
From stdpp Require Import base option list gmap.

Local Open Scope Z_scope.

(* ===================================================================== *)
(** * Common machine arithmetic                                           *)
(* ===================================================================== *)

(** [uint] values live in [0, 2^32); arithmetic on them wraps. *)
Definition u32 (z : Z) : Z := z mod 2 ^ 32.

(** [uint64] values live in [0, 2^64). *)
Definition u64 (z : Z) : Z := z mod 2 ^ 64.

(** Conversion of a [uint] to [int] (two's complement). *)
Definition to_int (z : Z) : Z :=
  let w := u32 z in if w <? 2 ^ 31 then w else w - 2 ^ 32.

(** What a call can come to.  [Panic] is xv6's [panic()], which never
    returns; [OutOfBounds] is an array access outside the array (undefined
    behaviour in C); [OutOfFuel] is only there to make loops structural and
    is shown never to be produced. *)
Inductive outcome (A : Type) : Type :=
| Done (a : A)
| Panic (msg : string)
| OutOfBounds
| OutOfFuel.
Arguments Done {A} a.
Arguments Panic {A} msg.
Arguments OutOfBounds {A}.
Arguments OutOfFuel {A}.

Definition obind {A B} (x : outcome A) (f : A -> outcome B) : outcome B :=
  match x with
  | Done a => f a
  | Panic m => Panic m
  | OutOfBounds => OutOfBounds
  | OutOfFuel => OutOfFuel
  end.

(* ===================================================================== *)
(** * Part I: kernel/kalloc.c                                             *)
(* ===================================================================== *)

(** "Allocates whole 4096-byte pages." *)
Definition PGSIZE : Z := 4096.

(** [PGROUNDUP] and [PGROUNDDOWN] of riscv.h, on [uint64]. *)
Definition PGROUNDUP (sz : Z) : Z := Z.land (u64 (sz + PGSIZE - 1)) (Z.lnot (PGSIZE - 1)).
Definition PGROUNDDOWN (a : Z) : Z := Z.land a (Z.lnot (PGSIZE - 1)).

(** Physical memory, byte addressed. *)
Definition memory := Z -> Z.

Definition memset (m : memory) (dst c n : Z) : memory :=
  fun a => if (dst <=? a) && (a <? dst + n) then c else m a.

Definition memmove (m : memory) (dst src n : Z) : memory :=
  fun a => if (dst <=? a) && (a <? dst + n) then m (src + (a - dst)) else m a.

(** Store of a 64-bit little-endian word (the [next] field of [struct run]). *)
Definition store64 (m : memory) (a v : Z) : memory :=
  fun x => if (a <=? x) && (x <? a + 8) then Z.land (Z.shiftr v (8 * (x - a))) 255 else m x.

(** The allocator's state.  [freelist] is the chain of pages reached from
    [kmem.freelist] through [next] (the null pointer is the empty list, so
    no entry is null); [ref] is the table [uint ref[PHYSTOP / PGSIZE]], read
    at a page number; [mem] is physical memory. *)
Record kstate : Type := mkK {
  freelist : list Z;
  ref : Z -> Z;
  mem : memory
}.

Definition upd (f : Z -> Z) (i v : Z) : Z -> Z :=
  fun j => if j =? i then v else f j.

(** [kfree].  [kend] is the linker symbol [end], [PHYSTOP] comes from
    memlayout.h; both are parameters here.  The table [ref] has
    [PHYSTOP / PGSIZE] entries; a page number beyond it is [OutOfBounds]
    (this cannot happen past the guard when [PHYSTOP] is a multiple of the
    page size). *)
Definition kfree (kend PHYSTOP : Z) (pa : Z) (s : kstate) : outcome kstate :=
  if negb (pa mod PGSIZE =? 0) || (pa <? kend) || (PHYSTOP <=? pa) then
    Panic "kfree"
  else
    let i := pa / PGSIZE in
    if PHYSTOP / PGSIZE <=? i then OutOfBounds
    else
      let r := u32 (ref s i - 1) in
      let ref' := upd (ref s) i r in
      if r =? 0 then
        let m1 := memset (mem s) pa 1 PGSIZE in
        let m2 := store64 m1 pa (hd 0 (freelist s)) in
        Done (mkK (pa :: freelist s) ref' m2)
      else
        Done (mkK (freelist s) ref' (mem s)).

(** [kalloc]: the returned pointer is [0] when nothing could be allocated. *)
Definition kalloc (s : kstate) : Z * kstate :=
  match freelist s with
  | [] => (0, s)
  | r :: rest =>
      (r, mkK rest (upd (ref s) (r / PGSIZE) 1) (memset (mem s) r 5 PGSIZE))
  end.

(** The loop of [freerange], on fuel. *)
Fixpoint freerange_loop (kend PHYSTOP : Z) (fuel : nat) (p pa_end : Z) (s : kstate)
  : outcome kstate :=
  match fuel with
  | O => OutOfFuel
  | S fuel' =>
      if p + PGSIZE <=? pa_end then
        let s1 := mkK (freelist s) (upd (ref s) (p / PGSIZE) 1) (mem s) in
        obind (kfree kend PHYSTOP p s1)
              (fun s2 => freerange_loop kend PHYSTOP fuel' (p + PGSIZE) pa_end s2)
      else Done s
  end.

Definition freerange (kend PHYSTOP : Z) (pa_start pa_end : Z) (s : kstate) : outcome kstate :=
  let p := PGROUNDUP pa_start in
  freerange_loop kend PHYSTOP (S (Z.to_nat ((pa_end - p) / PGSIZE))) p pa_end s.

(** [kinit], from the zero-initialised globals and whatever memory holds. *)
Definition kinit (kend PHYSTOP : Z) (m0 : memory) : outcome kstate :=
  freerange kend PHYSTOP kend PHYSTOP (mkK [] (fun _ => 0) m0).

(** [n] calls of [kalloc] in a row, with the pointers they returned. *)
Fixpoint kalloc_n (n : nat) (s : kstate) : list Z * kstate :=
  match n with
  | O => ([], s)
  | S n' => let '(r, s1) := kalloc s in
            let '(rs, s2) := kalloc_n n' s1 in (r :: rs, s2)
  end.

(** ** Page-table entries (riscv.h, Sv39) *)

Definition PTE_V : Z := 1.
Definition PTE_W : Z := 4.
Definition PTE_U : Z := 16.
Definition MAXVA : Z := 2 ^ 38.
Definition PA2PTE (pa : Z) : Z := Z.shiftl (Z.shiftr pa 12) 10.
Definition PTE2PA (pte : Z) : Z := Z.shiftl (Z.shiftr pte 10) 12.
Definition PTE_FLAGS (pte : Z) : Z := Z.land pte 1023.

(** The copy-on-write flag [PTE_F] is one of the two bits the hardware
    leaves to software (bits 8 and 9); [fbit] says which. *)
Definition PTE_F (fbit : Z) : Z := Z.shiftl 1 fbit.

(** Modelled from the spec: the page-table collaborator ([walk], [walkaddr]
    and [mappages] live in vm.c, which is not part of the sources).  An
    address space is a finite map from virtual page number to the content of
    the leaf entry; [walk] with [alloc = 0] is the lookup of that entry
    ("lookupEntry(addressSpace, virtualAddress) -> entry-or-absent"). *)
Definition walk (pt : gmap Z Z) (va : Z) : option Z := pt !! (va / PGSIZE).

(** Modelled from the spec: [walkaddr] resolves a user virtual address to
    the physical address of its page, or [0] when it is not mapped. *)
Definition walkaddr (pt : gmap Z Z) (va : Z) : Z :=
  if MAXVA <=? va then 0
  else match walk pt va with
       | None => 0
       | Some pte =>
           if Z.land pte PTE_V =? 0 then 0
           else if Z.land pte PTE_U =? 0 then 0
           else PTE2PA pte
       end.

(** Modelled from the spec: [mappages] for a single page
    ("installMapping(addressSpace, virtualAddress, physicalAddress, flags)
    -> success/failure").  Whether the collaborator succeeds is its own
    business, so it is the input [ok]; on failure the address space is left
    alone.  Installing over a valid entry is the "remap" panic that
    [cowalloc] avoids by clearing [PTE_V] first. *)
Definition mappages (ok : bool) (pt : gmap Z Z) (va pa perm : Z) : outcome (Z * gmap Z Z) :=
  if negb ok then Done (-1, pt)
  else
    let new := Z.lor (Z.lor (PA2PTE pa) perm) PTE_V in
    match pt !! (va / PGSIZE) with
    | Some pte =>
        if Z.land pte PTE_V =? 0 then Done (0, <[va / PGSIZE := new]> pt)
        else Panic "remap"
    | None => Done (0, <[va / PGSIZE := new]> pt)
    end.

(** [cowpage]: [0] when the page is a copy-on-write page, [-1] otherwise. *)
Definition cowpage (fbit : Z) (pt : gmap Z Z) (va : Z) : Z :=
  if MAXVA <=? va then -1
  else match walk pt va with
       | None => -1
       | Some pte =>
           if Z.land pte PTE_V =? 0 then -1
           else if Z.land pte (PTE_F fbit) =? 0 then -1 else 0
       end.

(** [cowalloc].  The result is the returned pointer ([0] on failure), the
    address space and the allocator state.  Reading [ref] at a page number
    outside the table is [OutOfBounds]. *)
Definition cowalloc (fbit : Z) (map_ok : bool) (kend PHYSTOP : Z)
    (pt : gmap Z Z) (va : Z) (s : kstate) : outcome (Z * gmap Z Z * kstate) :=
  let va := PGROUNDDOWN va in
  let pa := walkaddr pt va in
  if pa =? 0 then Done (0, pt, s)
  else
    match walk pt va with
    | None => Done (0, pt, s)
    | Some pte =>
        if PHYSTOP / PGSIZE <=? pa / PGSIZE then OutOfBounds
        else if ref s (pa / PGSIZE) =? 1 then
          let pte1 := Z.lor pte PTE_W in
          let pte2 := Z.land pte1 (Z.lnot (PTE_F fbit)) in
          Done (pa, <[va / PGSIZE := pte2]> pt, s)
        else
          let '(m, s1) := kalloc s in
          if m =? 0 then Done (0, pt, s1)
          else
            let s2 := mkK (freelist s1) (ref s1) (memmove (mem s1) m pa PGSIZE) in
            let pte1 := Z.land pte (Z.lnot PTE_V) in
            let pt1 := <[va / PGSIZE := pte1]> pt in
            let perm := Z.land (Z.lor (PTE_FLAGS pte1) PTE_W) (Z.lnot (PTE_F fbit)) in
            obind (mappages map_ok pt1 va m perm) (fun '(rc, pt2) =>
              if negb (rc =? 0) then
                obind (kfree kend PHYSTOP m s2) (fun s3 =>
                  Done (0, <[va / PGSIZE := Z.lor pte1 PTE_V]> pt2, s3))
              else
                obind (kfree kend PHYSTOP (PGROUNDDOWN pa) s2) (fun s3 =>
                  Done (m, pt2, s3)))
    end.

(* ===================================================================== *)
(** * Part II: kernel/bio.c                                               *)
(* ===================================================================== *)

Definition NBUCKET : Z := 13.

(** [int HASH(int id) { return id % NBUCKET; }]: C's remainder truncates
    towards zero, so a negative [id] gives a negative bucket number. *)
Definition HASH (id : Z) : Z := Z.rem id NBUCKET.

(** [struct buf].  buf.h is not among the sources; these are the fields
    bio.c reads and writes.  The [prev]/[next] links are the bucket lists of
    the cache state below; [lock] is the sleep-lock, holding the pid of the
    process that has it. *)
Record buf : Type := mkBuf {
  valid : Z;
  dev : Z;
  blockno : Z;
  lock : option nat;
  refcnt : Z;
  mticks : Z;
  data : list byte
}.

(** The spin-locks bio.c takes. *)
Inductive spinlock : Type :=
| Lblock                (* bcache.block *)
| Lbucket (i : Z)       (* bcache.lock[i] *)
| Ltickslock.           (* tickslock *)

(** What a call does, in order: the spin-locks and sleep-locks it takes
    and releases, the moving of a buffer from one list to another
    ([Unlink b i]: [b] taken out of the list of bucket [i], lines 164-165;
    [Relink b i]: [b] put at the head of the list of bucket [i], lines
    168-171), and its traffic with the disk. *)
Inductive event : Type :=
| Acquire (l : spinlock)
| Release (l : spinlock)
| AcquireSleep (b : nat)
| ReleaseSleep (b : nat)
| Unlink (b : nat) (i : Z)
| Relink (b : nat) (i : Z)
| DiskRead (d n : Z)
| DiskWrite (d n : Z) (bytes : list byte).

(** The state bio.c works on.  [bufs] is the array [bcache.buf]; a buffer
    is named by its index in it.  [heads] has one list per bucket: the
    buffers met from [bcache.head[i].next] along [next] until the head comes
    round again.  [disk] is the storage behind [virtio_disk_rw], [ticks] the
    clock, [trace] the events so far. *)
Record state : Type := mkS {
  bufs : list buf;
  heads : list (list nat);
  disk : Z -> Z -> list byte;
  ticks : Z;
  trace : list event
}.

Definition emit (e : event) (s : state) : state :=
  mkS (bufs s) (heads s) (disk s) (ticks s) (trace s ++ [e]).

Definition set_buf (b : nat) (x : buf) (s : state) : state :=
  mkS (<[b := x]> (bufs s)) (heads s) (disk s) (ticks s) (trace s).

Definition set_heads (hs : list (list nat)) (s : state) : state :=
  mkS (bufs s) hs (disk s) (ticks s) (trace s).

(** The list of bucket [i]. *)
Definition bucket (hs : list (list nat)) (i : Z) : list nat :=
  default [] (hs !! Z.to_nat i).

(** [binit]: every bucket empty, then each buffer in turn linked in at the
    head of bucket 0.  [nbuf] is NBUF (param.h) and [bsize] BSIZE (fs.h);
    the buffers start zeroed, as the static [bcache] does. *)
Definition zero_buf (bsize : nat) : buf :=
  mkBuf 0 0 0 None 0 0 (replicate bsize x00).

Definition binit (nbuf bsize : nat) (dsk : Z -> Z -> list byte) (t : Z) : state :=
  mkS (replicate nbuf (zero_buf bsize))
      (fold_left (fun hs b => <[0%nat := b :: bucket hs 0]> hs) (seq 0 nbuf)
                 (replicate (Z.to_nat NBUCKET) []))
      dsk t [].

(** The scan "is the block already cached?" over one bucket list. *)
Fixpoint find_cached (bs : list buf) (d n : Z) (l : list nat) : option nat :=
  match l with
  | [] => None
  | b :: l' =>
      match bs !! b with
      | Some x => if (dev x =? d) && (blockno x =? n) then Some b
                  else find_cached bs d n l'
      | None => find_cached bs d n l'
      end
  end.

(** The scan for a buffer to recycle over one bucket list, carrying the
    candidate [p] and [min_ticks]. *)
Fixpoint scan_free (bs : list buf) (l : list nat) (p : option nat) (min_ticks : Z)
  : option nat * Z :=
  match l with
  | [] => (p, min_ticks)
  | b :: l' =>
      match bs !! b with
      | Some x =>
          if (refcnt x =? 0) && ((mticks x <? min_ticks) || bool_decide (p = None))
          then scan_free bs l' (Some b) (mticks x)
          else scan_free bs l' p min_ticks
      | None => scan_free bs l' p min_ticks
      end
  end.

(** [p->dev = dev; p->blockno = blockno; p->refcnt++; p->valid = 0;] *)
Definition repurpose (x : buf) (d n : Z) : buf :=
  mkBuf 0 d n (lock x) (u32 (refcnt x + 1)) (mticks x) (data x).

(** [b->refcnt++] *)
Definition incref (x : buf) : buf :=
  mkBuf (valid x) (dev x) (blockno x) (lock x) (u32 (refcnt x + 1)) (mticks x) (data x).

(** [b->refcnt--] *)
Definition decref (x : buf) : buf :=
  mkBuf (valid x) (dev x) (blockno x) (lock x) (u32 (refcnt x - 1)) (mticks x) (data x).

Definition set_lock (o : option nat) (x : buf) : buf :=
  mkBuf (valid x) (dev x) (blockno x) o (refcnt x) (mticks x) (data x).

Definition set_mticks (t : Z) (x : buf) : buf :=
  mkBuf (valid x) (dev x) (blockno x) (lock x) (refcnt x) t (data x).

Definition set_data (d : list byte) (x : buf) : buf :=
  mkBuf (valid x) (dev x) (blockno x) (lock x) (refcnt x) (mticks x) d.

(** A buffer read in from disk: [virtio_disk_rw(b, 0); b->valid = 1;] *)
Definition filled (d : list byte) (x : buf) : buf :=
  mkBuf 1 (dev x) (blockno x) (lock x) (refcnt x) (mticks x) d.

(** How [bget] ends for its caller [pid]: with the buffer's sleep-lock
    held, or asleep in [acquiresleep] because somebody has it. *)
Inductive got : Type :=
| Held (b : nat)
| Waiting (b : nat).

Definition handle (g : got) : nat :=
  match g with Held b => b | Waiting b => b end.

(** Modelled from the spec: the sleep-lock of sleeplock.c, which is not
    part of the sources ("a blocking lock ...; at most one thread holds a
    given buffer's blocking lock at a time").  [acquiresleep(&b->lock)] takes
    a free lock for [pid]; on a lock somebody holds the caller goes to
    sleep, which is where this call's account of it ends. *)
Definition acquiresleep (pid b : nat) (s : state) : outcome got * state :=
  match bufs s !! b with
  | None => (OutOfBounds, s)
  | Some x =>
      match lock x with
      | None => (Done (Held b), emit (AcquireSleep b) (set_buf b (set_lock (Some pid) x) s))
      | Some _ => (Done (Waiting b), s)
      end
  end.

(** Modelled from the spec: [holdingsleep(&b->lock)], true when the
    calling process is the one that holds the sleep-lock. *)
Definition holdingsleep (pid : nat) (x : buf) : bool :=
  bool_decide (lock x = Some pid).

(** Taking [p] out of the list it is on. *)
Fixpoint unlink (p : nat) (l : list nat) : list nat :=
  match l with
  | [] => []
  | q :: l' => if (q =? p)%nat then l' else q :: unlink p l'
  end.

(** The last loop of [bget] (lines 150-181): the other buckets, from the
    one after [bid] round to [bid].  [fuel] bounds the rounds. *)
Fixpoint steal (fuel : nat) (pid : nat) (d n bid i : Z) (p : option nat) (min_ticks : Z)
    (s : state) : outcome got * state :=
  match fuel with
  | O => (OutOfFuel, s)
  | S fuel' =>
      if i =? bid then
        let s := emit (Release (Lbucket bid)) s in
        let s := emit (Release Lblock) s in
        (Panic "bget: no buffers", s)
      else
        let s := emit (Acquire (Lbucket i)) s in
        match scan_free (bufs s) (bucket (heads s) i) p min_ticks with
        | (Some p, _) =>
            match bufs s !! p with
            | None => (OutOfBounds, s)
            | Some x =>
                let s := set_buf p (repurpose x d n) s in
                let s := set_heads (<[Z.to_nat i := unlink p (bucket (heads s) i)]> (heads s)) s in
                let s := emit (Unlink p i) s in
                let s := emit (Release (Lbucket i)) s in
                let s := set_heads (<[Z.to_nat bid := p :: bucket (heads s) bid]> (heads s)) s in
                let s := emit (Relink p bid) s in
                let s := emit (Release (Lbucket bid)) s in
                let s := emit (Release Lblock) s in
                acquiresleep pid p s
            end
        | (None, min_ticks') =>
            let s := emit (Release (Lbucket i)) s in
            steal fuel' pid d n bid (HASH (i + 1)) None min_ticks' s
        end
  end.

(** [bget] from the point where it takes [bcache.block] (lines 106-181):
    the second look for the block, the search of the bucket for a buffer to
    recycle, and the search of the other buckets. *)
Definition bget_evict (pid : nat) (d n bid : Z) (s : state) : outcome got * state :=
  let s := emit (Acquire Lblock) s in
  let s := emit (Acquire (Lbucket bid)) s in
  match find_cached (bufs s) d n (bucket (heads s) bid) with
  | Some b =>
      match bufs s !! b with
      | None => (OutOfBounds, s)
      | Some x =>
          let s := set_buf b (incref x) s in
          let s := emit (Release (Lbucket bid)) s in
          let s := emit (Release Lblock) s in
          acquiresleep pid b s
      end
  | None =>
      match scan_free (bufs s) (bucket (heads s) bid) None 0 with
      | (Some p, _) =>
          match bufs s !! p with
          | None => (OutOfBounds, s)
          | Some x =>
              let s := set_buf p (repurpose x d n) s in
              let s := emit (Release (Lbucket bid)) s in
              let s := emit (Release Lblock) s in
              acquiresleep pid p s
          end
      | (None, min_ticks) =>
          steal (Z.to_nat NBUCKET) pid d n bid (HASH (bid + 1)) None min_ticks s
      end
  end.

(** [bget(dev, blockno)] called by process [pid]. *)
Definition bget (pid : nat) (d n : Z) (s : state) : outcome got * state :=
  let bid := HASH (to_int n) in
  if bid <? 0 then (OutOfBounds, s)
  else
    let s := emit (Acquire (Lbucket bid)) s in
    match find_cached (bufs s) d n (bucket (heads s) bid) with
    | Some b =>
        match bufs s !! b with
        | None => (OutOfBounds, s)
        | Some x =>
            let s := set_buf b (incref x) s in
            let s := emit (Release (Lbucket bid)) s in
            acquiresleep pid b s
        end
    | None =>
        let s := emit (Release (Lbucket bid)) s in
        bget_evict pid d n bid s
    end.

(** Modelled from the spec: the block device collaborator
    ([virtio_disk_rw] is not part of the sources).  A read fills the
    buffer's [data] with what the disk holds for the buffer's device and
    block number; a write stores [data] there ("readBlock(device,
    blockNumber, buffer) / writeBlock(device, blockNumber, buffer)"). *)
Definition virtio_disk_rw (b : nat) (write : bool) (s : state) : state :=
  match bufs s !! b with
  | None => s
  | Some x =>
      if write then
        mkS (bufs s) (heads s)
            (fun d n => if (d =? dev x) && (n =? blockno x) then data x else disk s d n)
            (ticks s) (trace s ++ [DiskWrite (dev x) (blockno x) (data x)])
      else
        mkS (<[b := set_data (disk s (dev x) (blockno x)) x]> (bufs s)) (heads s)
            (disk s) (ticks s) (trace s ++ [DiskRead (dev x) (blockno x)])
  end.

(** The rest of [bread] once [bget] has returned [b] locked. *)
Definition bread_fill (b : nat) (s : state) : state :=
  match bufs s !! b with
  | None => s
  | Some x =>
      if valid x =? 0 then
        let s := virtio_disk_rw b false s in
        match bufs s !! b with
        | None => s
        | Some y => set_buf b (filled (data y) y) s
        end
      else s
  end.

(** [bread] after its call of [bget]: a caller that holds the buffer goes
    on to fill it, one that went to sleep in [bget] has not got past it. *)
Definition finish_bread (r : outcome got * state) : outcome got * state :=
  match r with
  | (Done (Held b), s1) => (Done (Held b), bread_fill b s1)
  | _ => r
  end.

(** [bread(dev, blockno)] *)
Definition bread (pid : nat) (d n : Z) (s : state) : outcome got * state :=
  finish_bread (bget pid d n s).

(** A sleeper woken up once the sleep-lock is free: [acquiresleep] returns
    and [bread] finishes. *)
Definition bread_resume (pid b : nat) (s : state) : outcome got * state :=
  finish_bread (acquiresleep pid b s).

(** [bread] for a caller whose first look missed a while ago and who only
    now gets [bcache.block]: [bget] from line 106 on, in whatever state the
    other callers have left. *)
Definition bread_late (pid : nat) (d n : Z) (s : state) : outcome got * state :=
  let bid := HASH (to_int n) in
  if bid <? 0 then (OutOfBounds, s)
  else finish_bread (bget_evict pid d n bid s).

(** [bwrite(b)] *)
Definition bwrite (pid b : nat) (s : state) : outcome unit * state :=
  match bufs s !! b with
  | None => (OutOfBounds, s)
  | Some x =>
      if negb (holdingsleep pid x) then (Panic "bwrite", s)
      else (Done tt, virtio_disk_rw b true s)
  end.

(** [brelse(b)] *)
Definition brelse (pid b : nat) (s : state) : outcome unit * state :=
  match bufs s !! b with
  | None => (OutOfBounds, s)
  | Some x =>
      if negb (holdingsleep pid x) then (Panic "brelse", s)
      else
        let x := set_lock None x in
        let s := emit (ReleaseSleep b) (set_buf b x s) in
        let bid := HASH (to_int (blockno x)) in
        if bid <? 0 then (OutOfBounds, s)
        else
          let s := emit (Acquire (Lbucket bid)) s in
          let x := decref x in
          let s := set_buf b x s in
          let s :=
            if refcnt x =? 0 then
              let s := emit (Acquire Ltickslock) s in
              let s := set_buf b (set_mticks (ticks s) x) s in
              emit (Release Ltickslock) s
            else s in
          (Done tt, emit (Release (Lbucket bid)) s)
  end.

(** [bpin(b)] and [bunpin(b)] *)
Definition bpin (b : nat) (s : state) : outcome unit * state :=
  match bufs s !! b with
  | None => (OutOfBounds, s)
  | Some x =>
      let bid := HASH (to_int (blockno x)) in
      if bid <? 0 then (OutOfBounds, s)
      else
        let s := emit (Acquire (Lbucket bid)) s in
        let s := set_buf b (incref x) s in
        (Done tt, emit (Release (Lbucket bid)) s)
  end.

Definition bunpin (b : nat) (s : state) : outcome unit * state :=
  match bufs s !! b with
  | None => (OutOfBounds, s)
  | Some x =>
      let bid := HASH (to_int (blockno x)) in
      if bid <? 0 then (OutOfBounds, s)
      else
        let s := emit (Acquire (Lbucket bid)) s in
        let s := set_buf b (decref x) s in
        (Done tt, emit (Release (Lbucket bid)) s)
  end.

(** The holder of a buffer writing its [data]. *)
Definition write_data (b : nat) (d : list byte) (s : state) : state :=
  match bufs s !! b with
  | None => s
  | Some x => set_buf b (set_data d x) s
  end.

(** The clock interrupt: [ticks++]. *)
Definition clock_tick (s : state) : state :=
  mkS (bufs s) (heads s) (disk s) (u32 (ticks s + 1)) (trace s).

(** ** Sequences of calls *)

(** What the rest of the kernel can do to the cache. *)
Inductive call : Type :=
| Bread (pid : nat) (d n : Z)
| Brelse (pid b : nat)
| Bwrite (pid b : nat)
| Bpin (b : nat)
| Bunpin (b : nat)
| Poke (b : nat) (bytes : list byte)
| Tick
| BreadLate (pid : nat) (d n : Z)
| Wake (pid b : nat).

Definition run1 (s : state) (c : call) : state :=
  match c with
  | Bread pid d n => snd (bread pid d n s)
  | BreadLate pid d n => snd (bread_late pid d n s)
  | Wake pid b => snd (bread_resume pid b s)
  | Brelse pid b => snd (brelse pid b s)
  | Bwrite pid b => snd (bwrite pid b s)
  | Bpin b => snd (bpin b s)
  | Bunpin b => snd (bunpin b s)
  | Poke b bytes => write_data b bytes s
  | Tick => clock_tick s
  end.

Definition run (cs : list call) (s : state) : state := fold_left run1 cs s.

(** A cache of thirty buffers (xv6's NBUF) of 1024 bytes over a blank disk. *)
Definition fresh_cache : state :=
  binit 30 1024 (fun _ _ => replicate 1024 x00) 0.

(** Thirty blocks read and held at once, then released one tick apart:
    every buffer ends up with count 0, valid, and a [mticks] of its own. *)
Definition full_cache : state :=
  run (map (fun k => Bread 1 1 (Z.of_nat k)) (seq 1 30) ++
       flat_map (fun b => [Tick; Brelse 1 b]) (seq 0 30))
      fresh_cache.

(** A block read, pinned (as the log does) and released: its buffer is
    unlocked with count 1. *)
Definition pinned_cache : state :=
  run [Bread 1 1 1; Bpin 29; Brelse 1 29] fresh_cache.

(** Three blocks read, into buffers 29, 28 and 27; buffer 28 (block 7)
    released at tick 1 and buffer 27 (block 6) at tick 3: bucket 6 holds the
    free buffer 27 and bucket 7 the older free buffer 28. *)
Definition staggered_cache : state :=
  run [Bread 1 1 1; Bread 1 1 7; Bread 1 1 6; Tick; Brelse 1 28; Tick; Tick; Brelse 1 27]
      fresh_cache.

(** ** Spin-locks held along a trace *)

Definition is_bucket_lock (l : spinlock) : bool :=
  match l with Lbucket _ => true | _ => false end.

Definition same_lock (a b : spinlock) : bool :=
  match a, b with
  | Lblock, Lblock => true
  | Lbucket i, Lbucket j => i =? j
  | Ltickslock, Ltickslock => true
  | _, _ => false
  end.

Fixpoint same_locks (l1 l2 : list spinlock) : bool :=
  match l1, l2 with
  | [], [] => true
  | a :: l1', b :: l2' => same_lock a b && same_locks l1' l2'
  | _, _ => false
  end.

Fixpoint drop_lock (l : spinlock) (held : list spinlock) : list spinlock :=
  match held with
  | [] => []
  | h :: held' => if same_lock l h then held' else h :: drop_lock l held'
  end.

(** The spin-locks held after event [e], most recent first. *)
Definition step_held (held : list spinlock) (e : event) : list spinlock :=
  match e with
  | Acquire l => l :: held
  | Release l => drop_lock l held
  | _ => held
  end.

Definition held_after (held : list spinlock) (evs : list event) : list spinlock :=
  fold_left step_held evs held.

(** [obeys ok held evs]: every event of [evs] is allowed by [ok] given the
    locks held when it happens. *)
Fixpoint obeys (ok : list spinlock -> event -> bool) (held : list spinlock)
    (evs : list event) : bool :=
  match evs with
  | [] => true
  | e :: evs' => ok held e && obeys ok (step_held held e) evs'
  end.

(** The discipline the specification states: [bcache.block] is taken with
    no bucket lock held, and a bucket lock is taken only when no bucket lock
    is held (at most one at a time, the source's being released before the
    destination's is taken). *)
Definition one_bucket_at_a_time (held : list spinlock) (e : event) : bool :=
  match e with
  | Acquire Lblock => negb (existsb is_bucket_lock held)
  | Acquire (Lbucket _) => negb (existsb is_bucket_lock held)
  | _ => true
  end.

(** The discipline of the code, for target bucket [bid], as the locks
    that must be held (most recent first) when each event happens:
    - [bcache.block] is taken with no spin-lock held, and released when it
      is the only one held;
    - the lock of [bid] is taken either with no spin-lock held (the first
      look) or with exactly [bcache.block] held, and released either alone
      or with exactly [bcache.block] under it;
    - the lock of another bucket is taken with exactly the lock of [bid]
      and [bcache.block] held, and released with exactly those two under it;
    - a buffer is taken out of the list of another bucket under that
      bucket's lock, the lock of [bid] and [bcache.block], and put on the
      list of [bid] under exactly the lock of [bid] and [bcache.block];
    - no spin-lock is held when going for a sleep-lock;
    - nothing else happens. *)
Definition target_then_other (bid : Z) (held : list spinlock) (e : event) : bool :=
  match e with
  | Acquire Lblock => same_locks held []
  | Acquire (Lbucket i) =>
      if i =? bid then same_locks held [] || same_locks held [Lblock]
      else same_locks held [Lbucket bid; Lblock]
  | Release Lblock => same_locks held [Lblock]
  | Release (Lbucket i) =>
      if i =? bid
      then same_locks held [Lbucket bid] || same_locks held [Lbucket bid; Lblock]
      else same_locks held [Lbucket i; Lbucket bid; Lblock]
  | Unlink _ i => negb (i =? bid) && same_locks held [Lbucket i; Lbucket bid; Lblock]
  | Relink _ i => (i =? bid) && same_locks held [Lbucket bid; Lblock]
  | AcquireSleep _ => same_locks held []
  | _ => false
  end.

(** The most bucket locks held at once along a trace. *)
Fixpoint max_bucket_locks (held : list spinlock) (evs : list event) : nat :=
  match evs with
  | [] => length (filter (fun l => is_bucket_lock l = true) held)
  | e :: evs' =>
      Nat.max (length (filter (fun l => is_bucket_lock l = true) held))
              (max_bucket_locks (step_held held e) evs')
  end.

(** The traffic with the disk in a trace. *)
Definition is_disk_event (e : event) : bool :=
  match e with
  | DiskRead _ _ | DiskWrite _ _ _ => true
  | _ => false
  end.

Definition disk_events (evs : list event) : list event :=
  List.filter is_disk_event evs.

(** Block 1 of device 1 read by process 1, which still holds its buffer
    (number 29). *)
Definition held_cache : state := run [Bread 1 1 1] fresh_cache.

(** What process 1 writes into it. *)
Definition new_bytes : list byte := replicate 1024 x2a.

(** After the commit: the buffer released, block 14 read into it (same
    bucket, so buffer 29 is recycled) and released. *)
Definition evicted_cache : state :=
  run [Bwrite 1 29; Brelse 1 29; Bread 1 1 14; Brelse 1 29]
      (write_data 29 new_bytes held_cache).

(* ===================================================================== *)
(** * Part III: theorems about kernel/kalloc.c                            *)
(* ===================================================================== *)

Lemma PGROUNDDOWN_eq a : PGROUNDDOWN a = PGSIZE * (a / PGSIZE).
Proof.
  unfold PGROUNDDOWN, PGSIZE.
  rewrite <- Z.ldiff_land.
  change (4096 - 1) with (Z.ones 12).
  rewrite Z.ldiff_ones_r by lia.
  rewrite Z.shiftr_div_pow2, Z.shiftl_mul_pow2 by lia.
  change (2 ^ 12) with 4096. lia.
Qed.

Lemma PGROUNDDOWN_aligned a : a mod PGSIZE = 0 -> PGROUNDDOWN a = a.
Proof.
  intros H. rewrite PGROUNDDOWN_eq. unfold PGSIZE in *.
  pose proof (Z.div_mod a 4096). lia.
Qed.

Lemma PGROUNDUP_eq a :
  0 <= a -> a + PGSIZE - 1 < 2 ^ 64 ->
  PGROUNDUP a = PGSIZE * ((a + PGSIZE - 1) / PGSIZE).
Proof.
  intros H0 H1. unfold PGROUNDUP, u64.
  rewrite Z.mod_small by (unfold PGSIZE in *; lia).
  apply PGROUNDDOWN_eq.
Qed.

Lemma PGROUNDUP_bounds a :
  0 <= a -> a + PGSIZE - 1 < 2 ^ 64 ->
  a <= PGROUNDUP a < a + PGSIZE /\ PGROUNDUP a mod PGSIZE = 0.
Proof.
  intros H0 H1. rewrite PGROUNDUP_eq by assumption. unfold PGSIZE in *.
  pose proof (Z.div_mod (a + 4096 - 1) 4096).
  pose proof (Z.mod_pos_bound (a + 4096 - 1) 4096).
  split; [lia|].
  rewrite Z.mul_comm. apply Z.mod_mul. lia.
Qed.

Lemma upd_same f i v : upd f i v i = v.
Proof. unfold upd. rewrite Z.eqb_refl. reflexivity. Qed.

Lemma upd_other f i v j : j <> i -> upd f i v j = f j.
Proof. unfold upd. intros H. destruct (Z.eqb_spec j i); [contradiction|reflexivity]. Qed.

Lemma memset_in m dst c n a : dst <= a < dst + n -> memset m dst c n a = c.
Proof.
  intros H. unfold memset.
  destruct (Z.leb_spec dst a), (Z.ltb_spec a (dst + n)); simpl; try lia; reflexivity.
Qed.

Lemma memset_out m dst c n a : ~ (dst <= a < dst + n) -> memset m dst c n a = m a.
Proof.
  intros H. unfold memset.
  destruct (Z.leb_spec dst a), (Z.ltb_spec a (dst + n)); simpl; try lia; reflexivity.
Qed.

Lemma memmove_in m dst src n a :
  dst <= a < dst + n -> memmove m dst src n a = m (src + (a - dst)).
Proof.
  intros H. unfold memmove.
  destruct (Z.leb_spec dst a), (Z.ltb_spec a (dst + n)); simpl; try lia; reflexivity.
Qed.

Lemma memmove_out m dst src n a :
  ~ (dst <= a < dst + n) -> memmove m dst src n a = m a.
Proof.
  intros H. unfold memmove.
  destruct (Z.leb_spec dst a), (Z.ltb_spec a (dst + n)); simpl; try lia; reflexivity.
Qed.

Lemma store64_out m a v x : ~ (a <= x < a + 8) -> store64 m a v x = m x.
Proof.
  intros H. unfold store64.
  destruct (Z.leb_spec a x), (Z.ltb_spec x (a + 8)); simpl; try lia; reflexivity.
Qed.

Lemma store64_in m a v x :
  a <= x < a + 8 -> store64 m a v x = Z.land (Z.shiftr v (8 * (x - a))) 255.
Proof.
  intros H. unfold store64.
  destruct (Z.leb_spec a x), (Z.ltb_spec x (a + 8)); simpl; try lia; reflexivity.
Qed.

(** Two distinct page-aligned addresses are on different pages. *)
Lemma aligned_pages_apart a b :
  a mod PGSIZE = 0 -> b mod PGSIZE = 0 -> a <> b ->
  a / PGSIZE <> b / PGSIZE /\ (a + PGSIZE <= b \/ b + PGSIZE <= a).
Proof.
  intros Ha Hb Hne. unfold PGSIZE in *.
  pose proof (Z.div_mod a 4096). pose proof (Z.div_mod b 4096). lia.
Qed.

(** The guard of [kfree]. *)
Lemma kfree_panics kend PHYSTOP pa s :
  pa mod PGSIZE <> 0 \/ pa < kend \/ PHYSTOP <= pa ->
  kfree kend PHYSTOP pa s = Panic "kfree".
Proof.
  intros H. unfold kfree.
  destruct (Z.eqb_spec (pa mod PGSIZE) 0), (Z.ltb_spec pa kend),
    (Z.leb_spec PHYSTOP pa); simpl; try reflexivity; lia.
Qed.

(** A whole page below [PHYSTOP] has its entry in [ref]. *)
Lemma page_index_inside PHYSTOP pa :
  pa + PGSIZE <= PHYSTOP -> (PHYSTOP / PGSIZE <=? pa / PGSIZE) = false.
Proof.
  intros H. apply Z.leb_gt. unfold PGSIZE in *.
  assert (Hd : (pa + 1 * 4096) / 4096 <= PHYSTOP / 4096) by (apply Z.div_le_mono; lia).
  rewrite Z.div_add in Hd by lia. lia.
Qed.

Lemma aligned_below pa PHYSTOP :
  pa mod PGSIZE = 0 -> PHYSTOP mod PGSIZE = 0 -> pa < PHYSTOP -> pa + PGSIZE <= PHYSTOP.
Proof.
  unfold PGSIZE. intros H1 H2 H3.
  pose proof (Z.div_mod pa 4096). pose proof (Z.div_mod PHYSTOP 4096). lia.
Qed.

Lemma kfree_guard_passes kend PHYSTOP pa :
  pa mod PGSIZE = 0 -> kend <= pa -> pa + PGSIZE <= PHYSTOP ->
  negb (pa mod PGSIZE =? 0) || (pa <? kend) || (PHYSTOP <=? pa) = false.
Proof.
  intros H1 H2 H3. unfold PGSIZE in H3.
  destruct (Z.eqb_spec (pa mod PGSIZE) 0), (Z.ltb_spec pa kend),
    (Z.leb_spec PHYSTOP pa); simpl; try reflexivity; lia.
Qed.

(** [kfree] when the count reaches zero. *)
Lemma kfree_last kend PHYSTOP pa s :
  pa mod PGSIZE = 0 -> kend <= pa -> pa + PGSIZE <= PHYSTOP ->
  u32 (ref s (pa / PGSIZE) - 1) = 0 ->
  kfree kend PHYSTOP pa s =
    Done (mkK (pa :: freelist s) (upd (ref s) (pa / PGSIZE) 0)
              (store64 (memset (mem s) pa 1 PGSIZE) pa (hd 0 (freelist s)))).
Proof.
  intros H1 H2 H3 H4. unfold kfree.
  rewrite kfree_guard_passes by assumption. cbv zeta.
  rewrite page_index_inside by assumption. rewrite H4. reflexivity.
Qed.

(** [kfree] when other owners remain. *)
Lemma kfree_shared kend PHYSTOP pa s :
  pa mod PGSIZE = 0 -> kend <= pa -> pa + PGSIZE <= PHYSTOP ->
  u32 (ref s (pa / PGSIZE) - 1) <> 0 ->
  kfree kend PHYSTOP pa s =
    Done (mkK (freelist s) (upd (ref s) (pa / PGSIZE) (u32 (ref s (pa / PGSIZE) - 1)))
              (mem s)).
Proof.
  intros H1 H2 H3 H4. unfold kfree.
  rewrite kfree_guard_passes by assumption. cbv zeta.
  rewrite page_index_inside by assumption.
  destruct (Z.eqb_spec (u32 (ref s (pa / PGSIZE) - 1)) 0); [contradiction|reflexivity].
Qed.

Lemma u32_pred r : 0 < r < 2 ^ 32 -> u32 (r - 1) = r - 1.
Proof. intros H. unfold u32. apply Z.mod_small. lia. Qed.

(** C7.  [kfree] panics on an address that is not page-aligned or lies
    outside [kend, PHYSTOP).  Otherwise ([PHYSTOP] being a multiple of the
    page size, as the size of [ref] supposes) it returns, the page's count is
    decremented by one (on [uint]) and no other count changes; the page is
    pushed on the free list exactly when the count has reached zero, after
    being filled with the byte 1 (its first eight bytes then hold the [next]
    link); when the count is still positive the free list and all of memory
    are unchanged. *)
Theorem kfree_spec (kend PHYSTOP pa : Z) (s : kstate) :
  (pa mod PGSIZE <> 0 \/ pa < kend \/ PHYSTOP <= pa ->
   kfree kend PHYSTOP pa s = Panic "kfree") /\
  (PHYSTOP mod PGSIZE = 0 -> pa mod PGSIZE = 0 -> kend <= pa -> pa < PHYSTOP ->
   exists s',
     kfree kend PHYSTOP pa s = Done s' /\
     ref s' (pa / PGSIZE) = u32 (ref s (pa / PGSIZE) - 1) /\
     (0 < ref s (pa / PGSIZE) < 2 ^ 32 ->
      ref s' (pa / PGSIZE) = ref s (pa / PGSIZE) - 1) /\
     (forall j, j <> pa / PGSIZE -> ref s' j = ref s j) /\
     (freelist s' = pa :: freelist s <-> ref s' (pa / PGSIZE) = 0) /\
     (ref s' (pa / PGSIZE) = 0 ->
      (forall a, pa + 8 <= a < pa + PGSIZE -> mem s' a = 1) /\
      (forall a, pa <= a < pa + 8 ->
         mem s' a = Z.land (Z.shiftr (hd 0 (freelist s)) (8 * (a - pa))) 255) /\
      (forall a, ~ (pa <= a < pa + PGSIZE) -> mem s' a = mem s a)) /\
     (ref s' (pa / PGSIZE) <> 0 ->
      freelist s' = freelist s /\ mem s' = mem s)).
Proof.
  split; [apply kfree_panics|].
  intros HP H1 H2 H3'.
  pose proof (aligned_below pa PHYSTOP H1 HP H3') as H3.
  destruct (Z.eq_dec (u32 (ref s (pa / PGSIZE) - 1)) 0) as [Hz|Hnz].
  - eexists. split; [apply kfree_last; assumption|]. simpl.
    rewrite upd_same.
    split; [symmetry; exact Hz|].
    split; [intros Hr; rewrite u32_pred in Hz by exact Hr; lia|].
    split; [intros j Hj; apply upd_other; exact Hj|].
    split; [tauto|].
    split; [|intros Hc; contradiction Hc; reflexivity].
    intros _. unfold PGSIZE. repeat split.
    + intros a Ha. rewrite store64_out by lia. apply memset_in. lia.
    + intros a Ha. apply store64_in. lia.
    + intros a Ha. rewrite store64_out by lia. apply memset_out. lia.
  - eexists. split; [apply kfree_shared; assumption|]. simpl.
    rewrite upd_same.
    split; [reflexivity|].
    split; [intros Hr; apply u32_pred; exact Hr|].
    split; [intros j Hj; apply upd_other; exact Hj|].
    split.
    + split; [|intros Hc; contradiction].
      intros Hc. exfalso.
      assert (Hl : length (freelist s) = length (pa :: freelist s)) by (rewrite <- Hc; reflexivity).
      simpl in Hl. lia.
    + split; [intros Hc; contradiction|]. intros _. split; reflexivity.
Qed.

(** A state in which one owner is about to drop a page shared by two. *)
Definition kfree_demo_state : kstate :=
  mkK [2281701376] (fun _ => 2) (fun _ => 0).

Lemma kfree_spec_witness :
  exists s',
    kfree 2147618816 2281701376 2147749888 kfree_demo_state = Done s' /\
    ref s' (2147749888 / PGSIZE) = u32 (ref kfree_demo_state (2147749888 / PGSIZE) - 1) /\
    (0 < ref kfree_demo_state (2147749888 / PGSIZE) < 2 ^ 32 ->
     ref s' (2147749888 / PGSIZE) = ref kfree_demo_state (2147749888 / PGSIZE) - 1) /\
    (forall j, j <> 2147749888 / PGSIZE -> ref s' j = ref kfree_demo_state j) /\
    (freelist s' = 2147749888 :: freelist kfree_demo_state <->
     ref s' (2147749888 / PGSIZE) = 0) /\
    (ref s' (2147749888 / PGSIZE) = 0 ->
     (forall a, 2147749888 + 8 <= a < 2147749888 + PGSIZE -> mem s' a = 1) /\
     (forall a, 2147749888 <= a < 2147749888 + 8 ->
        mem s' a =
        Z.land (Z.shiftr (hd 0 (freelist kfree_demo_state)) (8 * (a - 2147749888))) 255) /\
     (forall a, ~ (2147749888 <= a < 2147749888 + PGSIZE) ->
        mem s' a = mem kfree_demo_state a)) /\
    (ref s' (2147749888 / PGSIZE) <> 0 ->
     freelist s' = freelist kfree_demo_state /\ mem s' = mem kfree_demo_state).
Proof.
  apply (proj2 (kfree_spec 2147618816 2281701376 2147749888 kfree_demo_state)).
  - reflexivity.
  - reflexivity.
  - lia.
  - lia.
Defined.

(** ** [kalloc] *)

(** Pages on the free list are what [kfree] put there: non-null,
    page-aligned, inside [kend, PHYSTOP), and each at most once. *)
Definition freelist_ok (kend PHYSTOP : Z) (l : list Z) : Prop :=
  NoDup l /\
  Forall (fun r => r <> 0 /\ r mod PGSIZE = 0 /\ kend <= r /\ r + PGSIZE <= PHYSTOP) l.

Lemma kalloc_empty s : freelist s = [] -> kalloc s = (0, s).
Proof. intros H. unfold kalloc. rewrite H. reflexivity. Qed.

Lemma kalloc_cons s r rest :
  freelist s = r :: rest ->
  kalloc s = (r, mkK rest (upd (ref s) (r / PGSIZE) 1) (memset (mem s) r 5 PGSIZE)).
Proof. intros H. unfold kalloc. rewrite H. reflexivity. Qed.

(** [n] allocations from a list of at least [n] pages hand out its first
    [n] pages in order. *)
Lemma kalloc_n_take n : forall s,
  (n <= length (freelist s))%nat ->
  fst (kalloc_n n s) = take n (freelist s) /\
  freelist (snd (kalloc_n n s)) = drop n (freelist s).
Proof.
  induction n as [|n IH]; intros s Hn.
  - simpl. rewrite drop_0. split; reflexivity.
  - simpl. destruct (freelist s) as [|r rest] eqn:Hf; [simpl in Hn; lia|].
    rewrite (kalloc_cons s r rest Hf).
    destruct (kalloc_n n _) as [rs s2] eqn:Hk.
    specialize (IH (mkK rest (upd (ref s) (r / PGSIZE) 1) (memset (mem s) r 5 PGSIZE))).
    rewrite Hk in IH. simpl in IH, Hn. destruct IH as [IH1 IH2]; [lia|].
    simpl. rewrite IH1, IH2. split; reflexivity.
Qed.

(** The pages [p, p + PGSIZE, ...], [n] of them. *)
Fixpoint pages_from (p : Z) (n : nat) : list Z :=
  match n with
  | O => []
  | S n' => p :: pages_from (p + PGSIZE) n'
  end.

Lemma pages_from_length p n : length (pages_from p n) = n.
Proof. revert p; induction n; intros p; simpl; [reflexivity|]. rewrite IHn. reflexivity. Qed.

Lemma pages_from_snoc p n :
  pages_from p (S n) = pages_from p n ++ [p + Z.of_nat n * PGSIZE].
Proof.
  revert p; induction n as [|n IH]; intros p.
  - simpl. f_equal. lia.
  - change (pages_from p (S (S n))) with (p :: pages_from (p + PGSIZE) (S n)).
    rewrite IH. simpl. do 2 f_equal. f_equal. lia.
Qed.

Lemma pages_from_elem p n x :
  x ∈ pages_from p n -> exists k, (k < n)%nat /\ x = p + Z.of_nat k * PGSIZE.
Proof.
  revert p; induction n as [|n IH]; intros p Hx; simpl in Hx.
  - inversion Hx.
  - apply elem_of_cons in Hx as [->|Hx].
    + exists 0%nat. split; lia.
    + apply IH in Hx as (k & Hk & ->). exists (S k). split; lia.
Qed.

Lemma pages_from_NoDup p n : NoDup (pages_from p n).
Proof.
  revert p; induction n as [|n IH]; intros p; simpl; constructor.
  - intros Hx. apply pages_from_elem in Hx as (k & _ & Hk). unfold PGSIZE in Hk. lia.
  - apply IH.
Qed.

(** One round of [freerange]'s loop frees the page it is at. *)
Lemma freerange_round kend PHYSTOP p s :
  p mod PGSIZE = 0 -> kend <= p -> p + PGSIZE <= PHYSTOP ->
  kfree kend PHYSTOP p (mkK (freelist s) (upd (ref s) (p / PGSIZE) 1) (mem s)) =
  Done (mkK (p :: freelist s) (upd (upd (ref s) (p / PGSIZE) 1) (p / PGSIZE) 0)
            (store64 (memset (mem s) p 1 PGSIZE) p (hd 0 (freelist s)))).
Proof.
  intros H1 H2 H3. rewrite kfree_last; try assumption; [reflexivity|].
  simpl. rewrite upd_same. reflexivity.
Qed.

Lemma freerange_loop_spec kend PHYSTOP pa_end :
  pa_end <= PHYSTOP ->
  forall fuel p s,
    p mod PGSIZE = 0 -> kend <= p ->
    (Z.to_nat ((pa_end - p) / PGSIZE) < fuel)%nat ->
    exists s',
      freerange_loop kend PHYSTOP fuel p pa_end s = Done s' /\
      freelist s' = rev (pages_from p (Z.to_nat ((pa_end - p) / PGSIZE))) ++ freelist s.
Proof.
  intros Hend. induction fuel as [|fuel IH]; intros p s Hal Hk Hf; [lia|].
  simpl. destruct (Z.leb_spec (p + PGSIZE) pa_end) as [Hle|Hgt].
  - rewrite freerange_round by (try assumption; lia).
    simpl.
    assert (Hdiv : (pa_end - p) / PGSIZE = (pa_end - (p + PGSIZE)) / PGSIZE + 1).
    { replace (pa_end - p) with ((pa_end - (p + PGSIZE)) + 1 * PGSIZE) by lia.
      rewrite Z.div_add by (unfold PGSIZE; lia). reflexivity. }
    assert (Hnn : 0 <= (pa_end - (p + PGSIZE)) / PGSIZE).
    { apply Z.div_pos; unfold PGSIZE in *; lia. }
    edestruct (IH (p + PGSIZE)) as (s' & Hs' & Hfl).
    + unfold PGSIZE in *. rewrite <- Zplus_mod_idemp_l, Hal. reflexivity.
    + unfold PGSIZE in *. lia.
    + rewrite Hdiv in Hf. lia.
    + exists s'. split; [exact Hs'|]. rewrite Hfl. simpl.
      rewrite Hdiv. rewrite Z2Nat.inj_add by lia.
      change (Z.to_nat 1) with 1%nat. rewrite Nat.add_1_r. simpl.
      rewrite <- app_assoc. reflexivity.
  - exists s. split; [reflexivity|].
    assert (Hz : (pa_end - p) / PGSIZE <= 0).
    { destruct (Z_lt_le_dec (pa_end - p) 0) as [Hneg|Hpos].
      - pose proof (Z.div_lt_upper_bound (pa_end - p) PGSIZE 0). unfold PGSIZE in *. lia.
      - rewrite Z.div_small by (unfold PGSIZE in *; lia). lia. }
    replace (Z.to_nat ((pa_end - p) / PGSIZE)) with 0%nat by lia. reflexivity.
Qed.

(** [kinit] returns, and the pool it builds is the run of whole pages
    between [end] and [PHYSTOP]. *)
Lemma kinit_pool kend PHYSTOP m0 :
  0 < kend -> kend + PGSIZE - 1 < 2 ^ 64 -> kend <= PHYSTOP ->
  exists s0,
    kinit kend PHYSTOP m0 = Done s0 /\
    freelist s0 =
      rev (pages_from (PGROUNDUP kend) (Z.to_nat ((PHYSTOP - PGROUNDUP kend) / PGSIZE))).
Proof.
  intros H0 H1 H2. unfold kinit, freerange.
  destruct (PGROUNDUP_bounds kend) as [Hb Hal]; [lia|assumption|].
  edestruct (freerange_loop_spec kend PHYSTOP PHYSTOP (Z.le_refl _)
               (S (Z.to_nat ((PHYSTOP - PGROUNDUP kend) / PGSIZE))) (PGROUNDUP kend)
               (mkK [] (fun _ => 0) m0)) as (s' & Hs' & Hfl);
    [exact Hal|lia|lia|].
  exists s'. split; [exact Hs'|]. rewrite Hfl. simpl. apply app_nil_r.
Qed.

Lemma kinit_pool_nonnull kend PHYSTOP m0 s0 :
  0 < kend -> kend + PGSIZE - 1 < 2 ^ 64 -> kend <= PHYSTOP ->
  kinit kend PHYSTOP m0 = Done s0 ->
  NoDup (freelist s0) /\ Forall (fun r => r <> 0) (freelist s0).
Proof.
  intros H0 H1 H2 Hk.
  destruct (kinit_pool kend PHYSTOP m0 H0 H1 H2) as (s1 & Hs1 & Hfl).
  rewrite Hk in Hs1. injection Hs1 as <-. rewrite Hfl.
  destruct (PGROUNDUP_bounds kend) as [Hb Hal]; [lia|assumption|].
  split.
  - apply NoDup_ListNoDup, NoDup_rev, NoDup_ListNoDup, pages_from_NoDup.
  - apply Forall_forall. intros x Hx.
    apply list_elem_of_In, in_rev, list_elem_of_In in Hx.
    apply pages_from_elem in Hx as (k & _ & ->). unfold PGSIZE in *. lia.
Qed.

(** C6.  [kalloc] on an empty free list returns the null pointer and
    changes nothing; otherwise it pops the head page, fills it with the
    byte 5, sets its count to 1, touches no other page or count, and returns
    it.  On a free list of (non-null) pages the result is null exactly when
    the list is empty.  On the pool that [kinit] builds, of [N] pages, [N]
    calls in a row return [N] distinct non-null pages and the next call
    returns null. *)
Theorem kalloc_spec :
  (forall s,
     match freelist s with
     | [] => kalloc s = (0, s)
     | r :: rest =>
         exists s',
           kalloc s = (r, s') /\
           freelist s' = rest /\
           ref s' (r / PGSIZE) = 1 /\
           (forall j, j <> r / PGSIZE -> ref s' j = ref s j) /\
           (forall a, r <= a < r + PGSIZE -> mem s' a = 5) /\
           (forall a, ~ (r <= a < r + PGSIZE) -> mem s' a = mem s a)
     end) /\
  (forall s, Forall (fun r => r <> 0) (freelist s) ->
     (fst (kalloc s) = 0 <-> freelist s = [])) /\
  (forall kend PHYSTOP m0,
     0 < kend -> kend + PGSIZE - 1 < 2 ^ 64 -> kend <= PHYSTOP ->
     exists s0,
       kinit kend PHYSTOP m0 = Done s0 /\
       let N := length (freelist s0) in
       N = Z.to_nat ((PHYSTOP - PGROUNDUP kend) / PGSIZE) /\
       length (fst (kalloc_n N s0)) = N /\
       Forall (fun r => r <> 0) (fst (kalloc_n N s0)) /\
       NoDup (fst (kalloc_n N s0)) /\
       kalloc (snd (kalloc_n N s0)) = (0, snd (kalloc_n N s0))).
Proof.
  split; [|split].
  - intros s. destruct (freelist s) as [|r rest] eqn:Hf.
    + apply kalloc_empty, Hf.
    + eexists. split; [apply kalloc_cons, Hf|]. simpl.
      split; [reflexivity|].
      split; [apply upd_same|].
      split; [intros j Hj; apply upd_other, Hj|].
      split; [intros a Ha; apply memset_in, Ha|intros a Ha; apply memset_out, Ha].
  - intros s Hnn. split.
    + intros H0. destruct (freelist s) as [|r rest] eqn:Hf; [reflexivity|].
      rewrite (kalloc_cons s r rest Hf) in H0. simpl in H0.
      apply Forall_cons in Hnn as [Hr _]. contradiction.
    + intros Hf. rewrite kalloc_empty by exact Hf. reflexivity.
  - intros kend PHYSTOP m0 H0 H1 H2.
    destruct (kinit_pool kend PHYSTOP m0 H0 H1 H2) as (s0 & Hs0 & Hfl).
    destruct (kinit_pool_nonnull kend PHYSTOP m0 s0 H0 H1 H2 Hs0) as [Hnd Hnn].
    exists s0. split; [exact Hs0|]. cbv zeta.
    destruct (kalloc_n_take (length (freelist s0)) s0 (Nat.le_refl _)) as [Ht Hd].
    rewrite firstn_all in Ht. rewrite drop_all in Hd.
    rewrite Ht.
    split; [rewrite Hfl, length_rev; apply pages_from_length|].
    split; [reflexivity|].
    split; [exact Hnn|].
    split; [exact Hnd|].
    apply kalloc_empty, Hd.
Qed.

Lemma kalloc_spec_witness :
  exists s0,
    kinit 2147618816 2281701376 (fun _ => 0) = Done s0 /\
    let N := length (freelist s0) in
    N = Z.to_nat ((2281701376 - PGROUNDUP 2147618816) / PGSIZE) /\
    length (fst (kalloc_n N s0)) = N /\
    Forall (fun r => r <> 0) (fst (kalloc_n N s0)) /\
    NoDup (fst (kalloc_n N s0)) /\
    kalloc (snd (kalloc_n N s0)) = (0, snd (kalloc_n N s0)).
Proof.
  apply (proj2 (proj2 kalloc_spec) 2147618816 2281701376 (fun _ => 0));
    unfold PGSIZE; lia.
Defined.

(** ** [cowalloc] *)

Lemma testbit_one n : 0 <= n -> Z.testbit 1 n = (n =? 0).
Proof.
  intros Hn. destruct (Z.eqb_spec n 0) as [->|Hne]; [reflexivity|].
  change 1 with (2 ^ 0). apply Z.pow2_bits_false. lia.
Qed.

Lemma testbit_pow2 k n : 0 <= k -> 0 <= n -> Z.testbit (Z.shiftl 1 k) n = (n =? k).
Proof.
  intros Hk Hn. rewrite Z.shiftl_spec by lia.
  destruct (Z.eqb_spec n k) as [->|Hne].
  - rewrite Z.sub_diag. reflexivity.
  - destruct (Z_lt_le_dec n k).
    + apply Z.testbit_neg_r. lia.
    + rewrite testbit_one by lia. destruct (Z.eqb_spec (n - k) 0); [lia|reflexivity].
Qed.

Lemma land_bit_nonzero a k :
  0 <= k -> (Z.land a (Z.shiftl 1 k) <> 0 <-> Z.testbit a k = true).
Proof.
  intros Hk. split.
  - intros H. destruct (Z.testbit a k) eqn:Hb; [reflexivity|]. exfalso. apply H.
    apply Z.bits_inj'. intros n Hn. rewrite Z.land_spec, testbit_pow2, Z.bits_0 by lia.
    destruct (Z.eqb_spec n k) as [->|]; [rewrite Hb; reflexivity|apply andb_false_r].
  - intros Hb H0.
    assert (Ht : Z.testbit (Z.land a (Z.shiftl 1 k)) k = true).
    { rewrite Z.land_spec, testbit_pow2, Hb, Z.eqb_refl by lia. reflexivity. }
    rewrite H0, Z.bits_0 in Ht. discriminate.
Qed.

Lemma clear_bit_spec a k n :
  0 <= k -> 0 <= n ->
  Z.testbit (Z.land a (Z.lnot (Z.shiftl 1 k))) n = Z.testbit a n && negb (n =? k).
Proof.
  intros Hk Hn. rewrite Z.land_spec, Z.lnot_spec, testbit_pow2 by lia. reflexivity.
Qed.

Lemma set_bit_spec a k n :
  0 <= k -> 0 <= n ->
  Z.testbit (Z.lor a (Z.shiftl 1 k)) n = Z.testbit a n || (n =? k).
Proof.
  intros Hk Hn. rewrite Z.lor_spec, testbit_pow2 by lia. reflexivity.
Qed.

(** Clearing [PTE_V] and setting it again gives back a valid entry. *)
Lemma restore_valid pte :
  Z.land pte PTE_V <> 0 -> Z.lor (Z.land pte (Z.lnot PTE_V)) PTE_V = pte.
Proof.
  intros HV. change PTE_V with (Z.shiftl 1 0) in *.
  apply land_bit_nonzero in HV; [|lia].
  apply Z.bits_inj'. intros n Hn.
  rewrite set_bit_spec, clear_bit_spec by lia.
  destruct (Z.eqb_spec n 0) as [->|]; [rewrite HV; reflexivity|].
  simpl. rewrite andb_true_r, orb_false_r. reflexivity.
Qed.

Lemma PTE2PA_aligned pte : 0 <= pte -> PTE2PA pte mod PGSIZE = 0 /\ 0 <= PTE2PA pte.
Proof.
  intros H. unfold PTE2PA, PGSIZE.
  rewrite Z.shiftl_mul_pow2, Z.shiftr_div_pow2 by lia.
  change (2 ^ 12) with 4096. split; [apply Z.mod_mul; lia|].
  apply Z.mul_nonneg_nonneg; [apply Z.div_pos|]; lia.
Qed.

Lemma PTE2PA_bits pte n :
  0 <= n -> Z.testbit (PTE2PA pte) n = if n <? 12 then false else Z.testbit pte (n - 2).
Proof.
  intros Hn. unfold PTE2PA. rewrite Z.shiftl_spec by lia.
  destruct (Z.ltb_spec n 12).
  - apply Z.testbit_neg_r. lia.
  - rewrite Z.shiftr_spec by lia. f_equal. lia.
Qed.

(** The entry that [mappages] writes for page [m] with flags [perm]. *)
Lemma new_entry_bits m perm n :
  0 <= n ->
  Z.testbit (Z.lor (Z.lor (PA2PTE m) perm) PTE_V) n =
    (if n <? 10 then false else Z.testbit m (n + 2)) || Z.testbit perm n || (n =? 0).
Proof.
  intros Hn. change PTE_V with (Z.shiftl 1 0).
  rewrite set_bit_spec, Z.lor_spec by lia. unfold PA2PTE.
  rewrite Z.shiftl_spec by lia.
  destruct (Z.ltb_spec n 10).
  - rewrite Z.testbit_neg_r by lia. reflexivity.
  - rewrite Z.shiftr_spec by lia. do 3 f_equal. lia.
Qed.

Lemma aligned_low_bits m n : m mod PGSIZE = 0 -> 0 <= n < 12 -> Z.testbit m n = false.
Proof.
  intros Hm Hn. unfold PGSIZE in Hm.
  assert (Hl : Z.land m (Z.ones 12) = 0) by (rewrite Z.land_ones by lia; exact Hm).
  assert (Hb : Z.testbit (Z.land m (Z.ones 12)) n = false) by (rewrite Hl; apply Z.bits_0).
  rewrite Z.land_spec, Z.ones_spec_low, andb_true_r in Hb by lia. exact Hb.
Qed.

Lemma perm_bits fbit pte1 n :
  0 <= fbit -> 0 <= n ->
  Z.testbit (Z.land (Z.lor (PTE_FLAGS pte1) PTE_W) (Z.lnot (PTE_F fbit))) n =
    ((Z.testbit pte1 n && (n <? 10)) || (n =? 2)) && negb (n =? fbit).
Proof.
  intros Hf Hn. unfold PTE_F. rewrite clear_bit_spec by lia.
  change PTE_W with (Z.shiftl 1 2). rewrite set_bit_spec by lia.
  unfold PTE_FLAGS. rewrite Z.land_spec. change 1023 with (Z.ones 10).
  destruct (Z.ltb_spec n 10).
  - rewrite Z.ones_spec_low by lia. reflexivity.
  - rewrite Z.ones_spec_high by lia. reflexivity.
Qed.

(** The new entry maps the page [m]. *)
Lemma new_entry_maps fbit m pte1 :
  0 <= fbit -> m mod PGSIZE = 0 ->
  PTE2PA (Z.lor (Z.lor (PA2PTE m)
            (Z.land (Z.lor (PTE_FLAGS pte1) PTE_W) (Z.lnot (PTE_F fbit)))) PTE_V) = m.
Proof.
  intros Hf Hm. apply Z.bits_inj'. intros n Hn.
  rewrite PTE2PA_bits by lia.
  destruct (Z.ltb_spec n 12).
  - symmetry. apply aligned_low_bits; [exact Hm|lia].
  - rewrite new_entry_bits, perm_bits by lia.
    destruct (Z.ltb_spec (n - 2) 10); [lia|].
    destruct (Z.eqb_spec (n - 2) 2); [lia|].
    destruct (Z.eqb_spec (n - 2) 0); [lia|].
    rewrite andb_false_r. simpl. rewrite !orb_false_r. f_equal. lia.
Qed.

Lemma vpn_rounddown va : PGROUNDDOWN va / PGSIZE = va / PGSIZE.
Proof.
  rewrite PGROUNDDOWN_eq. rewrite Z.mul_comm. apply Z.div_mul. unfold PGSIZE. lia.
Qed.

(** What it takes for [cowalloc] to get past its two lookups: the page of
    [va] has a valid user entry [pte] that points at a page of the managed
    range. *)
Definition resolvable (kend PHYSTOP : Z) (pt : gmap Z Z) (va pte : Z) : Prop :=
  PGROUNDDOWN va < MAXVA /\
  pt !! (va / PGSIZE) = Some pte /\
  0 <= pte /\
  Z.land pte PTE_V <> 0 /\
  Z.land pte PTE_U <> 0 /\
  kend <= PTE2PA pte /\
  PTE2PA pte + PGSIZE <= PHYSTOP /\
  PTE2PA pte <> 0.

Lemma resolvable_lookups kend PHYSTOP pt va pte :
  resolvable kend PHYSTOP pt va pte ->
  walkaddr pt (PGROUNDDOWN va) = PTE2PA pte /\
  walk pt (PGROUNDDOWN va) = Some pte /\
  (PHYSTOP / PGSIZE <=? PTE2PA pte / PGSIZE) = false.
Proof.
  intros (Hva & Hpt & Hnn & HV & HU & Hlo & Hhi & Hnz).
  assert (Hw : walk pt (PGROUNDDOWN va) = Some pte).
  { unfold walk. rewrite vpn_rounddown. exact Hpt. }
  split; [|split; [exact Hw|]].
  - unfold walkaddr. destruct (Z.leb_spec MAXVA (PGROUNDDOWN va)); [lia|].
    rewrite Hw.
    destruct (Z.eqb_spec (Z.land pte PTE_V) 0); [contradiction|].
    destruct (Z.eqb_spec (Z.land pte PTE_U) 0); [contradiction|]. reflexivity.
  - apply Z.leb_gt.
    destruct (PTE2PA_aligned pte Hnn) as [Hal _].
    unfold PGSIZE in *.
    pose proof (Z.div_mod (PTE2PA pte) 4096).
    pose proof (Z.div_mod PHYSTOP 4096).
    pose proof (Z.mod_pos_bound PHYSTOP 4096). lia.
Qed.

Lemma cleared_valid pte : Z.land (Z.land pte (Z.lnot PTE_V)) PTE_V = 0.
Proof. rewrite <- Z.land_assoc. change (Z.land (Z.lnot PTE_V) PTE_V) with 0. apply Z.land_0_r. Qed.

(** Sole owner: flags flipped in place. *)
Lemma cowalloc_sole fbit ok kend PHYSTOP pt va pte s :
  resolvable kend PHYSTOP pt va pte ->
  ref s (PTE2PA pte / PGSIZE) = 1 ->
  cowalloc fbit ok kend PHYSTOP pt va s =
    Done (PTE2PA pte,
          <[va / PGSIZE := Z.land (Z.lor pte PTE_W) (Z.lnot (PTE_F fbit))]> pt, s).
Proof.
  intros Hres Href.
  destruct (resolvable_lookups _ _ _ _ _ Hres) as (Hwa & Hw & Hin).
  destruct Hres as (_ & _ & _ & _ & _ & _ & _ & Hnz).
  unfold cowalloc. rewrite Hwa, Hw, Hin, Href, vpn_rounddown.
  destruct (Z.eqb_spec (PTE2PA pte) 0); [contradiction|]. reflexivity.
Qed.

(** Shared page, nothing left to allocate. *)
Lemma cowalloc_nomem fbit ok kend PHYSTOP pt va pte s :
  resolvable kend PHYSTOP pt va pte ->
  ref s (PTE2PA pte / PGSIZE) <> 1 ->
  freelist s = [] ->
  cowalloc fbit ok kend PHYSTOP pt va s = Done (0, pt, s).
Proof.
  intros Hres Href Hfl.
  destruct (resolvable_lookups _ _ _ _ _ Hres) as (Hwa & Hw & Hin).
  destruct Hres as (_ & _ & _ & _ & _ & _ & _ & Hnz).
  unfold cowalloc. rewrite Hwa, Hw, Hin, (kalloc_empty s Hfl).
  destruct (Z.eqb_spec (PTE2PA pte) 0); [contradiction|].
  destruct (Z.eqb_spec (ref s (PTE2PA pte / PGSIZE)) 1); [contradiction|]. reflexivity.
Qed.

(** The state after [kalloc] and the copy, in the shared case. *)
Definition copied (s : kstate) (m pa : Z) (rest : list Z) : kstate :=
  mkK rest (upd (ref s) (m / PGSIZE) 1)
      (memmove (memset (mem s) m 5 PGSIZE) m pa PGSIZE).

(** Shared page, page [m] allocated: what is left is the outcome of
    [mappages] and the [kfree] that follows it. *)
Lemma cowalloc_shared fbit ok kend PHYSTOP pt va pte s m rest :
  resolvable kend PHYSTOP pt va pte ->
  ref s (PTE2PA pte / PGSIZE) <> 1 ->
  freelist s = m :: rest -> m <> 0 ->
  cowalloc fbit ok kend PHYSTOP pt va s =
    let pa := PTE2PA pte in
    let pte1 := Z.land pte (Z.lnot PTE_V) in
    let perm := Z.land (Z.lor (PTE_FLAGS pte1) PTE_W) (Z.lnot (PTE_F fbit)) in
    if ok then
      obind (kfree kend PHYSTOP pa (copied s m pa rest)) (fun s3 =>
        Done (m, <[va / PGSIZE := Z.lor (Z.lor (PA2PTE m) perm) PTE_V]> pt, s3))
    else
      obind (kfree kend PHYSTOP m (copied s m pa rest)) (fun s3 =>
        Done (0, pt, s3)).
Proof.
  intros Hres Href Hfl Hm.
  destruct (resolvable_lookups _ _ _ _ _ Hres) as (Hwa & Hw & Hin).
  destruct Hres as (_ & Hpt & Hnn & HV & _ & _ & _ & Hnz).
  unfold cowalloc. rewrite Hwa, Hw, Hin, (kalloc_cons s m rest Hfl), vpn_rounddown.
  destruct (Z.eqb_spec (PTE2PA pte) 0); [contradiction|].
  destruct (Z.eqb_spec (ref s (PTE2PA pte / PGSIZE)) 1); [contradiction|].
  destruct (Z.eqb_spec m 0); [contradiction|].
  cbv zeta. unfold mappages. rewrite vpn_rounddown.
  destruct ok; simpl negb; cbv iota.
  - rewrite lookup_insert_eq, cleared_valid. simpl.
    rewrite insert_insert_eq.
    rewrite PGROUNDDOWN_aligned by (apply PTE2PA_aligned; exact Hnn).
    reflexivity.
  - simpl. rewrite insert_insert_eq, (restore_valid pte HV).
    rewrite insert_id by exact Hpt. reflexivity.
Qed.

(** C5.  [cowalloc] on a resolvable page whose physical page [pa] is
    allocated (not on the free list):
    - count exactly 1: nothing is allocated, the allocator state is
      unchanged, the entry gets [PTE_W] set and [PTE_F] cleared with every
      other bit kept, and [pa] is returned;
    - count 2 or more and the free list empty: the null pointer is
      returned and nothing changes;
    - count 2 or more, head page [m] available and the mapping installed:
      [m] is popped and returned, it holds a copy of the whole old page, the
      entry now maps [m] with [PTE_V] and [PTE_W] set, [PTE_F] cleared and
      the other flags kept, the count of [pa] has dropped by exactly one and
      that of [m] is 1, and the old page's bytes are untouched. *)
Theorem cowalloc_spec (fbit kend PHYSTOP : Z) (pt : gmap Z Z) (va pte : Z) (s : kstate)
    (Hf : fbit = 8 \/ fbit = 9)
    (Hres : resolvable kend PHYSTOP pt va pte)
    (Hfl : freelist_ok kend PHYSTOP (freelist s))
    (Hna : PTE2PA pte ∉ freelist s) :
  let pa := PTE2PA pte in
  let vpn := va / PGSIZE in
  (ref s (pa / PGSIZE) = 1 ->
   forall ok, exists pte',
     cowalloc fbit ok kend PHYSTOP pt va s = Done (pa, <[vpn := pte']> pt, s) /\
     Z.testbit pte' 2 = true /\
     Z.testbit pte' fbit = false /\
     (forall n, 0 <= n -> n <> 2 -> n <> fbit -> Z.testbit pte' n = Z.testbit pte n)) /\
  (2 <= ref s (pa / PGSIZE) < 2 ^ 32 ->
   (freelist s = [] ->
    forall ok, cowalloc fbit ok kend PHYSTOP pt va s = Done (0, pt, s)) /\
   (forall m rest, freelist s = m :: rest ->
    exists pte' s',
      cowalloc fbit true kend PHYSTOP pt va s = Done (m, <[vpn := pte']> pt, s') /\
      m <> 0 /\ m <> pa /\
      PTE2PA pte' = m /\
      Z.testbit pte' 0 = true /\
      Z.testbit pte' 2 = true /\
      Z.testbit pte' fbit = false /\
      (forall n, 0 < n < 10 -> n <> 2 -> n <> fbit ->
         Z.testbit pte' n = Z.testbit pte n) /\
      freelist s' = rest /\
      ref s' (pa / PGSIZE) = ref s (pa / PGSIZE) - 1 /\
      ref s' (m / PGSIZE) = 1 /\
      (forall j, j <> pa / PGSIZE -> j <> m / PGSIZE -> ref s' j = ref s j) /\
      (forall off, 0 <= off < PGSIZE -> mem s' (m + off) = mem s (pa + off)) /\
      (forall a, ~ (m <= a < m + PGSIZE) -> mem s' a = mem s a))).
Proof.
  intros pa vpn. subst pa vpn.
  assert (Hfb : 0 <= fbit /\ fbit <> 2 /\ fbit <> 0) by lia.
  destruct Hfb as (Hf0 & Hf2 & Hfz).
  split.
  - intros Href ok. eexists.
    split; [exact (cowalloc_sole fbit ok kend PHYSTOP pt va pte s Hres Href)|].
    unfold PTE_F. change PTE_W with (Z.shiftl 1 2).
    split; [|split].
    + rewrite clear_bit_spec, set_bit_spec by lia.
      destruct (Z.eqb_spec 2 fbit); [lia|]. rewrite orb_true_r. reflexivity.
    + rewrite clear_bit_spec by lia. rewrite Z.eqb_refl. apply andb_false_r.
    + intros n Hn H2 Hnf. rewrite clear_bit_spec, set_bit_spec by lia.
      destruct (Z.eqb_spec n 2); [contradiction|].
      destruct (Z.eqb_spec n fbit); [contradiction|].
      simpl. rewrite orb_false_r, andb_true_r. reflexivity.
  - intros Href. split.
    + intros He ok.
      apply (cowalloc_nomem fbit ok kend PHYSTOP pt va pte s Hres); [lia|exact He].
    + intros m rest Hcons.
      destruct Hfl as [Hnd Hall]. rewrite Hcons in Hnd, Hall, Hna.
      apply Forall_cons in Hall as [(Hm0 & Hmal & Hmlo & Hmhi) _].
      assert (Hmpa : m <> PTE2PA pte).
      { intros ->. apply Hna. apply elem_of_cons. left. reflexivity. }
      pose proof Hres as (_ & _ & Hnn & HV & _ & Hlo & Hhi & _).
      destruct (PTE2PA_aligned pte Hnn) as [Hpal _].
      destruct (aligned_pages_apart m (PTE2PA pte) Hmal Hpal Hmpa) as [Hidx Hapart].
      assert (Hcnt : ref (copied s m (PTE2PA pte) rest) (PTE2PA pte / PGSIZE)
                     = ref s (PTE2PA pte / PGSIZE)).
      { simpl. apply upd_other. intros Hc. apply Hidx. symmetry. exact Hc. }
      do 2 eexists. split.
      { rewrite (cowalloc_shared fbit true kend PHYSTOP pt va pte s m rest)
          by (try assumption; lia).
        cbv zeta. rewrite kfree_shared.
        - simpl. reflexivity.
        - exact Hpal.
        - exact Hlo.
        - exact Hhi.
        - rewrite Hcnt, u32_pred by lia. lia. }
      split; [exact Hm0|]. split; [exact Hmpa|].
      split; [apply new_entry_maps; [lia|exact Hmal]|].
      split; [rewrite new_entry_bits by lia; apply orb_true_r|].
      split.
      { rewrite new_entry_bits, perm_bits by lia.
        destruct (Z.eqb_spec 2 fbit); [lia|]. simpl. rewrite !orb_true_r. reflexivity. }
      split.
      { rewrite new_entry_bits, perm_bits by lia. rewrite Z.eqb_refl.
        destruct (Z.ltb_spec fbit 10); [|lia].
        destruct (Z.eqb_spec fbit 0); [lia|]. rewrite andb_false_r. reflexivity. }
      split.
      { intros n Hn H2 Hnf. rewrite new_entry_bits, perm_bits by lia.
        destruct (Z.ltb_spec n 10); [|lia].
        destruct (Z.eqb_spec n 2); [contradiction|].
        destruct (Z.eqb_spec n fbit); [contradiction|].
        destruct (Z.eqb_spec n 0); [lia|].
        change PTE_V with (Z.shiftl 1 0). rewrite clear_bit_spec by lia.
        destruct (Z.eqb_spec n 0); [lia|].
        simpl. rewrite !andb_true_r, !orb_false_r. reflexivity. }
      simpl.
      split; [reflexivity|].
      split.
      { rewrite upd_same. rewrite upd_other by (intros Hc; apply Hidx; symmetry; exact Hc).
        apply u32_pred. lia. }
      split.
      { rewrite upd_other by exact Hidx. apply upd_same. }
      split.
      { intros j Hj1 Hj2. rewrite !upd_other by assumption. reflexivity. }
      split.
      { intros off Hoff. rewrite memmove_in by lia.
        replace (m + off - m) with off by lia.
        apply memset_out. unfold PGSIZE in *. lia. }
      { intros a Ha. rewrite memmove_out by exact Ha. apply memset_out, Ha. }
Qed.

(** A page at 0x80030000 shared by two address spaces, mapped copy-on-write
    at virtual page 0, with one free page at 0x80040000. *)
Definition cow_demo_pte : Z := Z.lor (PA2PTE 2147680256) 275.
Definition cow_demo_pt : gmap Z Z := {[ 0 := cow_demo_pte ]}.
Definition cow_demo_state : kstate := mkK [2147745792] (fun _ => 2) (fun _ => 7).

Lemma cow_demo_resolvable :
  resolvable 2147618816 2281701376 cow_demo_pt 0 cow_demo_pte.
Proof. unfold resolvable. repeat split; try discriminate; reflexivity. Defined.

Lemma cow_demo_freelist_ok :
  freelist_ok 2147618816 2281701376 (freelist cow_demo_state).
Proof.
  split.
  - apply NoDup_singleton.
  - apply Forall_singleton. repeat split; try discriminate; reflexivity.
Defined.

Lemma cow_demo_allocated : PTE2PA cow_demo_pte ∉ freelist cow_demo_state.
Proof. intros H. apply list_elem_of_singleton in H. discriminate H. Defined.

Lemma cowalloc_spec_witness :
  exists pte' s',
    cowalloc 8 true 2147618816 2281701376 cow_demo_pt 0 cow_demo_state =
      Done (2147745792, <[0 / PGSIZE := pte']> cow_demo_pt, s') /\
    PTE2PA pte' = 2147745792 /\
    ref s' (PTE2PA cow_demo_pte / PGSIZE) = 1 /\
    mem s' 2147745792 = 7.
Proof.
  destruct (cowalloc_spec 8 2147618816 2281701376 cow_demo_pt 0 cow_demo_pte
              cow_demo_state (or_introl eq_refl) cow_demo_resolvable
              cow_demo_freelist_ok cow_demo_allocated) as [_ Hshared].
  destruct Hshared as [_ Hcopy]; [split; reflexivity|].
  destruct (Hcopy 2147745792 [] eq_refl)
    as (pte' & s' & Hrun & _ & _ & Hmap & _ & _ & _ & _ & _ & Hcnt & _ & _ & Hmem & _).
  exists pte', s'. split; [exact Hrun|]. split; [exact Hmap|]. split; [exact Hcnt|].
  specialize (Hmem 0). rewrite Z.add_0_r in Hmem. apply Hmem. split; reflexivity.
Defined.

(** C10.  In the copy path of [cowalloc] (count 2 or more, a page [m]
    allocated and filled), a failing [mappages] makes the call return the
    null pointer with the address space exactly as it was (so the entry is
    valid again), the page [m] back at the head of the free list with count
    0, the count of the shared page not decremented, and the shared page's
    bytes unchanged. *)
Theorem cowalloc_map_failure (fbit kend PHYSTOP : Z) (pt : gmap Z Z) (va pte : Z)
    (s : kstate) (m : Z) (rest : list Z)
    (Hres : resolvable kend PHYSTOP pt va pte)
    (Hfl : freelist_ok kend PHYSTOP (freelist s))
    (Hna : PTE2PA pte ∉ freelist s)
    (Href : 2 <= ref s (PTE2PA pte / PGSIZE) < 2 ^ 32)
    (Hcons : freelist s = m :: rest) :
  let pa := PTE2PA pte in
  exists s',
    cowalloc fbit false kend PHYSTOP pt va s = Done (0, pt, s') /\
    pt !! (va / PGSIZE) = Some pte /\ Z.land pte PTE_V <> 0 /\
    freelist s' = freelist s /\
    ref s' (m / PGSIZE) = 0 /\
    (forall j, j <> m / PGSIZE -> ref s' j = ref s j) /\
    ref s' (pa / PGSIZE) = ref s (pa / PGSIZE) /\
    (forall a, ~ (m <= a < m + PGSIZE) -> mem s' a = mem s a) /\
    (forall a, pa <= a < pa + PGSIZE -> mem s' a = mem s a).
Proof.
  intros pa. subst pa.
  destruct Hfl as [Hnd Hall]. rewrite Hcons in Hnd, Hall, Hna.
  apply Forall_cons in Hall as [(Hm0 & Hmal & Hmlo & Hmhi) _].
  assert (Hmpa : m <> PTE2PA pte).
  { intros ->. apply Hna. apply elem_of_cons. left. reflexivity. }
  pose proof Hres as (_ & Hpt & Hnn & HV & _ & Hlo & Hhi & _).
  destruct (PTE2PA_aligned pte Hnn) as [Hpal _].
  destruct (aligned_pages_apart m (PTE2PA pte) Hmal Hpal Hmpa) as [Hidx Hapart].
  eexists. split.
  { rewrite (cowalloc_shared fbit false kend PHYSTOP pt va pte s m rest)
      by (try assumption; lia).
    cbv zeta. rewrite kfree_last.
    - simpl. reflexivity.
    - exact Hmal.
    - exact Hmlo.
    - exact Hmhi.
    - simpl. rewrite upd_same. reflexivity. }
  split; [exact Hpt|]. split; [exact HV|]. simpl.
  split; [symmetry; exact Hcons|].
  split; [apply upd_same|].
  split; [intros j Hj; rewrite !upd_other by exact Hj; reflexivity|].
  split.
  { rewrite !upd_other by (intros Hc; apply Hidx; symmetry; exact Hc). reflexivity. }
  assert (Hout : forall a, ~ (m <= a < m + PGSIZE) ->
            store64 (memset (memmove (memset (mem s) m 5 PGSIZE) m (PTE2PA pte) PGSIZE)
                       m 1 PGSIZE) m (hd 0 rest) a = mem s a).
  { intros a Ha. unfold PGSIZE in *.
    rewrite store64_out by lia. rewrite memset_out by exact Ha.
    rewrite memmove_out by exact Ha. apply memset_out, Ha. }
  split; [exact Hout|].
  intros a Ha. apply Hout. unfold PGSIZE in *. lia.
Qed.

Lemma cowalloc_map_failure_witness :
  exists s',
    cowalloc 8 false 2147618816 2281701376 cow_demo_pt 0 cow_demo_state =
      Done (0, cow_demo_pt, s') /\
    freelist s' = freelist cow_demo_state /\
    ref s' (PTE2PA cow_demo_pte / PGSIZE) = ref cow_demo_state (PTE2PA cow_demo_pte / PGSIZE).
Proof.
  destruct (cowalloc_map_failure 8 2147618816 2281701376 cow_demo_pt 0 cow_demo_pte
              cow_demo_state 2147745792 [] cow_demo_resolvable cow_demo_freelist_ok
              cow_demo_allocated (conj (Zle_bool_imp_le 2 2 eq_refl) eq_refl) eq_refl)
    as (s' & Hrun & _ & _ & Hfl & _ & _ & Hcnt & _).
  exists s'. split; [exact Hrun|]. split; [exact Hfl|exact Hcnt].
Defined.

(* ===================================================================== *)
(** * Part IV: theorems about kernel/bio.c                                *)
(* ===================================================================== *)

(** ** The two scans *)

Definition has_key (d n : Z) (x : buf) : Prop := dev x = d /\ blockno x = n.

Lemma key_test d n x : (dev x =? d) && (blockno x =? n) = true <-> has_key d n x.
Proof. unfold has_key. rewrite andb_true_iff, !Z.eqb_eq. reflexivity. Qed.

(** [find_cached] misses exactly when no buffer of the list has the key. *)
Lemma find_cached_None bs d n l :
  find_cached bs d n l = None <->
  (forall b x, b ∈ l -> bs !! b = Some x -> ~ has_key d n x).
Proof.
  induction l as [|b l IH]; simpl.
  - split; [|reflexivity]. intros _ b x Hb. inversion Hb.
  - destruct (bs !! b) as [x|] eqn:Hx.
    + destruct ((dev x =? d) && (blockno x =? n)) eqn:Hk.
      * split; [discriminate|]. intros H. exfalso.
        apply (H b x); [left|exact Hx|apply key_test, Hk].
      * rewrite IH. split.
        -- intros H q y Hq Hy. apply elem_of_cons in Hq as [->|Hq]; [|eauto].
           rewrite Hx in Hy. injection Hy as <-. rewrite <- key_test, Hk. discriminate.
        -- intros H q y Hq. apply H. right. exact Hq.
    + rewrite IH. split.
      * intros H q y Hq Hy. apply elem_of_cons in Hq as [->|Hq]; [congruence|eauto].
      * intros H q y Hq. apply H. right. exact Hq.
Qed.

(** [find_cached] hits the first buffer of the list that has the key. *)
Lemma find_cached_Some bs d n l b :
  find_cached bs d n l = Some b <->
  exists k x,
    l !! k = Some b /\ bs !! b = Some x /\ has_key d n x /\
    (forall j q y, (j < k)%nat -> l !! j = Some q -> bs !! q = Some y -> ~ has_key d n y).
Proof.
  revert b. induction l as [|c l IH]; intros b; simpl.
  - split; [discriminate|]. intros (k & x & Hk & _). rewrite lookup_nil in Hk. discriminate.
  - assert (Hskip :
      (forall y, bs !! c = Some y -> ~ has_key d n y) ->
      (find_cached bs d n l = Some b <->
       exists k x, (c :: l) !! k = Some b /\ bs !! b = Some x /\ has_key d n x /\
         (forall j q y, (j < k)%nat -> (c :: l) !! j = Some q -> bs !! q = Some y ->
                        ~ has_key d n y))).
    { intros Hc. rewrite IH. split.
      - intros (k & x & Hk & Hx & Hkey & Hbefore).
        exists (S k), x. split; [exact Hk|]. split; [exact Hx|]. split; [exact Hkey|].
        intros [|j] q y Hj Hq Hy; simpl in Hq.
        + injection Hq as <-. apply (Hc y Hy).
        + apply (Hbefore j q y); [lia|assumption|assumption].
      - intros (k & x & Hk & Hx & Hkey & Hbefore).
        destruct k as [|k]; simpl in Hk.
        + injection Hk as ->. exfalso. apply (Hc x Hx Hkey).
        + exists k, x. split; [exact Hk|]. split; [exact Hx|]. split; [exact Hkey|].
          intros j q y Hj Hq Hy. apply (Hbefore (S j) q y); [lia|exact Hq|exact Hy]. }
    destruct (bs !! c) as [x|] eqn:Hx.
    + destruct ((dev x =? d) && (blockno x =? n)) eqn:Hk.
      * apply key_test in Hk. split.
        -- intros [= <-]. exists 0%nat, x.
           split; [reflexivity|]. split; [exact Hx|]. split; [exact Hk|].
           intros j q y Hj. lia.
        -- intros (k & y & Hlk & Hy & Hkey & Hbefore).
           destruct k as [|k]; simpl in Hlk; [congruence|].
           exfalso. apply (Hbefore 0%nat c x); [lia|reflexivity|exact Hx|exact Hk].
      * apply Hskip. intros y [= <-]. rewrite <- key_test, Hk. discriminate.
    + apply Hskip. intros y Hy. discriminate.
Qed.

(** A buffer of the bucket is free for recycling when its count is zero. *)
Definition no_free (bs : list buf) (l : list nat) : Prop :=
  forall b x, b ∈ l -> bs !! b = Some x -> refcnt x <> 0.

(** [p], at position [k] of [l], is the free buffer with the oldest
    [mticks], the first such in the order of the list. *)
Definition oldest_free (bs : list buf) (l : list nat) (k p : nat) (x : buf) : Prop :=
  l !! k = Some p /\ bs !! p = Some x /\ refcnt x = 0 /\
  (forall j q y, l !! j = Some q -> bs !! q = Some y -> refcnt y = 0 ->
     mticks x <= mticks y /\ ((j < k)%nat -> mticks x < mticks y)).

Lemma scan_free_spec bs l : forall p0 m0,
  match scan_free bs l p0 m0 with
  | (None, m) => p0 = None /\ m = m0 /\ no_free bs l
  | (Some p, m) =>
      (p0 = Some p /\ m = m0 /\
       (forall b x, b ∈ l -> bs !! b = Some x -> refcnt x = 0 -> m0 <= mticks x)) \/
      (exists k x, oldest_free bs l k p x /\ m = mticks x /\
                   (p0 <> None -> mticks x < m0))
  end.
Proof.
  induction l as [|b l IH]; intros p0 m0; simpl.
  - destruct p0 as [p|].
    + left. split; [reflexivity|]. split; [reflexivity|]. intros q x Hq. inversion Hq.
    + split; [reflexivity|]. split; [reflexivity|]. intros q x Hq. inversion Hq.
  - destruct (bs !! b) as [x|] eqn:Hx.
    + destruct ((refcnt x =? 0) && ((mticks x <? m0) || bool_decide (p0 = None))) eqn:Hc.
      * apply andb_true_iff in Hc as [Hr Hm]. apply Z.eqb_eq in Hr.
        assert (Hm' : p0 <> None -> mticks x < m0).
        { intros Hp. apply orb_true_iff in Hm as [Hm|Hm]; [apply Z.ltb_lt, Hm|].
          apply bool_decide_eq_true in Hm. contradiction. }
        specialize (IH (Some b) (mticks x)).
        destruct (scan_free bs l (Some b) (mticks x)) as [[p|] m].
        -- right. destruct IH as [(Hp & -> & Hall)|(k & y & (Hk & Hy & Hry & Hmin) & -> & Hlt)].
           ++ injection Hp as <-. exists 0%nat, x. split; [|split; [reflexivity|exact Hm']].
              split; [reflexivity|]. split; [exact Hx|]. split; [exact Hr|].
              intros [|j] q y Hq Hy Hry; simpl in Hq.
              ** injection Hq as <-. rewrite Hx in Hy. injection Hy as <-. lia.
              ** split; [|lia]. apply (Hall q y); try assumption.
                 apply list_elem_of_lookup. eauto.
           ++ specialize (Hlt ltac:(discriminate)).
              exists (S k), y. split; [|split; [reflexivity|intros Hp; specialize (Hm' Hp); lia]].
              split; [exact Hk|]. split; [exact Hy|]. split; [exact Hry|].
              intros [|j] q z Hq Hz Hrz; simpl in Hq.
              ** injection Hq as <-. rewrite Hx in Hz. injection Hz as <-. lia.
              ** destruct (Hmin j q z Hq Hz Hrz). split; [assumption|]. intros Hj. lia.
        -- destruct IH as [Hn _]. discriminate.
      * assert (Hx' : refcnt x = 0 -> p0 <> None /\ m0 <= mticks x).
        { intros Hr. rewrite Hr, Z.eqb_refl in Hc. simpl in Hc.
          apply orb_false_iff in Hc as [Hc1 Hc2]. apply Z.ltb_ge in Hc1.
          apply bool_decide_eq_false in Hc2. split; assumption. }
        specialize (IH p0 m0).
        destruct (scan_free bs l p0 m0) as [[p|] m].
        -- destruct IH as [(Hp & -> & Hall)|(k & y & (Hk & Hy & Hry & Hmin) & -> & Hlt)].
           ++ left. split; [exact Hp|]. split; [reflexivity|].
              intros q z Hq Hz Hrz. apply elem_of_cons in Hq as [->|Hq]; [|eauto].
              rewrite Hx in Hz. injection Hz as <-. apply Hx', Hrz.
           ++ right. exists (S k), y. split; [|split; [reflexivity|exact Hlt]].
              split; [exact Hk|]. split; [exact Hy|]. split; [exact Hry|].
              intros [|j] q z Hq Hz Hrz; simpl in Hq.
              ** injection Hq as <-. rewrite Hx in Hz. injection Hz as <-.
                 destruct (Hx' Hrz) as [Hp Hge]. specialize (Hlt Hp). lia.
              ** destruct (Hmin j q z Hq Hz Hrz). split; [assumption|]. intros Hj. lia.
        -- destruct IH as (-> & -> & Hnf). split; [reflexivity|]. split; [reflexivity|].
           intros q z Hq Hz. apply elem_of_cons in Hq as [->|Hq]; [|eauto].
           rewrite Hx in Hz. injection Hz as <-. intros Hr.
           destruct (Hx' Hr) as [Hp _]. contradiction.
    + specialize (IH p0 m0).
      destruct (scan_free bs l p0 m0) as [[p|] m].
      * destruct IH as [(Hp & -> & Hall)|(k & y & (Hk & Hy & Hry & Hmin) & -> & Hlt)].
        -- left. split; [exact Hp|]. split; [reflexivity|].
           intros q z Hq Hz Hrz. apply elem_of_cons in Hq as [->|Hq]; [congruence|eauto].
        -- right. exists (S k), y. split; [|split; [reflexivity|exact Hlt]].
           split; [exact Hk|]. split; [exact Hy|]. split; [exact Hry|].
           intros [|j] q z Hq Hz Hrz; simpl in Hq.
           ++ injection Hq as <-. congruence.
           ++ destruct (Hmin j q z Hq Hz Hrz). split; [assumption|]. intros Hj. lia.
      * destruct IH as (-> & -> & Hnf). split; [reflexivity|]. split; [reflexivity|].
        intros q z Hq Hz. apply elem_of_cons in Hq as [->|Hq]; [congruence|eauto].
Qed.

(** From an empty candidate the scan either finds the oldest free buffer
    of the list or reports that there is none. *)
Lemma scan_free_fresh bs l m0 :
  (exists k p x, scan_free bs l None m0 = (Some p, mticks x) /\ oldest_free bs l k p x) \/
  (scan_free bs l None m0 = (None, m0) /\ no_free bs l).
Proof.
  pose proof (scan_free_spec bs l None m0) as H.
  destruct (scan_free bs l None m0) as [[p|] m].
  - left. destruct H as [(Hp & _)|(k & x & Hold & -> & _)]; [discriminate|]. eauto.
  - right. destruct H as (_ & -> & Hnf). split; [reflexivity|exact Hnf].
Qed.

(** ** The walk over the other buckets *)

(** The bucket reached from [i] after [c] rounds of [i = HASH(i + 1)]. *)
Fixpoint walkb (c : nat) (i : Z) : Z :=
  match c with
  | O => i
  | S c' => walkb c' (HASH (i + 1))
  end.

(** The lock traffic of [c] rounds that found nothing, from bucket [i]. *)
Fixpoint scan_events (c : nat) (i : Z) : list event :=
  match c with
  | O => []
  | S c' => Acquire (Lbucket i) :: Release (Lbucket i) :: scan_events c' (HASH (i + 1))
  end.

Lemma walkb_S c i : walkb (S c) i = HASH (walkb c i + 1).
Proof. revert i; induction c as [|c IH]; intros i; [reflexivity|]. simpl in *. apply IH. Qed.

Lemma scan_events_snoc c i :
  scan_events (S c) i =
  scan_events c i ++ [Acquire (Lbucket (walkb c i)); Release (Lbucket (walkb c i))].
Proof.
  revert i; induction c as [|c IH]; intros i; [reflexivity|].
  change (scan_events (S (S c)) i) with
    (Acquire (Lbucket i) :: Release (Lbucket i) :: scan_events (S c) (HASH (i + 1))).
  rewrite IH. reflexivity.
Qed.

(** From the bucket after [bid], twelve rounds visit the twelve other
    buckets and the thirteenth would be [bid] again. *)
Lemma walkb_cycle bid :
  0 <= bid < NBUCKET ->
  walkb 12 (HASH (bid + 1)) = bid /\
  (forall c, (c < 12)%nat -> walkb c (HASH (bid + 1)) <> bid) /\
  (forall j, 0 <= j < NBUCKET -> j <> bid ->
     exists c, (c < 12)%nat /\ walkb c (HASH (bid + 1)) = j) /\
  (forall c, (c < 12)%nat -> 0 <= walkb c (HASH (bid + 1)) < NBUCKET).
Proof.
  unfold NBUCKET. intros Hb.
  assert (Hcases : bid = 0 \/ bid = 1 \/ bid = 2 \/ bid = 3 \/ bid = 4 \/ bid = 5 \/
                   bid = 6 \/ bid = 7 \/ bid = 8 \/ bid = 9 \/ bid = 10 \/ bid = 11 \/
                   bid = 12) by lia.
  assert (Hc12 : forall c : nat, (c < 12)%nat ->
            (c = 0 \/ c = 1 \/ c = 2 \/ c = 3 \/ c = 4 \/ c = 5 \/ c = 6 \/ c = 7 \/
             c = 8 \/ c = 9 \/ c = 10 \/ c = 11)%nat) by (intros; lia).
  split; [|split; [|split]].
  - repeat (destruct Hcases as [->|Hcases]; [reflexivity|]). subst. reflexivity.
  - intros c Hc. apply Hc12 in Hc.
    repeat (destruct Hcases as [->|Hcases];
            [repeat (destruct Hc as [->|Hc]; [discriminate|]); subst; discriminate|]).
    subst. repeat (destruct Hc as [->|Hc]; [discriminate|]); subst; discriminate.
  - intros j Hj Hne.
    assert (Hd : exists k, 1 <= k <= 12 /\ j = (bid + k) mod 13).
    { destruct (Z_lt_le_dec bid j).
      - exists (j - bid). split; [lia|]. rewrite Z.mod_small; lia.
      - exists (j - bid + 13). split; [lia|].
        replace (bid + (j - bid + 13)) with (j + 1 * 13) by lia.
        rewrite Z.mod_add, Z.mod_small; lia. }
    destruct Hd as (k & Hk & ->).
    exists (Z.to_nat (k - 1)). split; [lia|].
    assert (Hk12 : k = 1 \/ k = 2 \/ k = 3 \/ k = 4 \/ k = 5 \/ k = 6 \/ k = 7 \/
                   k = 8 \/ k = 9 \/ k = 10 \/ k = 11 \/ k = 12) by lia.
    repeat (destruct Hcases as [->|Hcases];
            [repeat (destruct Hk12 as [->|Hk12]; [reflexivity|]); subst; reflexivity|]).
    subst. repeat (destruct Hk12 as [->|Hk12]; [reflexivity|]); subst; reflexivity.
  - intros c Hc. apply Hc12 in Hc.
    repeat (destruct Hcases as [->|Hcases];
            [repeat (destruct Hc as [->|Hc]; [split; [discriminate|reflexivity]|]);
             subst; split; [discriminate|reflexivity]|]).
    subst. repeat (destruct Hc as [->|Hc]; [split; [discriminate|reflexivity]|]);
             subst; split; [discriminate|reflexivity].
Qed.

(** The state in which [bget] goes for the sleep-lock after it has taken
    [p] (content [x]) from bucket [src] for the key [(d, n)]: [p]
    re-labelled, out of the list of [src], at the head of the list of
    [bid]. *)
Definition stolen (s : state) (bid src : Z) (p : nat) (x : buf) (d n : Z)
    (evs : list event) : state :=
  let hs1 := <[Z.to_nat src := unlink p (bucket (heads s) src)]> (heads s) in
  mkS (<[p := repurpose x d n]> (bufs s))
      (<[Z.to_nat bid := p :: bucket hs1 bid]> hs1)
      (disk s) (ticks s) (trace s ++ evs).

Lemma steal_unfold fuel pid d n bid i p m s :
  steal (S fuel) pid d n bid i p m s =
    if i =? bid then
      (Panic "bget: no buffers", emit (Release Lblock) (emit (Release (Lbucket bid)) s))
    else
      match scan_free (bufs s) (bucket (heads s) i) p m with
      | (Some p, _) =>
          match bufs s !! p with
          | None => (OutOfBounds, emit (Acquire (Lbucket i)) s)
          | Some x =>
              acquiresleep pid p
                (stolen s bid i p x d n
                   [Acquire (Lbucket i); Unlink p i; Release (Lbucket i); Relink p bid;
                    Release (Lbucket bid); Release Lblock])
          end
      | (None, m') =>
          steal fuel pid d n bid (HASH (i + 1)) None m'
            (emit (Release (Lbucket i)) (emit (Acquire (Lbucket i)) s))
      end.
Proof.
  simpl. destruct (i =? bid); [reflexivity|].
  destruct (scan_free (bufs s) (bucket (heads s) i) p m) as [[q|] m']; [|reflexivity].
  destruct (bufs s !! q) as [x|]; [|reflexivity].
  unfold stolen, emit, set_heads, set_buf. simpl.
  rewrite <- !app_assoc. reflexivity.
Qed.

Lemma steal_spec pid d n bid : forall fuel dist i m0 s,
  walkb dist i = bid ->
  (forall c, (c < dist)%nat -> walkb c i <> bid) ->
  (dist < fuel)%nat ->
  ((forall c, (c < dist)%nat -> no_free (bufs s) (bucket (heads s) (walkb c i))) /\
   steal fuel pid d n bid i None m0 s =
     (Panic "bget: no buffers",
      mkS (bufs s) (heads s) (disk s) (ticks s)
          (trace s ++ scan_events dist i ++ [Release (Lbucket bid); Release Lblock])))
  \/
  (exists c k p x,
     (c < dist)%nat /\
     (forall c', (c' < c)%nat -> no_free (bufs s) (bucket (heads s) (walkb c' i))) /\
     oldest_free (bufs s) (bucket (heads s) (walkb c i)) k p x /\
     steal fuel pid d n bid i None m0 s =
       acquiresleep pid p
         (stolen s bid (walkb c i) p x d n
            (scan_events c i ++
             [Acquire (Lbucket (walkb c i)); Unlink p (walkb c i);
              Release (Lbucket (walkb c i)); Relink p bid;
              Release (Lbucket bid); Release Lblock]))).
Proof.
  induction fuel as [|fuel IH]; intros dist i m0 s Hend Hnot Hfuel; [lia|].
  rewrite steal_unfold.
  destruct dist as [|dist].
  - simpl in Hend. subst i. rewrite Z.eqb_refl. left. split; [intros c Hc; lia|].
    unfold emit. simpl. rewrite <- app_assoc. reflexivity.
  - assert (Hi : i <> bid) by (apply (Hnot 0%nat); lia).
    destruct (Z.eqb_spec i bid) as [|_]; [contradiction|].
    destruct (scan_free_fresh (bufs s) (bucket (heads s) i) m0)
      as [(k & p & x & Hscan & Hold)|[Hscan Hnf]]; rewrite Hscan.
    + right. exists 0%nat, k, p, x.
      split; [lia|]. split; [intros c' Hc'; lia|]. split; [exact Hold|].
      destruct Hold as (_ & Hx & _). rewrite Hx. reflexivity.
    + specialize (IH dist (HASH (i + 1)) m0
                     (emit (Release (Lbucket i)) (emit (Acquire (Lbucket i)) s))).
      destruct IH as [[Hall Hrun]|(c & k & p & x & Hc & Hbefore & Hold & Hrun)].
      * exact Hend.
      * intros c Hc. apply (Hnot (S c)). lia.
      * lia.
      * left. split.
        -- intros [|c] Hc; [exact Hnf|]. apply (Hall c). lia.
        -- rewrite Hrun. unfold emit. simpl. rewrite <- !app_assoc. reflexivity.
      * right. exists (S c), k, p, x.
        split; [lia|]. split; [|split; [exact Hold|]].
        -- intros [|c'] Hc'; [exact Hnf|]. apply (Hbefore c'). lia.
        -- rewrite Hrun. unfold stolen, emit. simpl. rewrite <- !app_assoc. reflexivity.
Qed.

(** ** [bget], case by case *)

(** [s] with buffer [b] replaced by [y] and the events [evs] added. *)
Definition with_buf (s : state) (b : nat) (y : buf) (evs : list event) : state :=
  mkS (<[b := y]> (bufs s)) (heads s) (disk s) (ticks s) (trace s ++ evs).

Definition with_events (s : state) (evs : list event) : state :=
  mkS (bufs s) (heads s) (disk s) (ticks s) (trace s ++ evs).

(** [y'] is [y] except perhaps for the sleep-lock. *)
Definition same_fields (y y' : buf) : Prop :=
  valid y' = valid y /\ dev y' = dev y /\ blockno y' = blockno y /\
  refcnt y' = refcnt y /\ mticks y' = mticks y /\ data y' = data y.

Definition not_cached (bs : list buf) (d n : Z) (l : list nat) : Prop :=
  forall b x, b ∈ l -> bs !! b = Some x -> ~ has_key d n x.

Lemma acquiresleep_eq pid p s y :
  bufs s !! p = Some y ->
  acquiresleep pid p s =
    match lock y with
    | None => (Done (Held p), with_buf s p (set_lock (Some pid) y) [AcquireSleep p])
    | Some _ => (Done (Waiting p), s)
    end.
Proof. intros Hy. unfold acquiresleep. rewrite Hy. destruct (lock y); reflexivity. Qed.

(** [acquiresleep] always comes back with the buffer it was asked for, and
    changes nothing but that buffer's sleep-lock. *)
Lemma acquiresleep_result pid p s y :
  bufs s !! p = Some y ->
  exists g s' y',
    acquiresleep pid p s = (Done g, s') /\ handle g = p /\
    heads s' = heads s /\ disk s' = disk s /\ ticks s' = ticks s /\
    length (bufs s') = length (bufs s) /\
    (forall q, q <> p -> bufs s' !! q = bufs s !! q) /\
    bufs s' !! p = Some y' /\ same_fields y y' /\
    (lock y = None ->
     g = Held p /\ lock y' = Some pid /\ trace s' = trace s ++ [AcquireSleep p]) /\
    (lock y <> None -> g = Waiting p /\ s' = s).
Proof.
  intros Hy. rewrite (acquiresleep_eq pid p s y Hy).
  assert (Hlt : (p < length (bufs s))%nat) by (apply lookup_lt_is_Some; eauto).
  assert (Hsame : forall z, same_fields z z) by (intros z; repeat split).
  destruct (lock y) as [o|] eqn:Hl.
  - exists (Waiting p), s, y.
    split; [reflexivity|]. split; [reflexivity|]. split; [reflexivity|].
    split; [reflexivity|]. split; [reflexivity|]. split; [reflexivity|].
    split; [reflexivity|]. split; [exact Hy|]. split; [apply Hsame|].
    split; [discriminate|]. intros _. split; reflexivity.
  - exists (Held p), (with_buf s p (set_lock (Some pid) y) [AcquireSleep p]),
      (set_lock (Some pid) y).
    split; [reflexivity|]. split; [reflexivity|]. split; [reflexivity|].
    split; [reflexivity|]. split; [reflexivity|].
    split; [apply length_insert|].
    split; [intros q Hq; apply list_lookup_insert_ne; congruence|].
    split; [apply list_lookup_insert_eq; exact Hlt|].
    split; [repeat split|].
    split; [intros _; repeat split|]. intros H. contradiction H. reflexivity.
Qed.

Lemma find_cached_lookup bs d n l b :
  find_cached bs d n l = Some b -> exists x, bs !! b = Some x /\ has_key d n x /\ b ∈ l.
Proof.
  intros H. apply find_cached_Some in H as (k & x & Hk & Hx & Hkey & _).
  exists x. split; [exact Hx|]. split; [exact Hkey|].
  apply list_elem_of_lookup. eauto.
Qed.

(** Two spellings of the same state. *)
Ltac same_state :=
  unfold with_buf, with_events, emit, set_buf, set_heads;
  cbn [bufs heads disk ticks trace];
  rewrite <- ?app_assoc; reflexivity.

Ltac same_call :=
  match goal with
  | |- ?f ?a = ?f ?b =>
      let H := fresh in assert (H : a = b) by same_state; rewrite H; reflexivity
  end.

(** The first look: a hit goes for the sleep-lock, a miss goes on to
    [bget_evict]. *)
Lemma bget_cases pid d n s :
  0 <= HASH (to_int n) ->
  let bid := HASH (to_int n) in
  match find_cached (bufs s) d n (bucket (heads s) bid) with
  | Some b =>
      exists x, bufs s !! b = Some x /\
        bget pid d n s =
          acquiresleep pid b
            (with_buf s b (incref x) [Acquire (Lbucket bid); Release (Lbucket bid)])
  | None =>
      bget pid d n s =
        bget_evict pid d n bid
          (with_events s [Acquire (Lbucket bid); Release (Lbucket bid)])
  end.
Proof.
  intros Hb bid. unfold bget. fold bid.
  destruct (Z.ltb_spec bid 0) as [|_]; [lia|].
  cbn [bufs heads emit].
  destruct (find_cached (bufs s) d n (bucket (heads s) bid)) as [b|] eqn:Hf.
  - destruct (find_cached_lookup _ _ _ _ _ Hf) as (x & Hx & _).
    exists x. split; [exact Hx|]. rewrite Hx. same_call.
  - same_call.
Qed.

(** The part under [bcache.block]: second look, then the bucket's own free
    buffers, then the other buckets. *)
Lemma bget_evict_cases pid d n bid s :
  match find_cached (bufs s) d n (bucket (heads s) bid) with
  | Some b =>
      exists x, bufs s !! b = Some x /\
        bget_evict pid d n bid s =
          acquiresleep pid b
            (with_buf s b (incref x)
               [Acquire Lblock; Acquire (Lbucket bid); Release (Lbucket bid);
                Release Lblock])
  | None =>
      match scan_free (bufs s) (bucket (heads s) bid) None 0 with
      | (Some p, _) =>
          exists x, bufs s !! p = Some x /\
            bget_evict pid d n bid s =
              acquiresleep pid p
                (with_buf s p (repurpose x d n)
                   [Acquire Lblock; Acquire (Lbucket bid); Release (Lbucket bid);
                    Release Lblock])
      | (None, m) =>
          bget_evict pid d n bid s =
            steal (Z.to_nat NBUCKET) pid d n bid (HASH (bid + 1)) None m
              (with_events s [Acquire Lblock; Acquire (Lbucket bid)])
      end
  end.
Proof.
  unfold bget_evict. cbn [bufs heads emit].
  destruct (find_cached (bufs s) d n (bucket (heads s) bid)) as [b|] eqn:Hf.
  - destruct (find_cached_lookup _ _ _ _ _ Hf) as (x & Hx & _).
    exists x. split; [exact Hx|]. rewrite Hx. same_call.
  - destruct (scan_free_fresh (bufs s) (bucket (heads s) bid) 0)
      as [(k & p & x & Hscan & Hold)|[Hscan Hnf]]; rewrite Hscan.
    + destruct Hold as (_ & Hx & _). exists x. split; [exact Hx|]. rewrite Hx.
      same_call.
    + same_call.
Qed.

(** ** Recycling inside the bucket *)

Lemma not_cached_find bs d n l : not_cached bs d n l -> find_cached bs d n l = None.
Proof. intros H. apply find_cached_None. exact H. Qed.

Lemma find_not_cached bs d n l : find_cached bs d n l = None -> not_cached bs d n l.
Proof. intros H. exact (proj1 (find_cached_None bs d n l) H). Qed.

Lemma repurpose_fields x d n :
  refcnt x = 0 ->
  dev (repurpose x d n) = d /\ blockno (repurpose x d n) = n /\
  valid (repurpose x d n) = 0 /\ refcnt (repurpose x d n) = 1 /\
  mticks (repurpose x d n) = mticks x /\ data (repurpose x d n) = data x /\
  lock (repurpose x d n) = lock x.
Proof. intros Hr. unfold repurpose. simpl. rewrite Hr. repeat split. Qed.

(** C3 (as the code has it).  When the key is not in its bucket and the
    bucket has a buffer with count 0, [bget] takes the bucket's free buffer
    with the smallest [mticks] (the first in list order among equals),
    leaves it where it is in the list, gives it the key, [valid = 0] and
    count 1, and touches no other buffer and no list.  The choice is made
    among the free buffers of the target bucket only. *)
Theorem bget_recycles_in_bucket (pid : nat) (d n : Z) (s : state)
    (Hbid : 0 <= HASH (to_int n))
    (Hmiss : not_cached (bufs s) d n (bucket (heads s) (HASH (to_int n))))
    (Hfree : exists b x, b ∈ bucket (heads s) (HASH (to_int n)) /\
                         bufs s !! b = Some x /\ refcnt x = 0) :
  exists k p x g s' y,
    oldest_free (bufs s) (bucket (heads s) (HASH (to_int n))) k p x /\
    bget pid d n s = (Done g, s') /\ handle g = p /\
    heads s' = heads s /\ disk s' = disk s /\
    (forall q, q <> p -> bufs s' !! q = bufs s !! q) /\
    bufs s' !! p = Some y /\
    dev y = d /\ blockno y = n /\ valid y = 0 /\ refcnt y = 1 /\
    mticks y = mticks x /\ data y = data x.
Proof.
  set (bid := HASH (to_int n)) in *.
  pose proof (bget_cases pid d n s Hbid) as Hget. cbv zeta in Hget. fold bid in Hget.
  rewrite (not_cached_find _ _ _ _ Hmiss) in Hget.
  pose proof (bget_evict_cases pid d n bid
                (with_events s [Acquire (Lbucket bid); Release (Lbucket bid)])) as Hev.
  cbn [bufs heads with_events] in Hev.
  rewrite (not_cached_find _ _ _ _ Hmiss) in Hev.
  destruct (scan_free_fresh (bufs s) (bucket (heads s) bid) 0)
    as [(k & p & x & Hscan & Hold)|[Hscan Hnf]].
  - rewrite Hscan in Hev. destruct Hev as (x' & Hx' & Hev).
    pose proof Hold as (Hk & Hx & Hr & Hmin).
    rewrite Hx in Hx'. injection Hx' as <-.
    assert (Hlt : (p < length (bufs s))%nat) by (apply lookup_lt_is_Some; eauto).
    edestruct (acquiresleep_result pid p
                 (with_buf (with_events s [Acquire (Lbucket bid); Release (Lbucket bid)])
                    p (repurpose x d n)
                    [Acquire Lblock; Acquire (Lbucket bid); Release (Lbucket bid);
                     Release Lblock]) (repurpose x d n))
      as (g & s' & y & Hacq & Hh & Hheads & Hdisk & _ & _ & Hother & Hp & Hsame & _).
    { cbn [bufs with_buf with_events]. apply list_lookup_insert_eq. exact Hlt. }
    destruct (repurpose_fields x d n Hr) as (F1 & F2 & F3 & F4 & F5 & F6 & _).
    destruct Hsame as (S1 & S2 & S3 & S4 & S5 & S6).
    exists k, p, x, g, s', y.
    split; [exact Hold|].
    split; [rewrite Hget, Hev; exact Hacq|].
    split; [exact Hh|]. split; [exact Hheads|]. split; [exact Hdisk|].
    split.
    { intros q Hq. rewrite (Hother q Hq). cbn [bufs with_buf with_events].
      apply list_lookup_insert_ne. congruence. }
    split; [exact Hp|].
    repeat split; congruence.
  - exfalso. destruct Hfree as (b & x & Hb & Hx & Hr). exact (Hnf b x Hb Hx Hr).
Qed.

Lemma full_cache_31_missing :
  not_cached (bufs full_cache) 1 31 (bucket (heads full_cache) (HASH (to_int 31))).
Proof.
  assert (H : find_cached (bufs full_cache) 1 31
                (bucket (heads full_cache) (HASH (to_int 31))) = None)
    by (vm_compute; reflexivity).
  exact (proj1 (find_cached_None _ _ _ _) H).
Defined.

Lemma full_cache_31_free :
  exists b x, b ∈ bucket (heads full_cache) (HASH (to_int 31)) /\
              bufs full_cache !! b = Some x /\ refcnt x = 0.
Proof.
  exists 12%nat, (default (zero_buf 0) (bufs full_cache !! 12%nat)).
  split; [|split].
  - apply list_elem_of_In. vm_compute. left. reflexivity.
  - vm_compute. reflexivity.
  - vm_compute. reflexivity.
Defined.

Lemma bget_recycles_in_bucket_witness :
  exists g s', bget 1 1 31 full_cache = (Done g, s') /\ handle g = 12%nat.
Proof.
  destruct (bget_recycles_in_bucket 1 1 31 full_cache
              (Zle_bool_imp_le 0 (HASH (to_int 31)) eq_refl)
              full_cache_31_missing full_cache_31_free)
    as (k & p & x & g & s' & y & Hold & Hrun & Hh & _).
  exists g, s'. split; [exact Hrun|].
  pose proof Hrun as Hc. vm_compute in Hc. injection Hc as Hg _.
  rewrite <- Hg. reflexivity.
Defined.

(** C3 as the specification words it fails: in [full_cache] every buffer
    has count 0 and the [mticks] values are 1, 2, ..., 30 (strictly
    increasing); no buffer holds block 31 of device 1; yet asking for that
    block recycles buffer 12, whose [mticks] is 13, while buffer 0 with the
    smallest [mticks] (1) keeps its block. *)
Lemma bget_not_global_lru :
  forallb (fun x => refcnt x =? 0) (bufs full_cache) = true /\
  map mticks (bufs full_cache) = map Z.of_nat (seq 1 30) /\
  forallb (fun x => negb ((dev x =? 1) && (blockno x =? 31))) (bufs full_cache) = true /\
  fst (bget 1 1 31 full_cache) = Done (Held 12%nat) /\
  mticks <$> bufs full_cache !! 12%nat = Some 13 /\
  mticks <$> bufs full_cache !! 0%nat = Some 1 /\
  blockno <$> bufs (snd (bget 1 1 31 full_cache)) !! 12%nat = Some 31 /\
  bufs (snd (bget 1 1 31 full_cache)) !! 0%nat = bufs full_cache !! 0%nat.
Proof. vm_compute. repeat split. Qed.

(** ** Taking a buffer from another bucket *)

Lemma HASH_range z : 0 <= HASH z -> 0 <= HASH z < NBUCKET.
Proof.
  unfold HASH, NBUCKET. intros H.
  destruct (Z_lt_le_dec z 0) as [Hneg|Hpos].
  - pose proof (Z.rem_nonpos z 13). pose proof (Z.rem_bound_neg_neg z 13). 
    assert (Z.rem z 13 = 0) by lia. lia.
  - pose proof (Z.rem_bound_pos z 13). lia.
Qed.

Lemma bucket_insert_same hs i l :
  0 <= i -> (Z.to_nat i < length hs)%nat -> bucket (<[Z.to_nat i := l]> hs) i = l.
Proof. intros Hi Hlt. unfold bucket. rewrite list_lookup_insert_eq by exact Hlt. reflexivity. Qed.

Lemma bucket_insert_other hs i j l :
  0 <= i -> 0 <= j -> i <> j -> bucket (<[Z.to_nat i := l]> hs) j = bucket hs j.
Proof.
  intros Hi Hj Hne. unfold bucket. rewrite list_lookup_insert_ne by lia. reflexivity.
Qed.

(** The lists after [p] has moved from bucket [src] to the head of bucket
    [bid]. *)
Lemma stolen_heads s bid src p x d n evs :
  length (heads s) = Z.to_nat NBUCKET ->
  0 <= bid < NBUCKET -> 0 <= src < NBUCKET -> src <> bid ->
  let hs' := heads (stolen s bid src p x d n evs) in
  bucket hs' bid = p :: bucket (heads s) bid /\
  bucket hs' src = unlink p (bucket (heads s) src) /\
  (forall j, 0 <= j -> j <> bid -> j <> src -> bucket hs' j = bucket (heads s) j).
Proof.
  intros Hlen Hb Hs Hne. unfold stolen. cbn [heads]. cbv zeta.
  assert (Hl1 : (Z.to_nat src < length (heads s))%nat) by (unfold NBUCKET in *; lia).
  assert (Hl2 : (Z.to_nat bid < length (heads s))%nat) by (unfold NBUCKET in *; lia).
  split; [|split].
  - rewrite bucket_insert_same by (rewrite ?length_insert; lia).
    rewrite bucket_insert_other by lia. reflexivity.
  - rewrite bucket_insert_other by lia. apply bucket_insert_same; lia.
  - intros j Hj H1 H2. rewrite !bucket_insert_other by lia. reflexivity.
Qed.

(** Taking [p] out of a list removes its first occurrence and nothing
    else. *)
Lemma unlink_split p l :
  p ∈ l ->
  exists l1 l2, l = l1 ++ p :: l2 /\ (p ∉ l1) /\ unlink p l = l1 ++ l2 /\
                (NoDup l -> p ∉ (l1 ++ l2)).
Proof.
  induction l as [|q l IH]; intros Hin; [inversion Hin|].
  simpl. destruct (Nat.eqb_spec q p) as [->|Hne].
  - exists [], l. split; [reflexivity|]. split; [intros H; inversion H|].
    split; [reflexivity|]. intros Hnd. apply NoDup_cons in Hnd as [Hp _]. exact Hp.
  - apply elem_of_cons in Hin as [Heq|Hin]; [congruence|].
    destruct (IH Hin) as (l1 & l2 & -> & Hni & Hu & Hnd).
    exists (q :: l1), l2. split; [reflexivity|].
    split; [intros H; apply elem_of_cons in H as [H|H]; [congruence|contradiction]|].
    split; [rewrite Hu; reflexivity|].
    intros Hq. apply NoDup_cons in Hq as [_ Hq]. simpl.
    intros H. apply elem_of_cons in H as [H|H]; [congruence|]. exact (Hnd Hq H).
Qed.

(** C4 (as the code has it).  When the key is not in its bucket and the
    bucket has no buffer with count 0:
    - if some other bucket has one, [bget] goes through the other buckets
      in the order [bid + 1, bid + 2, ...] (modulo 13), stops at the first
      one, [src], that holds a free buffer, takes from it the free buffer
      with the smallest [mticks] of that bucket (first in list order among
      equals; the buckets gone through before hold no free buffer, and the
      buckets after [src] are not looked at), takes it out of the list of
      [src] (the new list is the old one without its first occurrence of
      the buffer; when the old list held no buffer twice the buffer is on
      it no more), puts it at the head of the list of [bid], and gives it
      the key, [valid = 0] and count 1, leaving every other buffer and list
      alone;
    - if no bucket has one, [bget] panics with "bget: no buffers", the
      buffers and lists unchanged. *)
Theorem bget_steals (pid : nat) (d n : Z) (s : state)
    (Hlen : length (heads s) = Z.to_nat NBUCKET)
    (Hbid : 0 <= HASH (to_int n))
    (Hmiss : not_cached (bufs s) d n (bucket (heads s) (HASH (to_int n))))
    (Hnofree : no_free (bufs s) (bucket (heads s) (HASH (to_int n)))) :
  let bid := HASH (to_int n) in
  let nth_other c := walkb c (HASH (bid + 1)) in
  ((exists j b x, 0 <= j < NBUCKET /\ j <> bid /\ b ∈ bucket (heads s) j /\
                  bufs s !! b = Some x /\ refcnt x = 0) ->
   exists c k p x g s' y,
     (c < 12)%nat /\ nth_other c <> bid /\ 0 <= nth_other c < NBUCKET /\
     (forall c', (c' < c)%nat -> no_free (bufs s) (bucket (heads s) (nth_other c'))) /\
     oldest_free (bufs s) (bucket (heads s) (nth_other c)) k p x /\
     (forall c' q z, (c' <= c)%nat -> q ∈ bucket (heads s) (nth_other c') ->
        bufs s !! q = Some z -> refcnt z = 0 -> mticks x <= mticks z) /\
     bget pid d n s = (Done g, s') /\ handle g = p /\
     bucket (heads s') bid = p :: bucket (heads s) bid /\
     (exists l1 l2,
        bucket (heads s) (nth_other c) = l1 ++ p :: l2 /\ (p ∉ l1) /\
        bucket (heads s') (nth_other c) = l1 ++ l2 /\
        (NoDup (bucket (heads s) (nth_other c)) ->
         p ∉ bucket (heads s') (nth_other c))) /\
     (forall j, 0 <= j -> j <> bid -> j <> nth_other c ->
        bucket (heads s') j = bucket (heads s) j) /\
     disk s' = disk s /\
     (forall q, q <> p -> bufs s' !! q = bufs s !! q) /\
     bufs s' !! p = Some y /\
     dev y = d /\ blockno y = n /\ valid y = 0 /\ refcnt y = 1 /\
     mticks y = mticks x /\ data y = data x) /\
  ((forall j, 0 <= j < NBUCKET -> no_free (bufs s) (bucket (heads s) j)) ->
   exists s',
     bget pid d n s = (Panic "bget: no buffers", s') /\
     bufs s' = bufs s /\ heads s' = heads s /\ disk s' = disk s).
Proof.
  intros bid nth_other.
  pose proof (HASH_range _ Hbid) as Hrange. fold bid in Hrange, Hmiss, Hnofree, Hbid.
  pose proof (bget_cases pid d n s Hbid) as Hget. cbv zeta in Hget. fold bid in Hget.
  rewrite (not_cached_find _ _ _ _ Hmiss) in Hget.
  set (s1 := with_events s [Acquire (Lbucket bid); Release (Lbucket bid)]) in *.
  pose proof (bget_evict_cases pid d n bid s1) as Hev.
  cbn [bufs heads with_events s1] in Hev.
  rewrite (not_cached_find _ _ _ _ Hmiss) in Hev.
  destruct (scan_free_fresh (bufs s) (bucket (heads s) bid) 0)
    as [(k & p & x & Hscan & Hold)|[Hscan _]].
  { exfalso. destruct Hold as (Hk & Hx & Hr & _).
    apply (Hnofree p x); [apply list_elem_of_lookup; eauto|exact Hx|exact Hr]. }
  rewrite Hscan in Hev.
  destruct (walkb_cycle bid Hrange) as (Hend & Hnot & Hreach & Hin).
  set (s2 := with_events s1 [Acquire Lblock; Acquire (Lbucket bid)]) in *.
  destruct (steal_spec pid d n bid (Z.to_nat NBUCKET) 12 (HASH (bid + 1)) 0 s2
              Hend Hnot ltac:(unfold NBUCKET; lia))
    as [[Hall Hrun]|(c & k & p & x & Hc & Hbefore & Hold & Hrun)];
    cbn [bufs heads with_events s2 s1] in *.
  - split.
    + intros (j & b & x & Hj & Hne & Hb & Hx & Hr). exfalso.
      destruct (Hreach j Hj Hne) as (c & Hc & <-).
      exact (Hall c Hc b x Hb Hx Hr).
    + intros _. eexists. split; [rewrite Hget, Hev, Hrun; reflexivity|].
      split; [reflexivity|]. split; reflexivity.
  - split.
    + intros _.
      pose proof Hold as (Hk & Hx & Hr & Hmin).
      assert (Hlt : (p < length (bufs s))%nat) by (apply lookup_lt_is_Some; eauto).
      set (st := stolen s2 bid (walkb c (HASH (bid + 1))) p x d n
                   (scan_events c (HASH (bid + 1)) ++
                    [Acquire (Lbucket (walkb c (HASH (bid + 1))));
                     Unlink p (walkb c (HASH (bid + 1)));
                     Release (Lbucket (walkb c (HASH (bid + 1))));
                     Relink p bid;
                     Release (Lbucket bid); Release Lblock])) in *.
      destruct (acquiresleep_result pid p st (repurpose x d n))
        as (g & s' & y & Hacq & Hh & Hheads & Hdisk & _ & _ & Hother & Hp & Hsame & _).
      { unfold st, stolen. cbn [bufs with_events s2 s1].
        apply list_lookup_insert_eq. exact Hlt. }
      destruct (repurpose_fields x d n Hr) as (F1 & F2 & F3 & F4 & F5 & F6 & _).
      destruct Hsame as (S1 & S2 & S3 & S4 & S5 & S6).
      destruct (stolen_heads s2 bid (walkb c (HASH (bid + 1))) p x d n
                  (scan_events c (HASH (bid + 1)) ++
                    [Acquire (Lbucket (walkb c (HASH (bid + 1))));
                     Unlink p (walkb c (HASH (bid + 1)));
                     Release (Lbucket (walkb c (HASH (bid + 1))));
                     Relink p bid;
                     Release (Lbucket bid); Release Lblock]))
        as (Hb1 & Hb2 & Hb3);
        [exact Hlen|exact Hrange|apply Hin; exact Hc|apply Hnot; exact Hc|].
      fold st in Hb1, Hb2, Hb3. cbn [heads with_events s2 s1] in Hb1, Hb2, Hb3.
      exists c, k, p, x, g, s', y. unfold nth_other.
      split; [exact Hc|]. split; [apply Hnot; exact Hc|]. split; [apply Hin; exact Hc|].
      split; [exact Hbefore|]. split; [exact Hold|].
      split.
      { intros c' q z Hc' Hq Hz Hrz.
        destruct (Nat.eq_dec c' c) as [->|Hne].
        - apply list_elem_of_lookup in Hq as [j Hj].
          apply (Hmin j q z Hj Hz Hrz).
        - exfalso. apply (Hbefore c' ltac:(lia) q z Hq Hz Hrz). }
      split; [rewrite Hget, Hev, Hrun; exact Hacq|].
      split; [exact Hh|].
      rewrite Hheads.
      split; [exact Hb1|].
      split.
      { destruct (unlink_split p (bucket (heads s) (walkb c (HASH (bid + 1)))))
          as (l1 & l2 & Hl & Hni & Hu & Hnd); [apply list_elem_of_lookup; eauto|].
        exists l1, l2. split; [exact Hl|]. split; [exact Hni|].
        split; [rewrite Hb2; exact Hu|]. rewrite Hb2, Hu. exact Hnd. }
      split; [exact Hb3|].
      split; [rewrite Hdisk; reflexivity|].
      split.
      { intros q Hq. rewrite (Hother q Hq). unfold st, stolen.
        cbn [bufs with_events s2 s1]. apply list_lookup_insert_ne. congruence. }
      split; [exact Hp|].
      repeat split; congruence.
    + intros Hnone. exfalso.
      destruct Hold as (Hk & Hx & Hr & _).
      apply (Hnone (walkb c (HASH (bid + 1))) (Hin c Hc) p x);
        [apply list_elem_of_lookup; eauto|exact Hx|exact Hr].
Qed.

Lemma fresh_cache_lists : length (heads fresh_cache) = Z.to_nat NBUCKET.
Proof. reflexivity. Defined.

Lemma fresh_cache_1_missing :
  not_cached (bufs fresh_cache) 1 1 (bucket (heads fresh_cache) (HASH (to_int 1))).
Proof. intros b x Hb. vm_compute in Hb. inversion Hb. Defined.

Lemma fresh_cache_1_nofree :
  no_free (bufs fresh_cache) (bucket (heads fresh_cache) (HASH (to_int 1))).
Proof. intros b x Hb. vm_compute in Hb. inversion Hb. Defined.

Lemma fresh_cache_0_free :
  exists j b x, 0 <= j < NBUCKET /\ j <> HASH (to_int 1) /\
                b ∈ bucket (heads fresh_cache) j /\
                bufs fresh_cache !! b = Some x /\ refcnt x = 0.
Proof.
  exists 0, 29%nat, (zero_buf 1024).
  split; [split; [apply Z.le_refl|reflexivity]|].
  split; [discriminate|].
  split; [apply list_elem_of_In; vm_compute; left; reflexivity|].
  split; reflexivity.
Defined.

Lemma fresh_cache_NoDup i : NoDup (bucket (heads fresh_cache) i).
Proof.
  assert (H : Forall NoDup (heads fresh_cache))
    by (apply (bool_decide_unpack _); vm_compute; exact I).
  unfold bucket. destruct (heads fresh_cache !! Z.to_nat i) as [l|] eqn:Hl.
  - exact (Forall_lookup_1 _ _ _ _ H Hl).
  - constructor.
Defined.

Lemma bget_steals_witness :
  exists c p g s' l1 l2,
    bget 1 1 1 fresh_cache = (Done g, s') /\ handle g = p /\
    bucket (heads s') (HASH (to_int 1)) = p :: bucket (heads fresh_cache) (HASH (to_int 1)) /\
    bucket (heads fresh_cache) (walkb c (HASH (HASH (to_int 1) + 1))) = l1 ++ p :: l2 /\
    (p ∉ l1) /\
    bucket (heads s') (walkb c (HASH (HASH (to_int 1) + 1))) = l1 ++ l2 /\
    (p ∉ bucket (heads s') (walkb c (HASH (HASH (to_int 1) + 1)))).
Proof.
  destruct (bget_steals 1 1 1 fresh_cache fresh_cache_lists
              (Zle_bool_imp_le 0 (HASH (to_int 1)) eq_refl)
              fresh_cache_1_missing fresh_cache_1_nofree) as [Hsteal _].
  destruct (Hsteal fresh_cache_0_free)
    as (c & k & p & x & g & s' & y & _ & _ & _ & _ & _ & _ & Hrun & Hh & Hb1 &
        (l1 & l2 & Hl & Hni & Hb2 & Hgone) & _).
  exists c, p, g, s', l1, l2.
  split; [exact Hrun|]. split; [exact Hh|]. split; [exact Hb1|].
  split; [exact Hl|]. split; [exact Hni|]. split; [exact Hb2|].
  apply Hgone. apply fresh_cache_NoDup.
Defined.

(** C4 as the specification words it fails: the free buffer [bget] takes
    is not the oldest of the free buffers of the other buckets.  With bucket
    5 empty, the free buffer 27 ([mticks] 3) alone in bucket 6 and the free
    buffer 28 ([mticks] 1) alone in bucket 7, a call for block 5 stops at
    bucket 6 and takes buffer 27; buffer 28, which is older, is left where
    it is. *)
Lemma bget_steals_not_oldest :
  bucket (heads staggered_cache) 5 = [] /\
  bucket (heads staggered_cache) 6 = [27%nat] /\
  bucket (heads staggered_cache) 7 = [28%nat] /\
  bufs staggered_cache !! 27%nat = Some (mkBuf 1 1 6 None 0 3 (replicate 1024 x00)) /\
  bufs staggered_cache !! 28%nat = Some (mkBuf 1 1 7 None 0 1 (replicate 1024 x00)) /\
  fst (bget 2 1 5 staggered_cache) = Done (Held 27) /\
  bufs (snd (bget 2 1 5 staggered_cache)) !! 27%nat =
    Some (mkBuf 0 1 5 (Some 2%nat) 1 3 (replicate 1024 x00)) /\
  bufs (snd (bget 2 1 5 staggered_cache)) !! 28%nat =
    Some (mkBuf 1 1 7 None 0 1 (replicate 1024 x00)) /\
  bucket (heads (snd (bget 2 1 5 staggered_cache))) 5 = [27%nat] /\
  bucket (heads (snd (bget 2 1 5 staggered_cache))) 6 = [] /\
  bucket (heads (snd (bget 2 1 5 staggered_cache))) 7 = [28%nat].
Proof. vm_compute. repeat split. Qed.

(** ** All the ways [bget] can go *)

Definition evict_head (bid : Z) : list event := [Acquire Lblock; Acquire (Lbucket bid)].
Definition evict_tail (bid : Z) : list event := [Release (Lbucket bid); Release Lblock].
Definition first_look (bid : Z) : list event :=
  [Acquire (Lbucket bid); Release (Lbucket bid)].

(** Buffer [p] moved from bucket [src] to bucket [bid] (lines 151-171). *)
Definition migration (bid src : Z) (p : nat) : list event :=
  [Acquire (Lbucket src); Unlink p src; Release (Lbucket src); Relink p bid].

Lemma bget_evict_outcomes pid d n bid s :
  0 <= bid < NBUCKET ->
  let l := bucket (heads s) bid in
  let i0 := HASH (bid + 1) in
  (exists b x,
     find_cached (bufs s) d n l = Some b /\ bufs s !! b = Some x /\
     bget_evict pid d n bid s =
       acquiresleep pid b (with_buf s b (incref x) (evict_head bid ++ evict_tail bid)))
  \/
  (not_cached (bufs s) d n l /\
   exists k p x,
     oldest_free (bufs s) l k p x /\
     bget_evict pid d n bid s =
       acquiresleep pid p
         (with_buf s p (repurpose x d n) (evict_head bid ++ evict_tail bid)))
  \/
  (not_cached (bufs s) d n l /\ no_free (bufs s) l /\
   exists c k p x,
     (c < 12)%nat /\
     (forall c', (c' < c)%nat -> no_free (bufs s) (bucket (heads s) (walkb c' i0))) /\
     oldest_free (bufs s) (bucket (heads s) (walkb c i0)) k p x /\
     bget_evict pid d n bid s =
       acquiresleep pid p
         (stolen s bid (walkb c i0) p x d n
            (evict_head bid ++ scan_events c i0 ++
             migration bid (walkb c i0) p ++
             evict_tail bid)))
  \/
  (not_cached (bufs s) d n l /\ no_free (bufs s) l /\
   (forall c, (c < 12)%nat -> no_free (bufs s) (bucket (heads s) (walkb c i0))) /\
   bget_evict pid d n bid s =
     (Panic "bget: no buffers",
      with_events s (evict_head bid ++ scan_events 12 i0 ++ evict_tail bid))).
Proof.
  intros Hrange l i0. subst l i0.
  pose proof (bget_evict_cases pid d n bid s) as Hev.
  destruct (find_cached (bufs s) d n (bucket (heads s) bid)) as [b|] eqn:Hf.
  { left. destruct Hev as (x & Hx & Hev). exists b, x.
    split; [reflexivity|]. split; [exact Hx|]. exact Hev. }
  apply find_not_cached in Hf. right.
  destruct (scan_free_fresh (bufs s) (bucket (heads s) bid) 0)
    as [(k & p & x & Hscan & Hold)|[Hscan Hnf]]; rewrite Hscan in Hev.
  { left. split; [exact Hf|]. exists k, p, x. split; [exact Hold|].
    destruct Hev as (x' & Hx' & Hev). destruct Hold as (_ & Hx & _).
    rewrite Hx in Hx'. injection Hx' as <-. exact Hev. }
  right.
  destruct (walkb_cycle bid Hrange) as (Hend & Hnot & Hreach & Hin).
  destruct (steal_spec pid d n bid (Z.to_nat NBUCKET) 12 (HASH (bid + 1)) 0
              (with_events s [Acquire Lblock; Acquire (Lbucket bid)])
              Hend Hnot ltac:(unfold NBUCKET; lia))
    as [[Hall Hrun]|(c & k & p & x & Hc & Hbefore & Hold & Hrun)];
    cbn [bufs heads with_events] in *.
  - right. split; [exact Hf|]. split; [exact Hnf|]. split; [exact Hall|].
    rewrite Hev, Hrun. unfold with_events, evict_head, evict_tail.
    cbn [bufs heads disk ticks trace]. rewrite <- !app_assoc. reflexivity.
  - left. split; [exact Hf|]. split; [exact Hnf|]. exists c, k, p, x.
    split; [exact Hc|]. split; [exact Hbefore|]. split; [exact Hold|].
    rewrite Hev, Hrun.
    match goal with
    | |- acquiresleep _ _ ?a = acquiresleep _ _ ?b => assert (Hs : a = b)
    end.
    { unfold stolen, with_events, evict_head, evict_tail.
      cbn [bufs heads disk ticks trace]. rewrite <- !app_assoc. reflexivity. }
    rewrite Hs. reflexivity.
Qed.

Lemma bget_out_of_bounds pid d n s :
  HASH (to_int n) < 0 -> bget pid d n s = (OutOfBounds, s).
Proof.
  intros H. unfold bget. destruct (Z.ltb_spec (HASH (to_int n)) 0); [reflexivity|lia].
Qed.

Lemma bget_outcomes pid d n s :
  0 <= HASH (to_int n) ->
  let bid := HASH (to_int n) in
  let l := bucket (heads s) bid in
  let i0 := HASH (bid + 1) in
  (exists b x,
     find_cached (bufs s) d n l = Some b /\ bufs s !! b = Some x /\
     bget pid d n s = acquiresleep pid b (with_buf s b (incref x) (first_look bid)))
  \/
  (not_cached (bufs s) d n l /\
   exists k p x,
     oldest_free (bufs s) l k p x /\
     bget pid d n s =
       acquiresleep pid p
         (with_buf s p (repurpose x d n)
            (first_look bid ++ evict_head bid ++ evict_tail bid)))
  \/
  (not_cached (bufs s) d n l /\ no_free (bufs s) l /\
   exists c k p x,
     (c < 12)%nat /\
     (forall c', (c' < c)%nat -> no_free (bufs s) (bucket (heads s) (walkb c' i0))) /\
     oldest_free (bufs s) (bucket (heads s) (walkb c i0)) k p x /\
     bget pid d n s =
       acquiresleep pid p
         (stolen s bid (walkb c i0) p x d n
            (first_look bid ++ evict_head bid ++ scan_events c i0 ++
             migration bid (walkb c i0) p ++
             evict_tail bid)))
  \/
  (not_cached (bufs s) d n l /\ no_free (bufs s) l /\
   (forall c, (c < 12)%nat -> no_free (bufs s) (bucket (heads s) (walkb c i0))) /\
   bget pid d n s =
     (Panic "bget: no buffers",
      with_events s
        (first_look bid ++ evict_head bid ++ scan_events 12 i0 ++ evict_tail bid))).
Proof.
  intros Hbid bid l i0. subst l i0.
  pose proof (HASH_range _ Hbid) as Hrange. fold bid in Hrange.
  pose proof (bget_cases pid d n s Hbid) as Hget. cbv zeta in Hget. fold bid in Hget.
  destruct (find_cached (bufs s) d n (bucket (heads s) bid)) as [b|] eqn:Hf.
  { left. destruct Hget as (x & Hx & Hget). exists b, x.
    split; [reflexivity|]. split; [exact Hx|exact Hget]. }
  right.
  destruct (bget_evict_outcomes pid d n bid (with_events s (first_look bid)) Hrange)
    as [(b & x & Hf' & _)|[(Hnc & k & p & x & Hold & Hrun)|
        [(Hnc & Hnf & c & k & p & x & Hc & Hbefore & Hold & Hrun)|
         (Hnc & Hnf & Hall & Hrun)]]];
    cbn [bufs heads with_events] in *.
  - congruence.
  - left. split; [exact Hnc|]. exists k, p, x. split; [exact Hold|].
    unfold first_look in *. rewrite Hget, Hrun.
    match goal with
    | |- acquiresleep _ _ ?a = acquiresleep _ _ ?b => assert (Hs : a = b) by same_state
    end.
    rewrite Hs. reflexivity.
  - right. left. split; [exact Hnc|]. split; [exact Hnf|]. exists c, k, p, x.
    split; [exact Hc|]. split; [exact Hbefore|]. split; [exact Hold|].
    unfold first_look in *. rewrite Hget, Hrun.
    match goal with
    | |- acquiresleep _ _ ?a = acquiresleep _ _ ?b => assert (Hs : a = b)
    end.
    { unfold stolen, with_events. cbn [bufs heads disk ticks trace].
      rewrite <- !app_assoc. reflexivity. }
    rewrite Hs. reflexivity.
  - right. right. split; [exact Hnc|]. split; [exact Hnf|]. split; [exact Hall|].
    unfold first_look in *. rewrite Hget, Hrun.
    unfold with_events. cbn [bufs heads disk ticks trace].
    rewrite <- !app_assoc. reflexivity.
Qed.

(** ** Buffers in use are left alone *)




Lemma pinned_cache_29 :
  bufs pinned_cache !! 29%nat =
    Some (mkBuf 1 1 1 None 1 0 (replicate 1024 x00)).
Proof. vm_compute. reflexivity. Defined.



(** ** The order of the spin-locks *)

(** A stretch of events that keeps to the code's discipline, takes the
    held locks from [h] to [h'], and never has more than two bucket locks
    held. *)
Definition stretch (bid : Z) (h : list spinlock) (evs : list event) (h' : list spinlock)
  : Prop :=
  obeys (target_then_other bid) h evs = true /\
  held_after h evs = h' /\
  (max_bucket_locks h evs <= 2)%nat.

Lemma max_bucket_locks_ge h evs :
  (length (filter (fun l => is_bucket_lock l = true) h) <= max_bucket_locks h evs)%nat.
Proof. destruct evs; simpl; lia. Qed.

Lemma stretch_app bid h e1 h1 e2 h2 :
  stretch bid h e1 h1 -> stretch bid h1 e2 h2 -> stretch bid h (e1 ++ e2) h2.
Proof.
  revert h. induction e1 as [|e e1 IH]; intros h (O1 & H1 & M1) S2.
  - simpl in H1. subst h1. exact S2.
  - simpl in O1, H1, M1. apply andb_true_iff in O1 as [Oe O1].
    destruct (IH (step_held h e)) as (O & H & M).
    + split; [exact O1|]. split; [exact H1|]. lia.
    + exact S2.
    + split; [|split].
      * simpl. rewrite Oe. exact O.
      * exact H.
      * simpl. lia.
Qed.

Ltac lock_steps :=
  unfold stretch, held_after;
  repeat (simpl;
          first [ rewrite Z.eqb_refl
                | match goal with
                  | H : ?i <> ?b |- context [?i =? ?b] =>
                      rewrite (proj2 (Z.eqb_neq i b) H)
                  end ]);
  simpl; (split; [reflexivity|]); (split; [reflexivity|]); lia.

Lemma stretch_first_look bid : stretch bid [] (first_look bid) [].
Proof. unfold first_look. lock_steps. Qed.

Lemma stretch_evict_head bid : stretch bid [] (evict_head bid) [Lbucket bid; Lblock].
Proof. unfold evict_head. lock_steps. Qed.

Lemma stretch_evict_tail bid : stretch bid [Lbucket bid; Lblock] (evict_tail bid) [].
Proof. unfold evict_tail. lock_steps. Qed.

Lemma stretch_other bid i :
  i <> bid ->
  stretch bid [Lbucket bid; Lblock] [Acquire (Lbucket i); Release (Lbucket i)]
          [Lbucket bid; Lblock].
Proof. intros Hi. lock_steps. Qed.

Lemma stretch_migration bid src p :
  src <> bid ->
  stretch bid [Lbucket bid; Lblock] (migration bid src p) [Lbucket bid; Lblock].
Proof. intros Hi. unfold migration. lock_steps. Qed.

Lemma stretch_nil bid h : (length h <= 2)%nat -> stretch bid h [] h.
Proof.
  intros Hh. unfold stretch, held_after. simpl.
  split; [reflexivity|]. split; [reflexivity|].
  pose proof (length_filter (fun l => is_bucket_lock l = true) h) as Hf. lia.
Qed.

Lemma stretch_scan bid : forall c i,
  (forall c', (c' < c)%nat -> walkb c' i <> bid) ->
  stretch bid [Lbucket bid; Lblock] (scan_events c i) [Lbucket bid; Lblock].
Proof.
  induction c as [|c IH]; intros i Hnot.
  - apply stretch_nil. simpl. lia.
  - change (scan_events (S c) i) with
      ([Acquire (Lbucket i); Release (Lbucket i)] ++ scan_events c (HASH (i + 1))).
    eapply stretch_app.
    + apply stretch_other. apply (Hnot 0%nat). lia.
    + apply IH. intros c' Hc'. apply (Hnot (S c')). lia.
Qed.

Lemma stretch_sleep bid tl :
  tl = [] \/ (exists p, tl = [AcquireSleep p]) -> stretch bid [] tl [].
Proof. intros [-> | [p ->]]; lock_steps. Qed.

Lemma acquiresleep_trace pid p st y :
  bufs st !! p = Some y ->
  exists tl,
    trace (snd (acquiresleep pid p st)) = trace st ++ tl /\
    (tl = [] \/ tl = [AcquireSleep p]).
Proof.
  intros Hy. rewrite (acquiresleep_eq pid p st y Hy).
  destruct (lock y).
  - exists []. split; [symmetry; apply app_nil_r|left; reflexivity].
  - exists [AcquireSleep p]. split; [reflexivity|right; reflexivity].
Qed.

Lemma oldest_free_set bs l k p z y :
  oldest_free bs l k p z -> <[p := y]> bs !! p = Some y.
Proof.
  intros (_ & Hz & _). apply list_lookup_insert_eq, lookup_lt_is_Some. eauto.
Qed.

(** The discipline is not kept by a trace that takes another bucket's
    lock without the target's, that lets go of the target's lock while it
    still has another bucket's, or that puts the buffer on the target's list
    before it has released the lock of the bucket it took it from. *)
Lemma target_then_other_rejects :
  obeys (target_then_other 1) []
    [Acquire Lblock; Acquire (Lbucket 5); Release (Lbucket 5); Release Lblock] = false /\
  obeys (target_then_other 1) []
    [Acquire Lblock; Acquire (Lbucket 1); Acquire (Lbucket 5); Release (Lbucket 1);
     Release (Lbucket 5); Release Lblock] = false /\
  obeys (target_then_other 1) []
    [Acquire Lblock; Acquire (Lbucket 1); Acquire (Lbucket 0); Unlink 29 0; Relink 29 1;
     Release (Lbucket 0); Release (Lbucket 1); Release Lblock] = false.
Proof. repeat split. Qed.

(** The events of one call of [bget] for target bucket [bid]: the first
    look at the bucket under its lock; then either nothing more, or the miss
    path: [bcache.block], then the lock of [bid]; [c] other buckets, from
    the one after [bid] on, each locked, searched and unlocked in turn;
    perhaps the moving of a buffer [p] out of the next one; and then the
    release of the lock of [bid] and of [bcache.block], in that order.  At
    the very end the call may take a sleep-lock. *)
Definition lock_shape (bid : Z) (evs : list event) : Prop :=
  let i0 := HASH (bid + 1) in
  exists sleep,
    (sleep = [] \/ exists p, sleep = [AcquireSleep p]) /\
    (evs = first_look bid ++ sleep \/
     exists c mig,
       (c <= 12)%nat /\
       (forall c', (c' < c)%nat -> walkb c' i0 <> bid) /\
       (mig = [] \/
        exists p, (c < 12)%nat /\ walkb c i0 <> bid /\
                  mig = migration bid (walkb c i0) p) /\
       evs = first_look bid ++ evict_head bid ++ scan_events c i0 ++ mig ++
             evict_tail bid ++ sleep).

(** Events of that shape keep to the discipline. *)
Lemma lock_shape_stretch bid evs : lock_shape bid evs -> stretch bid [] evs [].
Proof.
  intros (sleep & Hsleep & [-> | (c & mig & Hc & Hnot & Hmig & ->)]).
  - eapply stretch_app; [apply stretch_first_look|apply stretch_sleep, Hsleep].
  - eapply stretch_app; [apply stretch_first_look|].
    eapply stretch_app; [apply stretch_evict_head|].
    eapply stretch_app; [apply stretch_scan, Hnot|].
    eapply stretch_app.
    + destruct Hmig as [-> | (p & _ & Hne & ->)].
      * apply stretch_nil. simpl. lia.
      * apply stretch_migration, Hne.
    + eapply stretch_app; [apply stretch_evict_tail|apply stretch_sleep, Hsleep].
Qed.

Lemma bget_events pid d n s :
  0 <= HASH (to_int n) ->
  exists evs,
    trace (snd (bget pid d n s)) = trace s ++ evs /\ lock_shape (HASH (to_int n)) evs.
Proof.
  intros Hbid. set (bid := HASH (to_int n)).
  pose proof (HASH_range _ Hbid) as Hrange. fold bid in Hrange.
  destruct (walkb_cycle bid Hrange) as (Hend & Hnot & Hreach & Hin).
  assert (Hfin : forall p st y E,
            bufs st !! p = Some y -> trace st = trace s ++ E ->
            exists tl, trace (snd (acquiresleep pid p st)) = trace s ++ E ++ tl /\
                       (tl = [] \/ exists q, tl = [AcquireSleep q])).
  { intros p st y E Hy Htr.
    destruct (acquiresleep_trace pid p st y Hy) as (tl & Htl & Hcase).
    exists tl. split; [rewrite Htl, Htr, app_assoc; reflexivity|].
    destruct Hcase as [-> | ->]; [left; reflexivity|right; exists p; reflexivity]. }
  destruct (bget_outcomes pid d n s Hbid)
    as [(p & z & Hf & Hz & Hrun)|[(Hnc & k & p & z & Hold & Hrun)|
        [(Hnc & Hnf & c & k & p & z & Hc & Hbefore & Hold & Hrun)|
         (Hnc & Hnf & Hall & Hrun)]]]; rewrite Hrun; fold bid.
  - destruct (Hfin p (with_buf s p (incref z) (first_look bid)) (incref z)
                (first_look bid)) as (tl & Htr & Htl).
    + cbn [bufs with_buf]. apply list_lookup_insert_eq, lookup_lt_is_Some. eauto.
    + reflexivity.
    + exists (first_look bid ++ tl). split; [exact Htr|].
      exists tl. split; [exact Htl|]. left. reflexivity.
  - destruct (Hfin p (with_buf s p (repurpose z d n)
                        (first_look bid ++ evict_head bid ++ evict_tail bid))
                (repurpose z d n) (first_look bid ++ evict_head bid ++ evict_tail bid))
      as (tl & Htr & Htl).
    + cbn [bufs with_buf]. eapply oldest_free_set, Hold.
    + reflexivity.
    + eexists. split; [exact Htr|].
      exists tl. split; [exact Htl|]. right. exists 0%nat, [].
      split; [lia|]. split; [intros c' Hc'; lia|]. split; [left; reflexivity|].
      cbn [scan_events]. rewrite <- !app_assoc. reflexivity.
  - destruct (Hfin p (stolen s bid (walkb c (HASH (bid + 1))) p z d n
                        (first_look bid ++ evict_head bid ++
                         scan_events c (HASH (bid + 1)) ++
                         migration bid (walkb c (HASH (bid + 1))) p ++ evict_tail bid))
                (repurpose z d n)
                (first_look bid ++ evict_head bid ++ scan_events c (HASH (bid + 1)) ++
                 migration bid (walkb c (HASH (bid + 1))) p ++ evict_tail bid))
      as (tl & Htr & Htl).
    + unfold stolen. cbn [bufs]. eapply oldest_free_set, Hold.
    + reflexivity.
    + eexists. split; [exact Htr|].
      exists tl. split; [exact Htl|]. right.
      exists c, (migration bid (walkb c (HASH (bid + 1))) p).
      split; [lia|]. split; [intros c' Hc'; apply Hnot; lia|].
      split; [right; exists p; split; [exact Hc|]; split; [apply Hnot, Hc|reflexivity]|].
      rewrite <- !app_assoc. reflexivity.
  - cbn [snd trace with_events]. eexists. split; [reflexivity|].
    exists []. split; [left; reflexivity|]. right. exists 12%nat, [].
    split; [lia|]. split; [exact Hnot|]. split; [left; reflexivity|].
    rewrite !app_nil_r. reflexivity.
Qed.

(** C9 (as the code has it).  The events [evs] of a call of [bget] are:
    the first look at the target bucket under its lock; then, on the miss
    path, [bcache.block], taken with no spin-lock held; next the lock of the
    target bucket, held from there to the end of the path; in between, the
    other buckets from the one after the target on, each locked while both
    [bcache.block] and the target's lock are held and unlocked before the
    next is locked; when a buffer is taken from one of them, it is taken
    out of that bucket's list under its lock, that lock is released, and
    only then is the buffer put on the target's list, under the target's
    lock and [bcache.block]; then the target's lock and [bcache.block] are
    released, in that order.  So at most two bucket locks are ever held,
    and no spin-lock is held when the call goes for the sleep-lock or
    returns. *)
Theorem bget_lock_discipline (pid : nat) (d n : Z) (s : state) :
  0 <= HASH (to_int n) ->
  exists evs,
    trace (snd (bget pid d n s)) = trace s ++ evs /\
    lock_shape (HASH (to_int n)) evs /\
    obeys (target_then_other (HASH (to_int n))) [] evs = true /\
    held_after [] evs = [] /\
    (max_bucket_locks [] evs <= 2)%nat.
Proof.
  intros Hbid.
  destruct (bget_events pid d n s Hbid) as (evs & Htr & Hshape).
  destruct (lock_shape_stretch _ _ Hshape) as (O & H & M).
  exists evs. split; [exact Htr|]. split; [exact Hshape|].
  split; [exact O|]. split; [exact H|exact M].
Qed.

Lemma bget_lock_discipline_witness :
  exists evs,
    trace (snd (bget 1 1 1 fresh_cache)) = trace fresh_cache ++ evs /\
    lock_shape (HASH (to_int 1)) evs /\
    obeys (target_then_other (HASH (to_int 1))) [] evs = true /\
    held_after [] evs = [] /\
    (max_bucket_locks [] evs <= 2)%nat.
Proof.
  apply (bget_lock_discipline 1 1 1 fresh_cache).
  apply (Zle_bool_imp_le 0 (HASH (to_int 1))). reflexivity.
Defined.

(** C9 as the specification words it fails: the first read of block 1 on a
    fresh cache takes [bcache.lock[2]] while still holding [bcache.lock[1]]
    (two bucket locks at once, with nothing to migrate from bucket 2); and
    when it does take a buffer from bucket 0 it has held the destination's
    lock, [bcache.lock[1]], since before it took the source's. *)
Lemma bget_holds_two_bucket_locks :
  trace (snd (bget 1 1 1 fresh_cache)) =
    [Acquire (Lbucket 1); Release (Lbucket 1);
     Acquire Lblock; Acquire (Lbucket 1);
     Acquire (Lbucket 2); Release (Lbucket 2); Acquire (Lbucket 3); Release (Lbucket 3);
     Acquire (Lbucket 4); Release (Lbucket 4); Acquire (Lbucket 5); Release (Lbucket 5);
     Acquire (Lbucket 6); Release (Lbucket 6); Acquire (Lbucket 7); Release (Lbucket 7);
     Acquire (Lbucket 8); Release (Lbucket 8); Acquire (Lbucket 9); Release (Lbucket 9);
     Acquire (Lbucket 10); Release (Lbucket 10); Acquire (Lbucket 11);
     Release (Lbucket 11); Acquire (Lbucket 12); Release (Lbucket 12);
     Acquire (Lbucket 0); Unlink 29 0; Release (Lbucket 0); Relink 29 1;
     Release (Lbucket 1); Release Lblock; AcquireSleep 29] /\
  obeys one_bucket_at_a_time [] (trace (snd (bget 1 1 1 fresh_cache))) = false /\
  max_bucket_locks [] (trace (snd (bget 1 1 1 fresh_cache))) = 2%nat /\
  held_after [] (firstn 5 (trace (snd (bget 1 1 1 fresh_cache)))) =
    [Lbucket 2; Lbucket 1; Lblock].
Proof. vm_compute. repeat split. Qed.

(** ** No block is cached twice *)

(** A buffer is active when it is valid, referenced, or locked. *)
Definition active (x : buf) : Prop :=
  valid x <> 0 \/ refcnt x <> 0 \/ lock x <> None.

Definition in_range (i : Z) : Prop := 0 <= i < NBUCKET.

(** The invariant of the cache: thirteen lists; every buffer on a list;
    no buffer twice on a list; every buffer on the list of the bucket its
    block number hashes to; and an active buffer is the first of its list
    with its key, that is, the one [bget]'s scan finds. *)
Definition cache_ok (bs : list buf) (hs : list (list nat)) : Prop :=
  length hs = Z.to_nat NBUCKET /\
  (forall b, (b < length bs)%nat -> exists i, in_range i /\ b ∈ bucket hs i) /\
  (forall i, in_range i -> NoDup (bucket hs i)) /\
  (forall i b x, in_range i -> b ∈ bucket hs i -> bs !! b = Some x ->
     HASH (to_int (blockno x)) = i) /\
  (forall i b x, in_range i -> b ∈ bucket hs i -> bs !! b = Some x -> active x ->
     find_cached bs (dev x) (blockno x) (bucket hs i) = Some b).

Lemma find_cached_same_keys bs b x y d n l :
  bs !! b = Some x -> dev y = dev x -> blockno y = blockno x ->
  find_cached (<[b := y]> bs) d n l = find_cached bs d n l.
Proof.
  intros Hx Hd Hn. induction l as [|q l IH]; [reflexivity|]. simpl.
  destruct (Nat.eq_dec q b) as [->|Hne].
  - rewrite list_lookup_insert_eq by (apply lookup_lt_is_Some; eauto).
    rewrite Hx, Hd, Hn, IH. reflexivity.
  - rewrite list_lookup_insert_ne by congruence. rewrite IH. reflexivity.
Qed.

Lemma find_cached_elsewhere bs p y d n l :
  p ∉ l -> find_cached (<[p := y]> bs) d n l = find_cached bs d n l.
Proof.
  intros Hp. induction l as [|q l IH]; [reflexivity|]. simpl.
  apply not_elem_of_cons in Hp as [Hne Hp].
  rewrite list_lookup_insert_ne by congruence. rewrite IH by exact Hp. reflexivity.
Qed.

Lemma find_cached_other_key bs p y d n l b :
  ~ has_key d n y -> b <> p ->
  find_cached bs d n l = Some b -> find_cached (<[p := y]> bs) d n l = Some b.
Proof.
  intros Hy Hb. induction l as [|q l IH]; [discriminate|]. simpl.
  destruct (Nat.eq_dec q p) as [->|Hne].
  - destruct (bs !! p) as [x|] eqn:Hx.
    + rewrite list_lookup_insert_eq by (apply lookup_lt_is_Some; eauto).
      destruct ((dev y =? d) && (blockno y =? n)) eqn:Hk;
        [apply key_test in Hk; contradiction|].
      destruct ((dev x =? d) && (blockno x =? n)); [congruence|exact IH].
    + rewrite list_insert_ge by (apply lookup_ge_None; exact Hx). rewrite Hx. trivial.
  - rewrite list_lookup_insert_ne by congruence.
    destruct (bs !! q) as [x|]; [|exact IH].
    destruct ((dev x =? d) && (blockno x =? n)); [trivial|exact IH].
Qed.

Lemma find_cached_new_key bs p y d n l :
  p ∈ l -> (p < length bs)%nat -> not_cached bs d n l -> has_key d n y ->
  find_cached (<[p := y]> bs) d n l = Some p.
Proof.
  intros Hp Hlt Hnc Hy. induction l as [|q l IH]; [inversion Hp|]. simpl.
  destruct (Nat.eq_dec q p) as [->|Hne].
  - rewrite list_lookup_insert_eq by exact Hlt.
    apply key_test in Hy. rewrite Hy. reflexivity.
  - rewrite list_lookup_insert_ne by congruence.
    assert (Hrest : find_cached (<[p:=y]> bs) d n l = Some p).
    { apply IH.
      - apply elem_of_cons in Hp as [Hp|Hp]; [congruence|exact Hp].
      - intros b x Hb. apply Hnc. right. exact Hb. }
    destruct (bs !! q) as [x|] eqn:Hx; [|exact Hrest].
    destruct ((dev x =? d) && (blockno x =? n)) eqn:Hk; [|exact Hrest].
    exfalso. apply key_test in Hk. apply (Hnc q x); [left|exact Hx|exact Hk].
Qed.

Lemma elem_of_unlink p q l : q ∈ unlink p l -> q ∈ l.
Proof.
  induction l as [|c l IH]; simpl; [trivial|].
  destruct (Nat.eqb_spec c p) as [->|Hne].
  - intros H. right. exact H.
  - intros H. apply elem_of_cons in H as [->|H]; [left|right; apply IH, H].
Qed.

Lemma elem_of_unlink_other p q l : q ∈ l -> q <> p -> q ∈ unlink p l.
Proof.
  induction l as [|c l IH]; simpl; [trivial|]. intros Hq Hne.
  apply elem_of_cons in Hq as [->|Hq].
  - destruct (Nat.eqb_spec c p); [contradiction|left].
  - destruct (Nat.eqb_spec c p); [exact Hq|right; apply IH; assumption].
Qed.

Lemma NoDup_unlink p l : NoDup l -> NoDup (unlink p l) /\ p ∉ unlink p l.
Proof.
  induction l as [|c l IH]; simpl; intros Hnd.
  - split; [constructor|]. intros H. inversion H.
  - apply NoDup_cons in Hnd as [Hc Hnd]. destruct (IH Hnd) as [IH1 IH2].
    destruct (Nat.eqb_spec c p) as [->|Hne].
    + split; assumption.
    + split.
      * apply NoDup_cons. split; [|exact IH1]. intros H. apply Hc. eapply elem_of_unlink, H.
      * intros H. apply elem_of_cons in H as [H|H]; [congruence|contradiction].
Qed.

Lemma find_cached_unlink bs d n l p b :
  b <> p -> find_cached bs d n l = Some b -> find_cached bs d n (unlink p l) = Some b.
Proof.
  intros Hb. induction l as [|q l IH]; [discriminate|]. simpl.
  destruct (Nat.eqb_spec q p) as [->|Hne].
  - destruct (bs !! p) as [x|]; [|trivial].
    destruct ((dev x =? d) && (blockno x =? n)); [congruence|trivial].
  - simpl. destruct (bs !! q) as [x|]; [|exact IH].
    destruct ((dev x =? d) && (blockno x =? n)); [trivial|exact IH].
Qed.

(** A buffer's fields change but not its key: fine as long as it does not
    become active out of turn. *)
Lemma cache_ok_update bs hs b x y :
  cache_ok bs hs ->
  bs !! b = Some x -> dev y = dev x -> blockno y = blockno x ->
  (active y -> active x \/
     forall i, in_range i -> b ∈ bucket hs i ->
       find_cached bs (dev x) (blockno x) (bucket hs i) = Some b) ->
  cache_ok (<[b := y]> bs) hs.
Proof.
  intros (Hlen & Hmem & Hnd & Hhome & Hfirst) Hx Hd Hn Hact.
  assert (Hlt : (b < length bs)%nat) by (apply lookup_lt_is_Some; eauto).
  split; [exact Hlen|]. split; [|split; [exact Hnd|split]].
  - intros q Hq. rewrite length_insert in Hq. apply Hmem, Hq.
  - intros i q z Hi Hq Hz. destruct (Nat.eq_dec q b) as [->|Hne].
    + rewrite list_lookup_insert_eq in Hz by exact Hlt. injection Hz as <-.
      rewrite Hn. apply (Hhome i b x Hi Hq Hx).
    + rewrite list_lookup_insert_ne in Hz by congruence. apply (Hhome i q z Hi Hq Hz).
  - intros i q z Hi Hq Hz Hz_act.
    rewrite (find_cached_same_keys bs b x y _ _ _ Hx Hd Hn).
    destruct (Nat.eq_dec q b) as [->|Hne].
    + rewrite list_lookup_insert_eq in Hz by exact Hlt. injection Hz as <-.
      rewrite Hd, Hn. destruct (Hact Hz_act) as [Hxa|Hf].
      * apply (Hfirst i b x Hi Hq Hx Hxa).
      * apply (Hf i Hi Hq).
    + rewrite list_lookup_insert_ne in Hz by congruence.
      apply (Hfirst i q z Hi Hq Hz Hz_act).
Qed.

(** A free buffer of the target bucket gets a key the bucket did not have. *)
Lemma cache_ok_repurpose bs hs bid p x y d n :
  cache_ok bs hs -> in_range bid -> HASH (to_int n) = bid ->
  not_cached bs d n (bucket hs bid) ->
  p ∈ bucket hs bid -> bs !! p = Some x -> has_key d n y ->
  cache_ok (<[p := y]> bs) hs.
Proof.
  intros (Hlen & Hmem & Hnd & Hhome & Hfirst) Hbid Hh Hnc Hp Hx [Hd Hn].
  assert (Hlt : (p < length bs)%nat) by (apply lookup_lt_is_Some; eauto).
  assert (Honly : forall i, in_range i -> p ∈ bucket hs i -> i = bid).
  { intros i Hi Hpi. rewrite <- (Hhome i p x Hi Hpi Hx). apply (Hhome bid p x Hbid Hp Hx). }
  split; [exact Hlen|]. split; [|split; [exact Hnd|split]].
  - intros q Hq. rewrite length_insert in Hq. apply Hmem, Hq.
  - intros i q z Hi Hq Hz. destruct (Nat.eq_dec q p) as [->|Hne].
    + rewrite list_lookup_insert_eq in Hz by exact Hlt. injection Hz as <-.
      rewrite Hn, Hh. symmetry. apply Honly; assumption.
    + rewrite list_lookup_insert_ne in Hz by congruence. apply (Hhome i q z Hi Hq Hz).
  - intros i q z Hi Hq Hz Hz_act. destruct (Nat.eq_dec q p) as [->|Hne].
    + rewrite list_lookup_insert_eq in Hz by exact Hlt. injection Hz as <-.
      rewrite Hd, Hn. rewrite (Honly i Hi Hq) in *.
      apply find_cached_new_key; [exact Hp|exact Hlt|exact Hnc|split; assumption].
    + rewrite list_lookup_insert_ne in Hz by congruence.
      pose proof (Hfirst i q z Hi Hq Hz Hz_act) as Hold.
      destruct (decide (p ∈ bucket hs i)) as [Hin|Hout].
      * rewrite (Honly i Hi Hin) in *.
        apply find_cached_other_key; [|exact Hne|exact Hold].
        intros [Hd' Hn']. apply (Hnc q z Hq Hz). split; congruence.
      * rewrite find_cached_elsewhere by exact Hout. exact Hold.
Qed.

(** A free buffer moves from bucket [src] to the head of bucket [bid] and
    gets a key bucket [bid] did not have. *)
Lemma cache_ok_steal bs hs hs' bid src p x y d n :
  cache_ok bs hs -> in_range bid -> in_range src -> src <> bid ->
  HASH (to_int n) = bid ->
  not_cached bs d n (bucket hs bid) ->
  p ∈ bucket hs src -> bs !! p = Some x -> has_key d n y ->
  length hs' = length hs ->
  bucket hs' bid = p :: bucket hs bid ->
  bucket hs' src = unlink p (bucket hs src) ->
  (forall j, 0 <= j -> j <> bid -> j <> src -> bucket hs' j = bucket hs j) ->
  cache_ok (<[p := y]> bs) hs'.
Proof.
  intros (Hlen & Hmem & Hnd & Hhome & Hfirst) Hbid Hsrc Hne Hh Hnc Hp Hx [Hd Hn]
         Hlen' Hb1 Hb2 Hb3.
  assert (Hlt : (p < length bs)%nat) by (apply lookup_lt_is_Some; eauto).
  assert (Honly : forall i, in_range i -> p ∈ bucket hs i -> i = src).
  { intros i Hi Hpi. rewrite <- (Hhome i p x Hi Hpi Hx). apply (Hhome src p x Hsrc Hp Hx). }
  assert (Hpbid : p ∉ bucket hs bid).
  { intros Hc. apply Hne. symmetry. apply Honly; assumption. }
  destruct (NoDup_unlink p (bucket hs src) (Hnd src Hsrc)) as [Hnd_src Hp_gone].
  assert (Hback : forall i q, in_range i -> q <> p -> q ∈ bucket hs' i -> q ∈ bucket hs i).
  { intros i q Hi Hq Hin. destruct (Z.eq_dec i bid) as [->|Hib].
    - rewrite Hb1 in Hin. apply elem_of_cons in Hin as [Hin|Hin]; [contradiction|exact Hin].
    - destruct (Z.eq_dec i src) as [->|His].
      + rewrite Hb2 in Hin. eapply elem_of_unlink, Hin.
      + rewrite Hb3 in Hin by (unfold in_range in Hi; lia || assumption). exact Hin. }
  assert (Hp_home : forall i, in_range i -> p ∈ bucket hs' i -> i = bid).
  { intros i Hi Hin. destruct (Z.eq_dec i bid) as [->|Hib]; [reflexivity|]. exfalso.
    destruct (Z.eq_dec i src) as [->|His].
    - rewrite Hb2 in Hin. contradiction.
    - rewrite Hb3 in Hin by (unfold in_range in Hi; lia || assumption).
      apply His, Honly; assumption. }
  split; [rewrite Hlen'; exact Hlen|]. split; [|split; [|split]].
  - intros q Hq. rewrite length_insert in Hq.
    destruct (Nat.eq_dec q p) as [->|Hqp].
    { exists bid. split; [exact Hbid|]. rewrite Hb1. left. }
    destruct (Hmem q Hq) as (i & Hi & Hin). exists i. split; [exact Hi|].
    destruct (Z.eq_dec i bid) as [->|Hib]; [rewrite Hb1; right; exact Hin|].
    destruct (Z.eq_dec i src) as [->|His];
      [rewrite Hb2; apply elem_of_unlink_other; assumption|].
    rewrite Hb3 by (unfold in_range in Hi; lia || assumption). exact Hin.
  - intros i Hi. destruct (Z.eq_dec i bid) as [->|Hib].
    { rewrite Hb1. apply NoDup_cons. split; [exact Hpbid|apply Hnd, Hbid]. }
    destruct (Z.eq_dec i src) as [->|His]; [rewrite Hb2; exact Hnd_src|].
    rewrite Hb3 by (unfold in_range in Hi; lia || assumption). apply Hnd, Hi.
  - intros i q z Hi Hq Hz. destruct (Nat.eq_dec q p) as [->|Hqp].
    + rewrite list_lookup_insert_eq in Hz by exact Hlt. injection Hz as <-.
      rewrite Hn, Hh. symmetry. apply Hp_home; assumption.
    + rewrite list_lookup_insert_ne in Hz by congruence.
      apply (Hhome i q z Hi (Hback i q Hi Hqp Hq) Hz).
  - intros i q z Hi Hq Hz Hz_act. destruct (Nat.eq_dec q p) as [->|Hqp].
    + rewrite list_lookup_insert_eq in Hz by exact Hlt. injection Hz as <-.
      rewrite (Hp_home i Hi Hq), Hb1, Hd, Hn. simpl.
      rewrite list_lookup_insert_eq by exact Hlt.
      assert (Hk : (dev y =? d) && (blockno y =? n) = true)
        by (apply key_test; split; assumption).
      rewrite Hk. reflexivity.
    + rewrite list_lookup_insert_ne in Hz by congruence.
      pose proof (Hback i q Hi Hqp Hq) as Hq_old.
      pose proof (Hfirst i q z Hi Hq_old Hz Hz_act) as Hold.
      destruct (Z.eq_dec i bid) as [->|Hib].
      { rewrite Hb1. simpl. rewrite list_lookup_insert_eq by exact Hlt.
        destruct ((dev y =? dev z) && (blockno y =? blockno z)) eqn:Hk.
        - exfalso. apply key_test in Hk. destruct Hk as [Hk1 Hk2].
          apply (Hnc q z Hq_old Hz). split; congruence.
        - rewrite find_cached_elsewhere by exact Hpbid. exact Hold. }
      destruct (Z.eq_dec i src) as [->|His].
      { rewrite Hb2. rewrite find_cached_elsewhere by exact Hp_gone.
        apply find_cached_unlink; assumption. }
      rewrite Hb3 by (unfold in_range in Hi; lia || assumption).
      rewrite find_cached_elsewhere; [exact Hold|].
      intros Hc. apply His, Honly; assumption.
Qed.

(** What [acquiresleep] leaves in the buffer array. *)
Lemma acquiresleep_bufs pid p st y0 :
  bufs st !! p = Some y0 ->
  let r := acquiresleep pid p st in
  heads (snd r) = heads st /\ disk (snd r) = disk st /\ ticks (snd r) = ticks st /\
  ((fst r = Done (Held p) /\ lock y0 = None /\
    bufs (snd r) = <[p := set_lock (Some pid) y0]> (bufs st)) \/
   (fst r = Done (Waiting p) /\ lock y0 <> None /\ snd r = st)).
Proof.
  intros Hy. cbv zeta. rewrite (acquiresleep_eq pid p st y0 Hy).
  destruct (lock y0) as [o|] eqn:Hl; cbn [fst snd heads disk ticks bufs with_buf].
  - split; [reflexivity|]. split; [reflexivity|]. split; [reflexivity|].
    right. split; [reflexivity|]. split; [discriminate|reflexivity].
  - split; [reflexivity|]. split; [reflexivity|]. split; [reflexivity|].
    left. split; [reflexivity|]. split; reflexivity.
Qed.

Lemma insert_twice (bs : list buf) p (y1 y2 : buf) :
  <[p := y2]> (<[p := y1]> bs) = <[p := y2]> bs.
Proof. apply list_insert_insert_eq. Qed.

Lemma cache_ok_in_range bs hs i b x :
  cache_ok bs hs -> in_range i -> b ∈ bucket hs i -> bs !! b = Some x ->
  HASH (to_int (blockno x)) = i.
Proof. intros (_ & _ & _ & Hhome & _). apply Hhome. Qed.

Definition ok (s : state) : Prop := cache_ok (bufs s) (heads s).

(** [acquiresleep] on a buffer that has just been written at [p]. *)
Lemma after_acquiresleep pid p st y0 bs :
  bufs st = <[p := y0]> bs -> (p < length bs)%nat ->
  let r := acquiresleep pid p st in
  exists y,
    bufs (snd r) = <[p := y]> bs /\ heads (snd r) = heads st /\
    disk (snd r) = disk st /\ ticks (snd r) = ticks st /\
    same_fields y0 y /\
    ((fst r = Done (Held p) /\ lock y0 = None /\ lock y = Some pid) \/
     (fst r = Done (Waiting p) /\ lock y0 <> None /\ y = y0 /\ snd r = st)).
Proof.
  intros Hst Hlt. cbv zeta.
  assert (Hy : bufs st !! p = Some y0) by (rewrite Hst; apply list_lookup_insert_eq, Hlt).
  destruct (acquiresleep_bufs pid p st y0 Hy) as (Hh & Hd & Ht & Hcase).
  destruct Hcase as [(Hr & Hl & Hb)|(Hr & Hl & Hs)].
  - exists (set_lock (Some pid) y0).
    split; [rewrite Hb, Hst; apply insert_twice|].
    split; [exact Hh|]. split; [exact Hd|]. split; [exact Ht|].
    split; [repeat split|]. left. split; [exact Hr|]. split; [exact Hl|reflexivity].
  - exists y0. rewrite Hs.
    split; [exact Hst|]. split; [reflexivity|]. split; [reflexivity|].
    split; [reflexivity|]. split; [repeat split|].
    right. split; [exact Hr|]. split; [exact Hl|]. split; reflexivity.
Qed.

(** The buffer [bget] hands over with its sleep-lock held is locked by the
    caller. *)
Definition held_locked (pid : nat) (r : outcome got * state) : Prop :=
  forall b, fst r = Done (Held b) ->
    exists y, bufs (snd r) !! b = Some y /\ lock y = Some pid.

Lemma held_locked_after pid p st y0 bs :
  bufs st = <[p := y0]> bs -> (p < length bs)%nat ->
  held_locked pid (acquiresleep pid p st).
Proof.
  intros Hst Hlt b Hb.
  destruct (after_acquiresleep pid p st y0 bs Hst Hlt)
    as (y & Hbufs & _ & _ & _ & _ & [(Hr & _ & Hl)|(Hr & _)]).
  - rewrite Hr in Hb. injection Hb as <-. exists y. split; [|exact Hl].
    rewrite Hbufs. apply list_lookup_insert_eq. exact Hlt.
  - rewrite Hr in Hb. discriminate.
Qed.

Lemma same_fields_key y0 y d n : same_fields y0 y -> has_key d n y0 -> has_key d n y.
Proof. intros (_ & Hd & Hn & _) [H1 H2]. split; congruence. Qed.

Lemma oldest_free_facts bs l k p z :
  oldest_free bs l k p z -> p ∈ l /\ bs !! p = Some z /\ (p < length bs)%nat /\ refcnt z = 0.
Proof.
  intros (Hk & Hz & Hr & _). split; [apply list_elem_of_lookup; eauto|].
  split; [exact Hz|]. split; [apply lookup_lt_is_Some; eauto|exact Hr].
Qed.

(** [bget_evict] keeps the invariant. *)
Lemma bget_evict_ok pid d n s :
  ok s -> 0 <= HASH (to_int n) ->
  let r := bget_evict pid d n (HASH (to_int n)) s in
  ok (snd r) /\ held_locked pid r.
Proof.
  intros Hok Hbid. cbv zeta. set (bid := HASH (to_int n)).
  pose proof (HASH_range _ Hbid) as Hrange. fold bid in Hrange.
  destruct (walkb_cycle bid Hrange) as (Hend & Hnot & Hreach & Hin).
  destruct (bget_evict_outcomes pid d n bid s Hrange)
    as [(p & z & Hf & Hz & Hrun)|[(Hnc & k & p & z & Hold & Hrun)|
        [(Hnc & Hnf & c & k & p & z & Hc & Hbefore & Hold & Hrun)|
         (Hnc & Hnf & Hall & Hrun)]]]; rewrite Hrun.
  - assert (Hlt : (p < length (bufs s))%nat) by (apply lookup_lt_is_Some; eauto).
    split; [|eapply held_locked_after; [reflexivity|exact Hlt]].
    destruct (after_acquiresleep pid p
                (with_buf s p (incref z) (evict_head bid ++ evict_tail bid))
                (incref z) (bufs s) eq_refl Hlt)
      as (y & Hbufs & Hheads & _ & _ & (_ & S2 & S3 & _) & _).
    unfold ok. rewrite Hbufs, Hheads. cbn [heads with_buf].
    destruct (find_cached_lookup _ _ _ _ _ Hf) as (z' & Hz' & [Hk1 Hk2] & Hpin).
    rewrite Hz in Hz'. injection Hz' as <-.
    apply (cache_ok_update _ _ p z y Hok Hz S2 S3).
    intros _. right. intros i Hi Hpi.
    pose proof (cache_ok_in_range _ _ i p z Hok Hi Hpi Hz) as E1.
    pose proof (cache_ok_in_range _ _ bid p z Hok Hrange Hpin Hz) as E2.
    assert (Ei : i = bid) by congruence.
    rewrite Ei, Hk1, Hk2. exact Hf.
  - destruct (oldest_free_facts _ _ _ _ _ Hold) as (Hpin & Hz & Hlt & _).
    split; [|eapply held_locked_after; [reflexivity|exact Hlt]].
    destruct (after_acquiresleep pid p
                (with_buf s p (repurpose z d n) (evict_head bid ++ evict_tail bid))
                (repurpose z d n) (bufs s) eq_refl Hlt)
      as (y & Hbufs & Hheads & _ & _ & Hsame & _).
    unfold ok. rewrite Hbufs, Hheads. cbn [heads with_buf].
    apply (cache_ok_repurpose _ _ bid p z y d n Hok Hrange eq_refl Hnc Hpin Hz).
    apply (same_fields_key (repurpose z d n)); [exact Hsame|split; reflexivity].
  - destruct (oldest_free_facts _ _ _ _ _ Hold) as (Hpin & Hz & Hlt & _).
    set (src := walkb c (HASH (bid + 1))) in *.
    set (evs := evict_head bid ++ scan_events c (HASH (bid + 1)) ++
                migration bid src p ++ evict_tail bid) in *.
    split; [|eapply held_locked_after; [reflexivity|exact Hlt]].
    destruct (after_acquiresleep pid p (stolen s bid src p z d n evs)
                (repurpose z d n) (bufs s) eq_refl Hlt)
      as (y & Hbufs & Hheads & _ & _ & Hsame & _).
    unfold ok. rewrite Hbufs, Hheads.
    pose proof Hok as (Hlen & _).
    destruct (stolen_heads s bid src p z d n evs Hlen Hrange (Hin c Hc) (Hnot c Hc))
      as (Hb1 & Hb2 & Hb3).
    apply (cache_ok_steal (bufs s) (heads s) _ bid src p z y d n Hok Hrange (Hin c Hc)
             (Hnot c Hc) eq_refl Hnc Hpin Hz).
    + apply (same_fields_key (repurpose z d n)); [exact Hsame|split; reflexivity].
    + unfold stolen. cbn [heads]. rewrite !length_insert. reflexivity.
    + exact Hb1.
    + exact Hb2.
    + exact Hb3.
  - cbn [fst snd]. split; [exact Hok|]. intros b Hb. discriminate.
Qed.

(** [bget] keeps the invariant. *)
Lemma bget_ok pid d n s :
  ok s ->
  let r := bget pid d n s in ok (snd r) /\ held_locked pid r.
Proof.
  intros Hok. cbv zeta.
  destruct (Z_lt_le_dec (HASH (to_int n)) 0) as [Hneg|Hbid].
  { rewrite bget_out_of_bounds by exact Hneg. split; [exact Hok|].
    intros b Hb. discriminate. }
  set (bid := HASH (to_int n)).
  pose proof (HASH_range _ Hbid) as Hrange. fold bid in Hrange.
  pose proof (bget_cases pid d n s Hbid) as Hget. cbv zeta in Hget. fold bid in Hget.
  destruct (find_cached (bufs s) d n (bucket (heads s) bid)) as [p|] eqn:Hf.
  - destruct Hget as (z & Hz & Hrun). rewrite Hrun.
    assert (Hlt : (p < length (bufs s))%nat) by (apply lookup_lt_is_Some; eauto).
    split; [|eapply held_locked_after; [reflexivity|exact Hlt]].
    destruct (after_acquiresleep pid p
                (with_buf s p (incref z) [Acquire (Lbucket bid); Release (Lbucket bid)])
                (incref z) (bufs s) eq_refl Hlt)
      as (y & Hbufs & Hheads & _ & _ & (_ & S2 & S3 & _) & _).
    unfold ok. rewrite Hbufs, Hheads. cbn [heads with_buf].
    destruct (find_cached_lookup _ _ _ _ _ Hf) as (z' & Hz' & [Hk1 Hk2] & Hpin).
    rewrite Hz in Hz'. injection Hz' as <-.
    apply (cache_ok_update _ _ p z y Hok Hz S2 S3).
    intros _. right. intros i Hi Hpi.
    pose proof (cache_ok_in_range _ _ i p z Hok Hi Hpi Hz) as E1.
    pose proof (cache_ok_in_range _ _ bid p z Hok Hrange Hpin Hz) as E2.
    assert (Ei : i = bid) by congruence.
    rewrite Ei, Hk1, Hk2. exact Hf.
  - rewrite Hget.
    apply (bget_evict_ok pid d n
             (with_events s [Acquire (Lbucket bid); Release (Lbucket bid)])).
    + exact Hok.
    + exact Hbid.
Qed.

Lemma filled_set_data d y : filled d (set_data d y) = filled d y.
Proof. reflexivity. Qed.

Lemma bread_fill_eq b s y :
  bufs s !! b = Some y ->
  bread_fill b s =
    if valid y =? 0 then
      mkS (<[b := filled (disk s (dev y) (blockno y)) y]> (bufs s)) (heads s) (disk s)
          (ticks s) (trace s ++ [DiskRead (dev y) (blockno y)])
    else s.
Proof.
  intros Hy. unfold bread_fill. rewrite Hy.
  destruct (valid y =? 0); [|reflexivity].
  unfold virtio_disk_rw. rewrite Hy. cbn [bufs].
  rewrite list_lookup_insert_eq by (apply lookup_lt_is_Some; eauto).
  unfold set_buf. cbn [bufs heads disk ticks trace].
  rewrite insert_twice. reflexivity.
Qed.

Lemma bread_fill_ok b s :
  ok s -> (forall y, bufs s !! b = Some y -> active y) -> ok (bread_fill b s).
Proof.
  intros Hok Hact. destruct (bufs s !! b) as [y|] eqn:Hy.
  - rewrite (bread_fill_eq b s y Hy). destruct (valid y =? 0); [|exact Hok].
    unfold ok. cbn [bufs heads].
    apply (cache_ok_update _ _ b y _ Hok Hy); [reflexivity|reflexivity|].
    intros _. left. apply Hact. reflexivity.
  - unfold bread_fill. rewrite Hy. exact Hok.
Qed.

Lemma locked_active pid y : lock y = Some pid -> active y.
Proof. intros H. right. right. rewrite H. discriminate. Qed.

Lemma finish_bread_ok pid (r : outcome got * state) :
  ok (snd r) -> held_locked pid r -> ok (snd (finish_bread r)).
Proof.
  unfold finish_bread.
  destruct r as [[[b|b]| | |] s1]; cbn [fst snd]; intros Hok Hheld; try exact Hok.
  apply bread_fill_ok; [exact Hok|]. intros y Hy.
  destruct (Hheld b eq_refl) as (y' & Hy' & Hl). cbn [snd] in Hy'.
  rewrite Hy in Hy'. injection Hy' as <-. eapply locked_active, Hl.
Qed.

Lemma bread_ok pid d n s : ok s -> ok (snd (bread pid d n s)).
Proof.
  intros Hok. unfold bread.
  destruct (bget_ok pid d n s Hok) as [H1 H2].
  apply (finish_bread_ok pid); assumption.
Qed.

Lemma bread_late_ok pid d n s : ok s -> ok (snd (bread_late pid d n s)).
Proof.
  intros Hok. unfold bread_late.
  destruct (Z.ltb_spec (HASH (to_int n)) 0) as [|Hbid]; [exact Hok|].
  destruct (bget_evict_ok pid d n s Hok Hbid) as [H1 H2].
  apply (finish_bread_ok pid); assumption.
Qed.

Lemma bread_resume_ok pid b s :
  ok s -> (forall x, bufs s !! b = Some x -> active x) -> ok (snd (bread_resume pid b s)).
Proof.
  intros Hok Hact. unfold bread_resume.
  destruct (bufs s !! b) as [x|] eqn:Hx.
  - assert (Hlt : (b < length (bufs s))%nat) by (apply lookup_lt_is_Some; eauto).
    assert (Hst : bufs s = <[b := x]> (bufs s)) by (symmetry; apply list_insert_id, Hx).
    apply (finish_bread_ok pid).
    + destruct (after_acquiresleep pid b s x (bufs s) Hst Hlt)
        as (y & Hbufs & Hheads & _ & _ & (_ & S2 & S3 & _) & _).
      unfold ok. rewrite Hbufs, Hheads.
      apply (cache_ok_update _ _ b x y Hok Hx S2 S3).
      intros _. left. apply Hact. reflexivity.
    + eapply held_locked_after; [exact Hst|exact Hlt].
  - unfold acquiresleep. rewrite Hx. exact Hok.
Qed.

Lemma holdingsleep_true pid x : holdingsleep pid x = true <-> lock x = Some pid.
Proof. unfold holdingsleep. apply bool_decide_eq_true. Qed.

Lemma brelse_ok pid b s : ok s -> ok (snd (brelse pid b s)).
Proof.
  intros Hok. unfold brelse. destruct (bufs s !! b) as [x|] eqn:Hx; [|exact Hok].
  destruct (holdingsleep pid x) eqn:Hh; [|exact Hok]. cbn [negb].
  apply holdingsleep_true in Hh.
  assert (Hact : active x) by (eapply locked_active, Hh).
  assert (Htouch : forall y, dev y = dev x -> blockno y = blockno x ->
            cache_ok (<[b := y]> (bufs s)) (heads s)).
  { intros y Hd Hn. apply (cache_ok_update _ _ b x y Hok Hx Hd Hn). intros _. left. exact Hact. }
  cbv zeta. cbn [blockno set_lock].
  destruct (HASH (to_int (blockno x)) <? 0).
  - unfold ok. cbn [snd bufs heads emit set_buf]. apply Htouch; reflexivity.
  - cbn [refcnt decref set_lock].
    destruct (u32 (refcnt x - 1) =? 0); unfold ok;
      cbn [snd bufs heads emit set_buf ticks]; rewrite ?insert_twice;
      apply Htouch; reflexivity.
Qed.

Lemma bpin_ok b s :
  ok s -> (forall x, bufs s !! b = Some x -> active x) -> ok (snd (bpin b s)).
Proof.
  intros Hok Hact. unfold bpin. destruct (bufs s !! b) as [x|] eqn:Hx; [|exact Hok].
  destruct (HASH (to_int (blockno x)) <? 0); [exact Hok|].
  unfold ok. cbn [snd bufs heads emit set_buf].
  apply (cache_ok_update _ _ b x _ Hok Hx); [reflexivity|reflexivity|].
  intros _. left. apply Hact. reflexivity.
Qed.

Lemma bunpin_ok b s :
  ok s -> (forall x, bufs s !! b = Some x -> active x) -> ok (snd (bunpin b s)).
Proof.
  intros Hok Hact. unfold bunpin. destruct (bufs s !! b) as [x|] eqn:Hx; [|exact Hok].
  destruct (HASH (to_int (blockno x)) <? 0); [exact Hok|].
  unfold ok. cbn [snd bufs heads emit set_buf].
  apply (cache_ok_update _ _ b x _ Hok Hx); [reflexivity|reflexivity|].
  intros _. left. apply Hact. reflexivity.
Qed.

Lemma bwrite_ok pid b s : ok s -> ok (snd (bwrite pid b s)).
Proof.
  intros Hok. unfold bwrite. destruct (bufs s !! b) as [x|] eqn:Hx; [|exact Hok].
  destruct (holdingsleep pid x); [|exact Hok]. cbn [negb snd].
  unfold virtio_disk_rw. rewrite Hx. exact Hok.
Qed.

Lemma write_data_ok b d s : ok s -> ok (write_data b d s).
Proof.
  intros Hok. unfold write_data. destruct (bufs s !! b) as [x|] eqn:Hx; [|exact Hok].
  unfold ok. cbn [bufs heads set_buf].
  apply (cache_ok_update _ _ b x _ Hok Hx); [reflexivity|reflexivity|].
  intros [Ha|[Ha|Ha]]; left; [left|right; left|right; right]; exact Ha.
Qed.

(** ** The initial state *)

Lemma binit_heads_eq nbuf :
  fold_left (fun hs b => <[0%nat := b :: bucket hs 0]> hs) (seq 0 nbuf)
            (replicate (Z.to_nat NBUCKET) []) =
  rev (seq 0 nbuf) :: replicate 12 [].
Proof.
  induction nbuf as [|k IH]; [reflexivity|].
  rewrite seq_S, fold_left_app, IH. simpl. rewrite rev_app_distr. reflexivity.
Qed.

Lemma bucket_cons_0 l hs : bucket (l :: hs) 0 = l.
Proof. reflexivity. Qed.

Lemma bucket_empty_tail l i :
  0 < i -> i < NBUCKET -> bucket (l :: replicate 12 []) i = [].
Proof.
  intros H0 H1. unfold NBUCKET in *.
  assert (Hi : i = 1 \/ i = 2 \/ i = 3 \/ i = 4 \/ i = 5 \/ i = 6 \/ i = 7 \/
               i = 8 \/ i = 9 \/ i = 10 \/ i = 11 \/ i = 12) by lia.
  repeat (destruct Hi as [->|Hi]; [reflexivity|]). subst i. reflexivity.
Qed.

Lemma binit_ok nbuf bsize dsk t : ok (binit nbuf bsize dsk t).
Proof.
  unfold ok, binit. cbn [bufs heads]. rewrite binit_heads_eq.
  assert (Hz : forall b x, replicate nbuf (zero_buf bsize) !! b = Some x -> x = zero_buf bsize).
  { intros b x Hb. apply lookup_replicate in Hb as [-> _]. reflexivity. }
  assert (Hb0 : forall i b, in_range i -> b ∈ bucket (rev (seq 0 nbuf) :: replicate 12 []) i ->
            i = 0).
  { intros i b Hi Hb. destruct (Z.eq_dec i 0) as [|Hne]; [assumption|].
    rewrite bucket_empty_tail in Hb by (unfold in_range in Hi; lia). inversion Hb. }
  split; [reflexivity|]. split; [|split; [|split]].
  - intros b Hb. rewrite length_replicate in Hb. exists 0.
    split; [unfold in_range, NBUCKET; lia|]. rewrite bucket_cons_0.
    apply list_elem_of_In. rewrite <- in_rev. apply in_seq. lia.
  - intros i Hi. destruct (Z.eq_dec i 0) as [->|Hne].
    + rewrite bucket_cons_0. apply NoDup_ListNoDup, NoDup_rev, seq_NoDup.
    + rewrite bucket_empty_tail by (unfold in_range in Hi; lia). constructor.
  - intros i b x Hi Hb Hx. rewrite (Hb0 i b Hi Hb). rewrite (Hz b x Hx). reflexivity.
  - intros i b x Hi Hb Hx [Ha|[Ha|Ha]]; rewrite (Hz b x Hx) in Ha; simpl in Ha;
      contradiction Ha; reflexivity.
Qed.

(** ** Reachable states *)

(** [bpin], [bunpin] and the waking of a sleeper are only done to a buffer
    the kernel has a stake in: one that is valid, referenced or locked. *)
Definition permitted (s : state) (c : call) : Prop :=
  match c with
  | Bpin b | Bunpin b | Wake _ b => forall x, bufs s !! b = Some x -> active x
  | _ => True
  end.

(** The states the cache can be in: [binit]'s, and those reached from it
    by calls, each call being one step. *)
Inductive reachable (nbuf bsize : nat) : state -> Prop :=
| reach_init dsk t : reachable nbuf bsize (binit nbuf bsize dsk t)
| reach_call s c :
    reachable nbuf bsize s -> permitted s c -> reachable nbuf bsize (run1 s c).

Lemma reachable_ok nbuf bsize s : reachable nbuf bsize s -> ok s.
Proof.
  induction 1 as [dsk t|s c Hs IH Hperm].
  - apply binit_ok.
  - destruct c; cbn [run1 permitted] in *.
    + apply bread_ok, IH.
    + apply brelse_ok, IH.
    + apply bwrite_ok, IH.
    + apply bpin_ok; assumption.
    + apply bunpin_ok; assumption.
    + apply write_data_ok, IH.
    + exact IH.
    + apply bread_late_ok, IH.
    + apply bread_resume_ok; assumption.
Qed.

(** In a state that satisfies the invariant, the scan of the home bucket
    finds every buffer that is valid or referenced. *)
Lemma ok_scan_finds s b x :
  ok s -> bufs s !! b = Some x -> valid x <> 0 \/ refcnt x <> 0 ->
  0 <= HASH (to_int (blockno x)) /\
  find_cached (bufs s) (dev x) (blockno x)
    (bucket (heads s) (HASH (to_int (blockno x)))) = Some b.
Proof.
  intros Hok Hx Hact. pose proof Hok as (_ & Hmem & _ & Hhome & Hfirst).
  destruct (Hmem b) as (i & Hi & Hb); [apply lookup_lt_is_Some; eauto|].
  rewrite (Hhome i b x Hi Hb Hx). split; [apply Hi|].
  apply (Hfirst i b x Hi Hb Hx). destruct Hact as [Ha|Ha]; [left|right; left]; exact Ha.
Qed.

(** The result [r] of a call on state [s] is a hit on buffer [b], which
    held [x]: [b] comes back (sleep-lock held or being waited for) with one
    more reference and the same key, [valid] and data; no list and no other
    buffer has changed. *)
Definition hit_on (b : nat) (x : buf) (s : state) (r : outcome got * state) : Prop :=
  (fst r = Done (Held b) \/ fst r = Done (Waiting b)) /\
  heads (snd r) = heads s /\
  (forall q, q <> b -> bufs (snd r) !! q = bufs s !! q) /\
  exists y,
    bufs (snd r) !! b = Some y /\
    dev y = dev x /\ blockno y = blockno x /\ valid y = valid x /\ data y = data x /\
    refcnt y = u32 (refcnt x + 1) /\
    (0 <= refcnt x < 2 ^ 32 - 1 -> refcnt y = refcnt x + 1).

Lemma hit_returns pid b x s evs :
  bufs s !! b = Some x ->
  hit_on b x s (acquiresleep pid b (with_buf s b (incref x) evs)).
Proof.
  intros Hx.
  assert (Hlt : (b < length (bufs s))%nat) by (apply lookup_lt_is_Some; eauto).
  destruct (after_acquiresleep pid b (with_buf s b (incref x) evs) (incref x) (bufs s)
              eq_refl Hlt)
    as (y & Hbufs & Hheads & _ & _ & (S1 & S2 & S3 & S4 & S5 & S6) & Hcase).
  split; [destruct Hcase as [(Hr & _)|(Hr & _)]; [left|right]; exact Hr|].
  split; [rewrite Hheads; reflexivity|].
  split; [intros q Hq; rewrite Hbufs; apply list_lookup_insert_ne; congruence|].
  exists y. split; [rewrite Hbufs; apply list_lookup_insert_eq, Hlt|].
  simpl in *. repeat split; try assumption.
  intros Hr. rewrite S4. unfold u32. apply Z.mod_small. lia.
Qed.

(** C1.  (1) In every reachable state, two buffers that are valid or
    referenced never hold the same (device, block number).  (2) In any state
    in which the scan of the key's bucket finds a buffer [b], both the first
    look of [bget] and the second look under [bcache.block] return [b] with
    one more reference, and change no other buffer and no list (nothing is
    recycled).  (3) In a reachable state the scan finds every valid or
    referenced buffer when asked for its key. *)
Theorem bget_never_caches_twice :
  (forall nbuf bsize s, reachable nbuf bsize s ->
     forall b1 b2 x1 x2,
       bufs s !! b1 = Some x1 -> bufs s !! b2 = Some x2 ->
       dev x1 = dev x2 -> blockno x1 = blockno x2 ->
       valid x1 <> 0 \/ refcnt x1 <> 0 -> valid x2 <> 0 \/ refcnt x2 <> 0 ->
       b1 = b2) /\
  (forall s pid d n b,
     0 <= HASH (to_int n) ->
     find_cached (bufs s) d n (bucket (heads s) (HASH (to_int n))) = Some b ->
     exists x,
       bufs s !! b = Some x /\ has_key d n x /\
       hit_on b x s (bget pid d n s) /\
       hit_on b x s (bget_evict pid d n (HASH (to_int n)) s)) /\
  (forall nbuf bsize s, reachable nbuf bsize s ->
     forall b x,
       bufs s !! b = Some x -> valid x <> 0 \/ refcnt x <> 0 ->
       0 <= HASH (to_int (blockno x)) /\
       find_cached (bufs s) (dev x) (blockno x)
         (bucket (heads s) (HASH (to_int (blockno x)))) = Some b).
Proof.
  split; [|split].
  - intros nbuf bsize s Hreach b1 b2 x1 x2 H1 H2 Hd Hn A1 A2.
    pose proof (reachable_ok _ _ _ Hreach) as Hok.
    destruct (ok_scan_finds s b1 x1 Hok H1 A1) as [_ F1].
    destruct (ok_scan_finds s b2 x2 Hok H2 A2) as [_ F2].
    rewrite Hd, Hn in F1. congruence.
  - intros s pid d n b Hbid Hf.
    destruct (find_cached_lookup _ _ _ _ _ Hf) as (x & Hx & Hkey & _).
    exists x. split; [exact Hx|]. split; [exact Hkey|]. split.
    + pose proof (bget_cases pid d n s Hbid) as Hget. cbv zeta in Hget.
      rewrite Hf in Hget. destruct Hget as (x' & Hx' & Hrun).
      rewrite Hx in Hx'. injection Hx' as <-. rewrite Hrun. apply hit_returns, Hx.
    + pose proof (bget_evict_cases pid d n (HASH (to_int n)) s) as Hev.
      rewrite Hf in Hev. destruct Hev as (x' & Hx' & Hrun).
      rewrite Hx in Hx'. injection Hx' as <-. rewrite Hrun. apply hit_returns, Hx.
  - intros nbuf bsize s Hreach b x Hx Hact.
    apply ok_scan_finds; [eapply reachable_ok, Hreach|exact Hx|exact Hact].
Qed.

(** Every call of a sequence is permitted where it happens. *)
Fixpoint permitted_run (cs : list call) (s : state) : Prop :=
  match cs with
  | [] => True
  | c :: cs' => permitted s c /\ permitted_run cs' (run1 s c)
  end.

Lemma reachable_run nbuf bsize cs : forall s,
  reachable nbuf bsize s -> permitted_run cs s -> reachable nbuf bsize (run cs s).
Proof.
  induction cs as [|c cs IH]; intros s Hs Hp; [exact Hs|].
  destruct Hp as [Hc Hp]. apply (IH (run1 s c)); [|exact Hp].
  apply reach_call; assumption.
Qed.

Lemma pinned_cache_reachable : reachable 30 1024 pinned_cache.
Proof.
  unfold pinned_cache. apply reachable_run; [apply reach_init|].
  cbn [permitted_run permitted].
  split; [exact I|]. split; [|split; [exact I|exact I]].
  intros x Hx. vm_compute in Hx. injection Hx as <-. left. discriminate.
Defined.

Lemma bget_never_caches_twice_witness :
  (forall b2 x2,
     bufs pinned_cache !! b2 = Some x2 ->
     dev (mkBuf 1 1 1 None 1 0 (replicate 1024 x00)) = dev x2 ->
     blockno (mkBuf 1 1 1 None 1 0 (replicate 1024 x00)) = blockno x2 ->
     valid x2 <> 0 \/ refcnt x2 <> 0 -> 29%nat = b2) /\
  (exists x, bufs pinned_cache !! 29%nat = Some x /\ has_key 1 1 x /\
             hit_on 29 x pinned_cache (bget 2 1 1 pinned_cache) /\
             hit_on 29 x pinned_cache (bget_evict 2 1 1 (HASH (to_int 1)) pinned_cache)).
Proof.
  destruct bget_never_caches_twice as (Huniq & Hhit & _).
  split.
  - intros b2 x2 H2 Hd Hn A2.
    apply (Huniq 30%nat 1024%nat pinned_cache pinned_cache_reachable 29%nat b2
             (mkBuf 1 1 1 None 1 0 (replicate 1024 x00)) x2 pinned_cache_29 H2 Hd Hn).
    + left. discriminate.
    + exact A2.
  - apply (Hhit pinned_cache 2%nat 1 1 29%nat).
    + apply (Zle_bool_imp_le 0 (HASH (to_int 1))). reflexivity.
    + vm_compute. reflexivity.
Defined.

(** ** Commit, eviction, and reading back *)

Lemma disk_events_app e1 e2 : disk_events (e1 ++ e2) = disk_events e1 ++ disk_events e2.
Proof. unfold disk_events. apply List.filter_app. Qed.

Lemma disk_events_scan c : forall i, disk_events (scan_events c i) = [].
Proof. induction c as [|c IH]; intros i; [reflexivity|]. simpl. apply IH. Qed.

(** A caller that finds the sleep-lock free on an invalid buffer takes it
    and reads the block in. *)
Lemma finish_bread_reads pid p st y0 bs :
  bufs st = <[p := y0]> bs -> (p < length bs)%nat ->
  lock y0 = None -> valid y0 = 0 ->
  finish_bread (acquiresleep pid p st) =
    (Done (Held p),
     mkS (<[p := filled (disk st (dev y0) (blockno y0)) (set_lock (Some pid) y0)]> bs)
         (heads st) (disk st) (ticks st)
         (trace st ++ [AcquireSleep p; DiskRead (dev y0) (blockno y0)])).
Proof.
  intros Hst Hlt Hl Hv.
  assert (Hy : bufs st !! p = Some y0) by (rewrite Hst; apply list_lookup_insert_eq, Hlt).
  rewrite (acquiresleep_eq pid p st y0 Hy), Hl. unfold finish_bread.
  rewrite (bread_fill_eq p _ (set_lock (Some pid) y0)).
  - cbn [valid set_lock]. rewrite Hv. cbn [Z.eqb bufs heads disk ticks trace with_buf
                                            dev blockno].
    rewrite Hst, !insert_twice, <- app_assoc. reflexivity.
  - cbn [bufs with_buf]. rewrite Hst, insert_twice. apply list_lookup_insert_eq, Hlt.
Qed.

(** What the caller then has in hand. *)
Definition fresh_copy (pid : nat) (d n : Z) (s_e : state) (r : outcome got * state) : Prop :=
  exists b' y evs,
    fst r = Done (Held b') /\
    bufs (snd r) !! b' = Some y /\
    has_key d n y /\ valid y = 1 /\ lock y = Some pid /\
    data y = disk s_e d n /\
    disk (snd r) = disk s_e /\
    trace (snd r) = trace s_e ++ evs /\
    disk_events evs = [DiskRead d n].

Lemma fresh_copy_after pid d n s_e p st y0 E :
  bufs st = <[p := y0]> (bufs s_e) -> (p < length (bufs s_e))%nat ->
  lock y0 = None -> valid y0 = 0 -> has_key d n y0 ->
  disk st = disk s_e -> trace st = trace s_e ++ E -> disk_events E = [] ->
  fresh_copy pid d n s_e (finish_bread (acquiresleep pid p st)).
Proof.
  intros Hst Hlt Hl Hv [Hd Hn] Hdisk Htr HE.
  rewrite (finish_bread_reads pid p st y0 (bufs s_e) Hst Hlt Hl Hv).
  exists p, (filled (disk st (dev y0) (blockno y0)) (set_lock (Some pid) y0)),
    (E ++ [AcquireSleep p; DiskRead (dev y0) (blockno y0)]).
  cbn [fst snd bufs disk trace].
  split; [reflexivity|].
  split; [apply list_lookup_insert_eq, Hlt|].
  split; [split; assumption|]. split; [reflexivity|]. split; [reflexivity|].
  split; [cbn [data filled]; rewrite Hdisk, Hd, Hn; reflexivity|].
  split; [exact Hdisk|].
  split; [rewrite Htr, app_assoc; reflexivity|].
  rewrite disk_events_app, HE, Hd, Hn. reflexivity.
Qed.

(** C8.  The holder [pid] of buffer [b] writes [bytes] into it and calls
    [bwrite]: the call returns, with exactly one disk write, and the disk
    then holds [bytes] for the buffer's block.  Later, in any state where
    the disk still holds them, no valid buffer of the block's bucket has the
    key any more (the buffer was recycled for another block), some buffer
    can be recycled and the buffers concerned are not sleep-locked, [bread]
    of the block returns a buffer with the key, valid, whose data are
    [bytes], after exactly one disk read of that block and no disk write. *)
Theorem commit_evict_reread (pid b : nat) (x0 : buf) (bytes : list byte) (s : state)
    (Hx : bufs s !! b = Some x0)
    (Hheld : lock x0 = Some pid) :
  let d := dev x0 in
  let n := blockno x0 in
  exists s_w,
    bwrite pid b (write_data b bytes s) = (Done tt, s_w) /\
    disk s_w d n = bytes /\
    trace s_w = trace s ++ [DiskWrite d n bytes] /\
    forall s_e pid',
      0 <= HASH (to_int n) ->
      disk s_e d n = disk s_w d n ->
      (forall q y, q ∈ bucket (heads s_e) (HASH (to_int n)) ->
         bufs s_e !! q = Some y -> has_key d n y -> valid y = 0) ->
      (exists j q y, in_range j /\ q ∈ bucket (heads s_e) j /\
                     bufs s_e !! q = Some y /\ refcnt y = 0) ->
      (forall q y, bufs s_e !! q = Some y -> refcnt y = 0 \/ has_key d n y ->
                   lock y = None) ->
      exists b' y evs,
        bread pid' d n s_e = (Done (Held b'), snd (bread pid' d n s_e)) /\
        bufs (snd (bread pid' d n s_e)) !! b' = Some y /\
        has_key d n y /\ valid y = 1 /\ lock y = Some pid' /\
        data y = bytes /\
        disk (snd (bread pid' d n s_e)) = disk s_e /\
        trace (snd (bread pid' d n s_e)) = trace s_e ++ evs /\
        disk_events evs = [DiskRead d n].
Proof.
  intros d n.
  assert (Hlt : (b < length (bufs s))%nat) by (apply lookup_lt_is_Some; eauto).
  assert (Hw : virtio_disk_rw b true (write_data b bytes s) =
               mkS (<[b := set_data bytes x0]> (bufs s)) (heads s)
                   (fun d' n' => if (d' =? d) && (n' =? n) then bytes else disk s d' n')
                   (ticks s) (trace s ++ [DiskWrite d n bytes])).
  { unfold virtio_disk_rw, write_data. rewrite Hx. cbn [bufs set_buf].
    rewrite list_lookup_insert_eq by exact Hlt. reflexivity. }
  exists (virtio_disk_rw b true (write_data b bytes s)).
  split; [|split; [|split]].
  - unfold bwrite. unfold write_data at 1. rewrite Hx. cbn [bufs set_buf].
    rewrite list_lookup_insert_eq by exact Hlt.
    unfold holdingsleep. cbn [lock set_data]. rewrite bool_decide_eq_true_2 by exact Hheld.
    cbn [negb]. reflexivity.
  - rewrite Hw. cbn [disk]. rewrite !Z.eqb_refl. reflexivity.
  - rewrite Hw. reflexivity.
  - intros s_e pid' Hbid Hdisk Hevicted Hfree Hunlocked.
    assert (Hbytes : disk s_e d n = bytes).
    { rewrite Hdisk, Hw. cbn [disk]. rewrite !Z.eqb_refl. reflexivity. }
    assert (Hcopy : fresh_copy pid' d n s_e (bread pid' d n s_e)).
    { unfold bread. set (bid := HASH (to_int n)) in *.
      pose proof (HASH_range _ Hbid) as Hrange. fold bid in Hrange.
      destruct (walkb_cycle bid Hrange) as (Hend & Hnot & Hreach & Hin).
      destruct (bget_outcomes pid' d n s_e Hbid)
        as [(p & z & Hf & Hz & Hrun)|[(Hnc & k & p & z & Hold & Hrun)|
            [(Hnc & Hnf & c & k & p & z & Hc & Hbefore & Hold & Hrun)|
             (Hnc & Hnf & Hall & Hrun)]]]; fold bid in Hrun; rewrite Hrun.
      - destruct (find_cached_lookup _ _ _ _ _ Hf) as (z' & Hz' & Hkey & Hpin).
        rewrite Hz in Hz'. injection Hz' as <-.
        eapply (fresh_copy_after pid' d n s_e p _ (incref z)).
        + reflexivity.
        + apply lookup_lt_is_Some. eauto.
        + apply (Hunlocked p z Hz). right. exact Hkey.
        + apply (Hevicted p z Hpin Hz Hkey).
        + exact Hkey.
        + reflexivity.
        + reflexivity.
        + unfold first_look. simpl. reflexivity.
      - destruct (oldest_free_facts _ _ _ _ _ Hold) as (Hpin & Hz & Hplt & Hr).
        eapply (fresh_copy_after pid' d n s_e p _ (repurpose z d n)).
        + reflexivity.
        + exact Hplt.
        + apply (Hunlocked p z Hz). left. exact Hr.
        + reflexivity.
        + split; reflexivity.
        + reflexivity.
        + reflexivity.
        + reflexivity.
      - destruct (oldest_free_facts _ _ _ _ _ Hold) as (Hpin & Hz & Hplt & Hr).
        eapply (fresh_copy_after pid' d n s_e p _ (repurpose z d n)).
        + reflexivity.
        + exact Hplt.
        + apply (Hunlocked p z Hz). left. exact Hr.
        + reflexivity.
        + split; reflexivity.
        + reflexivity.
        + reflexivity.
        + unfold first_look, evict_head, evict_tail.
          rewrite !disk_events_app, disk_events_scan. reflexivity.
      - exfalso. destruct Hfree as (j & q & y & Hj & Hq & Hy & Hr).
        destruct (Z.eq_dec j bid) as [->|Hne].
        + exact (Hnf q y Hq Hy Hr).
        + destruct (Hreach j Hj Hne) as (c & Hc & <-). exact (Hall c Hc q y Hq Hy Hr). }
    destruct Hcopy as (b' & y & evs & H1 & H2 & H3 & H4 & H5 & H6 & H7 & H8 & H9).
    exists b', y, evs.
    split; [rewrite <- H1; apply surjective_pairing|].
    split; [exact H2|]. split; [exact H3|]. split; [exact H4|]. split; [exact H5|].
    split; [rewrite H6; exact Hbytes|]. split; [exact H7|]. split; [exact H8|exact H9].
Qed.

Lemma all_unlocked (bs : list buf) :
  forallb (fun y => bool_decide (lock y = None)) bs = true ->
  forall q y, bs !! q = Some y -> lock y = None.
Proof.
  intros H q y Hy. rewrite forallb_forall in H.
  apply (bool_decide_eq_true_1 (lock y = None)). apply H.
  apply (proj1 (list_elem_of_In _ _)). apply list_elem_of_lookup. eauto.
Qed.

Lemma held_cache_29 :
  bufs held_cache !! 29%nat = Some (mkBuf 1 1 1 (Some 1%nat) 1 0 (replicate 1024 x00)).
Proof. vm_compute. reflexivity. Defined.

Lemma evicted_cache_no_copy :
  forall q y, q ∈ bucket (heads evicted_cache) (HASH (to_int 1)) ->
    bufs evicted_cache !! q = Some y -> has_key 1 1 y -> valid y = 0.
Proof.
  intros q y Hq Hy [_ Hn]. exfalso.
  assert (Hb : bucket (heads evicted_cache) (HASH (to_int 1)) = [29%nat])
    by (vm_compute; reflexivity).
  rewrite Hb in Hq. apply list_elem_of_singleton in Hq. subst q.
  vm_compute in Hy. injection Hy as <-. discriminate Hn.
Defined.

Lemma evicted_cache_free :
  exists j q y, in_range j /\ q ∈ bucket (heads evicted_cache) j /\
                bufs evicted_cache !! q = Some y /\ refcnt y = 0.
Proof.
  exists 0, 28%nat, (zero_buf 1024).
  split; [split; [apply Z.le_refl|reflexivity]|].
  split; [apply list_elem_of_In; vm_compute; left; reflexivity|].
  split; [vm_compute; reflexivity|reflexivity].
Defined.

Lemma evicted_cache_unlocked :
  forall q y, bufs evicted_cache !! q = Some y -> refcnt y = 0 \/ has_key 1 1 y ->
              lock y = None.
Proof.
  intros q y Hy _. apply (all_unlocked (bufs evicted_cache)) with (q := q); [|exact Hy].
  vm_compute. reflexivity.
Defined.

Lemma commit_evict_reread_witness :
  exists b' y evs,
    fst (bread 2 1 1 evicted_cache) = Done (Held b') /\
    bufs (snd (bread 2 1 1 evicted_cache)) !! b' = Some y /\
    valid y = 1 /\ data y = new_bytes /\
    trace (snd (bread 2 1 1 evicted_cache)) = trace evicted_cache ++ evs /\
    disk_events evs = [DiskRead 1 1].
Proof.
  destruct (commit_evict_reread 1 29 (mkBuf 1 1 1 (Some 1%nat) 1 0 (replicate 1024 x00))
              new_bytes held_cache held_cache_29 eq_refl)
    as (s_w & Hw & Hdisk & _ & Hread).
  cbn [dev blockno] in Hw, Hdisk, Hread.
  assert (Hstill : disk evicted_cache 1 1 = disk s_w 1 1).
  { rewrite Hdisk. vm_compute. reflexivity. }
  destruct (Hread evicted_cache 2%nat
              (Zle_bool_imp_le 0 (HASH (to_int 1)) eq_refl) Hstill
              evicted_cache_no_copy evicted_cache_free evicted_cache_unlocked)
    as (b' & y & evs & H1 & H2 & _ & H4 & _ & H6 & _ & H8 & H9).
  exists b', y, evs.
  split; [rewrite H1; reflexivity|]. split; [exact H2|]. split; [exact H4|].
  split; [exact H6|]. split; [exact H8|exact H9].
Defined.

(* ===================================================================== *)
(** * Part V: further properties of kernel/kalloc.c                       *)
(* ===================================================================== *)

Lemma u32_zero_pred : u32 (1 - 1) = 0.
Proof. reflexivity. Qed.

(** X1.  [kalloc] followed by [kfree] of the page it returned: the page is back
    at the head of the free list, which is as it was before; its count is 0
    and no other count has changed; the page is filled with the byte 1
    beyond the [next] link and memory outside it is untouched. *)
Theorem kalloc_then_kfree (kend PHYSTOP : Z) (s : kstate) (r : Z) (rest : list Z)
    (Hok : freelist_ok kend PHYSTOP (freelist s))
    (Hcons : freelist s = r :: rest) :
  exists s1 s2,
    kalloc s = (r, s1) /\
    kfree kend PHYSTOP r s1 = Done s2 /\
    freelist s2 = freelist s /\
    ref s2 (r / PGSIZE) = 0 /\
    (forall j, j <> r / PGSIZE -> ref s2 j = ref s j) /\
    (forall a, r + 8 <= a < r + PGSIZE -> mem s2 a = 1) /\
    (forall a, ~ (r <= a < r + PGSIZE) -> mem s2 a = mem s a).
Proof.
  destruct Hok as [_ Hall]. rewrite Hcons in Hall.
  apply Forall_cons in Hall as [(Hr0 & Hal & Hlo & Hhi) _].
  do 2 eexists. split; [apply kalloc_cons, Hcons|].
  split.
  { apply kfree_last; try assumption. simpl. rewrite upd_same. reflexivity. }
  simpl. split; [symmetry; exact Hcons|].
  split; [apply upd_same|].
  split; [intros j Hj; rewrite !upd_other by exact Hj; reflexivity|].
  split.
  - intros a Ha. unfold PGSIZE in *. rewrite store64_out by lia. apply memset_in. lia.
  - intros a Ha. unfold PGSIZE in *. rewrite store64_out by lia.
    rewrite !memset_out by exact Ha. reflexivity.
Qed.

Lemma kalloc_then_kfree_witness :
  exists s1 s2,
    kalloc cow_demo_state = (2147745792, s1) /\
    kfree 2147618816 2281701376 2147745792 s1 = Done s2 /\
    freelist s2 = freelist cow_demo_state.
Proof.
  destruct (kalloc_then_kfree 2147618816 2281701376 cow_demo_state 2147745792 []
              cow_demo_freelist_ok eq_refl) as (s1 & s2 & H1 & H2 & H3 & _).
  exists s1, s2. split; [exact H1|]. split; [exact H2|exact H3].
Defined.

(** X2.  Freeing a page twice: the first [kfree] of a page with count 1 puts it
    on the free list; the second one wraps the count round to 2^32 - 1 and
    therefore leaves the free list and memory alone (the page is not put on
    the list a second time). *)
Theorem kfree_twice (kend PHYSTOP pa : Z) (s : kstate)
    (Hal : pa mod PGSIZE = 0) (Hlo : kend <= pa) (Hhi : pa + PGSIZE <= PHYSTOP)
    (Hone : ref s (pa / PGSIZE) = 1) :
  exists s1 s2,
    kfree kend PHYSTOP pa s = Done s1 /\
    kfree kend PHYSTOP pa s1 = Done s2 /\
    freelist s1 = pa :: freelist s /\
    freelist s2 = freelist s1 /\
    mem s2 = mem s1 /\
    ref s1 (pa / PGSIZE) = 0 /\
    ref s2 (pa / PGSIZE) = 2 ^ 32 - 1.
Proof.
  do 2 eexists. split.
  { apply kfree_last; try assumption. rewrite Hone. reflexivity. }
  split.
  { apply kfree_shared; try assumption. simpl. rewrite upd_same. discriminate. }
  simpl. rewrite !upd_same. repeat split.
Qed.

Lemma kfree_twice_witness :
  exists s1 s2,
    kfree 2147618816 2281701376 2147749888 (mkK [] (fun _ => 1) (fun _ => 0)) = Done s1 /\
    kfree 2147618816 2281701376 2147749888 s1 = Done s2 /\
    freelist s2 = [2147749888] /\
    ref s2 (2147749888 / PGSIZE) = 2 ^ 32 - 1.
Proof.
  destruct (kfree_twice 2147618816 2281701376 2147749888
              (mkK [] (fun _ => 1) (fun _ => 0)) eq_refl
              ltac:(lia) ltac:(unfold PGSIZE; lia) eq_refl)
    as (s1 & s2 & H1 & H2 & H3 & H4 & _ & _ & H7).
  exists s1, s2. split; [exact H1|]. split; [exact H2|].
  split; [rewrite H4, H3; reflexivity|exact H7].
Defined.

(** The allocator's invariant: the free list is well formed and every page
    on it has count 0. *)
Definition pool_ok (kend PHYSTOP : Z) (s : kstate) : Prop :=
  freelist_ok kend PHYSTOP (freelist s) /\
  (forall r, r ∈ freelist s -> ref s (r / PGSIZE) = 0).

Lemma freerange_loop_pool kend PHYSTOP pa_end :
  pa_end <= PHYSTOP ->
  forall fuel p s,
    p mod PGSIZE = 0 -> 0 < p -> kend <= p ->
    (Z.to_nat ((pa_end - p) / PGSIZE) < fuel)%nat ->
    pool_ok kend PHYSTOP s -> (forall r, r ∈ freelist s -> r < p) ->
    exists s', freerange_loop kend PHYSTOP fuel p pa_end s = Done s' /\
               pool_ok kend PHYSTOP s'.
Proof.
  intros Hend. induction fuel as [|fuel IH]; intros p s Hal Hp0 Hk Hf Hpool Hbelow; [lia|].
  simpl. destruct (Z.leb_spec (p + PGSIZE) pa_end) as [Hle|Hgt].
  - rewrite freerange_round by (try assumption; lia). simpl.
    assert (Hdiv : (pa_end - p) / PGSIZE = (pa_end - (p + PGSIZE)) / PGSIZE + 1).
    { replace (pa_end - p) with ((pa_end - (p + PGSIZE)) + 1 * PGSIZE) by lia.
      rewrite Z.div_add by (unfold PGSIZE; lia). reflexivity. }
    assert (Hnn : 0 <= (pa_end - (p + PGSIZE)) / PGSIZE).
    { apply Z.div_pos; unfold PGSIZE in *; lia. }
    apply IH.
    + unfold PGSIZE in *. rewrite <- Zplus_mod_idemp_l, Hal. reflexivity.
    + unfold PGSIZE. lia.
    + unfold PGSIZE. lia.
    + rewrite Hdiv in Hf. lia.
    + destruct Hpool as [[Hnd Hall] Hzero]. split; [split|]; simpl.
      * apply NoDup_cons. split; [|exact Hnd].
        intros Hin. specialize (Hbelow p Hin). lia.
      * apply Forall_cons. split; [|exact Hall].
        split; [lia|]. split; [exact Hal|]. split; [exact Hk|lia].
      * intros r Hr. apply elem_of_cons in Hr as [->|Hr]; [apply upd_same|].
        rewrite Forall_forall in Hall. destruct (Hall r Hr) as (_ & Hral & _).
        assert (Hne : r <> p) by (specialize (Hbelow r Hr); lia).
        destruct (aligned_pages_apart r p Hral Hal Hne) as [Hidx _].
        rewrite !upd_other by exact Hidx. apply Hzero, Hr.
    + simpl. intros r Hr. apply elem_of_cons in Hr as [->|Hr].
      * unfold PGSIZE. lia.
      * specialize (Hbelow r Hr). unfold PGSIZE. lia.
  - exists s. split; [reflexivity|exact Hpool].
Qed.

(** X3.  [kinit] establishes the invariant, and [kalloc] and the [kfree] of an
    allocated page (count at least 1) keep it: a page is on the free list
    only with count 0, at most once, page-aligned and inside the managed
    range. *)
Theorem pool_invariant (kend PHYSTOP : Z)
    (H0 : 0 < kend) (H1 : kend + PGSIZE - 1 < 2 ^ 64) (H2 : kend <= PHYSTOP) :
  (forall m0, exists s0, kinit kend PHYSTOP m0 = Done s0 /\ pool_ok kend PHYSTOP s0) /\
  (forall s, pool_ok kend PHYSTOP s -> pool_ok kend PHYSTOP (snd (kalloc s))) /\
  (forall s pa,
     pool_ok kend PHYSTOP s ->
     pa mod PGSIZE = 0 -> kend <= pa -> pa + PGSIZE <= PHYSTOP ->
     1 <= ref s (pa / PGSIZE) < 2 ^ 32 ->
     exists s', kfree kend PHYSTOP pa s = Done s' /\ pool_ok kend PHYSTOP s').
Proof.
  split; [|split].
  - intros m0. unfold kinit, freerange.
    destruct (PGROUNDUP_bounds kend) as [Hb Hal]; [lia|assumption|].
    apply (freerange_loop_pool kend PHYSTOP PHYSTOP (Z.le_refl _)); try assumption; try lia.
    + split; [split; [constructor|constructor]|]. intros r Hr. inversion Hr.
    + intros r Hr. inversion Hr.
  - intros s [[Hnd Hall] Hzero]. unfold kalloc.
    destruct (freelist s) as [|r rest] eqn:Hf; simpl.
    + unfold pool_ok, freelist_ok. rewrite Hf. split; [split|]; assumption.
    + apply NoDup_cons in Hnd as [Hr Hnd]. apply Forall_cons in Hall as [(_ & Hral & _) Hall].
      unfold pool_ok. cbn [snd freelist ref].
      split; [split; assumption|]. intros q Hq.
      rewrite Forall_forall in Hall. destruct (Hall q Hq) as (_ & Hqal & _).
      assert (Hne : q <> r) by (intros ->; contradiction).
      destruct (aligned_pages_apart q r Hqal Hral Hne) as [Hidx _].
      rewrite upd_other by exact Hidx. apply Hzero. right. exact Hq.
  - intros s pa [[Hnd Hall] Hzero] Hal Hlo Hhi Href.
    assert (Hnotin : pa ∉ freelist s).
    { intros Hin. specialize (Hzero pa Hin). lia. }
    assert (Hothers : forall r, r ∈ freelist s -> r / PGSIZE <> pa / PGSIZE).
    { intros r Hr. rewrite Forall_forall in Hall. destruct (Hall r Hr) as (_ & Hral & _).
      assert (Hne : r <> pa) by (intros ->; contradiction).
      apply (aligned_pages_apart r pa Hral Hal Hne). }
    destruct (Z.eq_dec (ref s (pa / PGSIZE)) 1) as [Hone|Hmore].
    + eexists. split; [apply kfree_last; try assumption; rewrite Hone; reflexivity|].
      split; [split|]; simpl.
      * apply NoDup_cons. split; assumption.
      * apply Forall_cons. split; [|exact Hall].
        split; [lia|]. split; [exact Hal|]. split; assumption.
      * intros r Hr. apply elem_of_cons in Hr as [->|Hr]; [apply upd_same|].
        rewrite upd_other by (apply Hothers, Hr). apply Hzero, Hr.
    + eexists. split.
      { apply kfree_shared; try assumption. rewrite u32_pred by lia. lia. }
      split; [split; assumption|]. simpl. intros r Hr.
      rewrite upd_other by (apply Hothers, Hr). apply Hzero, Hr.
Qed.

Lemma pool_invariant_witness :
  exists s0, kinit 2147618816 2281701376 (fun _ => 0) = Done s0 /\
             pool_ok 2147618816 2281701376 s0.
Proof.
  apply (proj1 (pool_invariant 2147618816 2281701376 ltac:(lia) ltac:(unfold PGSIZE; lia)
                  ltac:(lia)) (fun _ => 0)).
Defined.

Lemma land_bit_zero a k : 0 <= k -> (Z.land a (Z.shiftl 1 k) = 0 <-> Z.testbit a k = false).
Proof.
  intros Hk. pose proof (land_bit_nonzero a k Hk) as H.
  destruct (Z.testbit a k); split; intros Hx; try reflexivity; try discriminate.
  - exfalso. apply (proj2 H); [reflexivity|exact Hx].
  - destruct (Z.eq_dec (Z.land a (Z.shiftl 1 k)) 0) as [|Hne]; [assumption|].
    apply H in Hne. discriminate.
Qed.

Lemma rounddown_below_MAXVA va : PGROUNDDOWN va < MAXVA -> (MAXVA <=? va) = false.
Proof.
  rewrite PGROUNDDOWN_eq. unfold MAXVA, PGSIZE. change (2 ^ 38) with 274877906944.
  intros H. apply Z.leb_gt.
  pose proof (Z.div_mod va 4096). pose proof (Z.mod_pos_bound va 4096). lia.
Qed.

(** An entry that is valid, for user mode, with the copy-on-write flag
    clear: [walkaddr] resolves it and [cowpage] says it is not a
    copy-on-write page. *)
Lemma plain_entry_lookups fbit pt va pte' :
  0 <= fbit -> PGROUNDDOWN va < MAXVA ->
  pt !! (va / PGSIZE) = Some pte' ->
  Z.testbit pte' 0 = true -> Z.testbit pte' 4 = true -> Z.testbit pte' fbit = false ->
  cowpage fbit pt va = -1 /\ walkaddr pt (PGROUNDDOWN va) = PTE2PA pte'.
Proof.
  intros Hf Hva Hpt HV HU HF.
  assert (EV : (Z.land pte' PTE_V =? 0) = false).
  { apply Z.eqb_neq. change PTE_V with (Z.shiftl 1 0). apply land_bit_nonzero; [lia|exact HV]. }
  assert (EU : (Z.land pte' PTE_U =? 0) = false).
  { apply Z.eqb_neq. change PTE_U with (Z.shiftl 1 4). apply land_bit_nonzero; [lia|exact HU]. }
  assert (EF : (Z.land pte' (PTE_F fbit) =? 0) = true).
  { apply Z.eqb_eq. unfold PTE_F. apply land_bit_zero; assumption. }
  split.
  - unfold cowpage, walk. rewrite (rounddown_below_MAXVA va Hva), Hpt, EV, EF. reflexivity.
  - unfold walkaddr, walk. rewrite vpn_rounddown, Hpt, EV, EU.
    destruct (Z.leb_spec MAXVA (PGROUNDDOWN va)); [lia|reflexivity].
Qed.

(** X4.  Once [cowalloc] has returned a page, the fault is resolved: the entry
    of [va] maps the returned page, is writable, and is no longer a
    copy-on-write entry, so [cowpage] answers -1 and [walkaddr] gives the
    returned page. *)
Theorem cowalloc_resolves_fault (fbit kend PHYSTOP : Z) (pt : gmap Z Z) (va pte : Z)
    (s : kstate) (ok : bool) (ret : Z) (pt' : gmap Z Z) (s' : kstate)
    (Hf : fbit = 8 \/ fbit = 9)
    (Hres : resolvable kend PHYSTOP pt va pte)
    (Hfl : freelist_ok kend PHYSTOP (freelist s))
    (Hna : PTE2PA pte ∉ freelist s)
    (Href : 1 <= ref s (PTE2PA pte / PGSIZE) < 2 ^ 32)
    (Hrun : cowalloc fbit ok kend PHYSTOP pt va s = Done (ret, pt', s'))
    (Hret : ret <> 0) :
  cowpage fbit pt' va = -1 /\
  walkaddr pt' (PGROUNDDOWN va) = ret /\
  exists pte', pt' !! (va / PGSIZE) = Some pte' /\
               Z.testbit pte' 2 = true /\ PTE2PA pte' = ret.
Proof.
  assert (Hf0 : 0 <= fbit) by lia.
  pose proof Hres as (Hva & Hpt & Hnn & HV & HU & Hlo & Hhi & Hnz).
  assert (BV : Z.testbit pte 0 = true).
  { change PTE_V with (Z.shiftl 1 0) in HV. apply land_bit_nonzero in HV; [exact HV|lia]. }
  assert (BU : Z.testbit pte 4 = true).
  { change PTE_U with (Z.shiftl 1 4) in HU. apply land_bit_nonzero in HU; [exact HU|lia]. }
  assert (Hfinish : forall pte', pt' = <[va / PGSIZE := pte']> pt ->
            Z.testbit pte' 0 = true -> Z.testbit pte' 4 = true ->
            Z.testbit pte' fbit = false -> Z.testbit pte' 2 = true ->
            PTE2PA pte' = ret ->
            cowpage fbit pt' va = -1 /\ walkaddr pt' (PGROUNDDOWN va) = ret /\
            exists q, pt' !! (va / PGSIZE) = Some q /\ Z.testbit q 2 = true /\
                      PTE2PA q = ret).
  { intros pte' -> T0 T4 TF T2 TP.
    assert (Hl : <[va / PGSIZE := pte']> pt !! (va / PGSIZE) = Some pte')
      by apply lookup_insert_eq.
    destruct (plain_entry_lookups fbit _ va pte' Hf0 Hva Hl T0 T4 TF) as [C1 C2].
    split; [exact C1|]. split; [rewrite C2; exact TP|]. exists pte'. auto. }
  destruct (Z.eq_dec (ref s (PTE2PA pte / PGSIZE)) 1) as [Hone|Hmore].
  - rewrite (cowalloc_sole fbit ok kend PHYSTOP pt va pte s Hres Hone) in Hrun.
    injection Hrun as <- <- <-.
    eapply Hfinish; [reflexivity|..]; unfold PTE_F; change PTE_W with (Z.shiftl 1 2).
    + rewrite clear_bit_spec, set_bit_spec, BV by lia.
      destruct (Z.eqb_spec 0 fbit); [lia|reflexivity].
    + rewrite clear_bit_spec, set_bit_spec, BU by lia.
      destruct (Z.eqb_spec 4 fbit); [lia|reflexivity].
    + rewrite clear_bit_spec by lia. rewrite Z.eqb_refl. apply andb_false_r.
    + rewrite clear_bit_spec, set_bit_spec by lia.
      destruct (Z.eqb_spec 2 fbit); [lia|]. rewrite orb_true_r. reflexivity.
    + apply Z.bits_inj'. intros n Hn. rewrite !PTE2PA_bits by lia.
      destruct (Z.ltb_spec n 12); [reflexivity|].
      rewrite clear_bit_spec, set_bit_spec by lia.
      destruct (Z.eqb_spec (n - 2) 2); [lia|].
      destruct (Z.eqb_spec (n - 2) fbit); [lia|].
      simpl. rewrite orb_false_r, andb_true_r. reflexivity.
  - destruct (freelist s) as [|m rest] eqn:Hcons.
    { rewrite (cowalloc_nomem fbit ok kend PHYSTOP pt va pte s Hres Hmore Hcons) in Hrun.
      injection Hrun as <- _ _. contradiction Hret. reflexivity. }
    destruct Hfl as [Hnd Hall].
    apply Forall_cons in Hall as [(Hm0 & Hmal & Hmlo & Hmhi) _].
    assert (Hmpa : m <> PTE2PA pte).
    { intros ->. apply Hna. apply elem_of_cons. left. reflexivity. }
    destruct (PTE2PA_aligned pte Hnn) as [Hpal _].
    destruct (aligned_pages_apart m (PTE2PA pte) Hmal Hpal Hmpa) as [Hidx _].
    rewrite (cowalloc_shared fbit ok kend PHYSTOP pt va pte s m rest Hres Hmore Hcons Hm0)
      in Hrun.
    cbv zeta in Hrun. destruct ok.
    + rewrite kfree_shared in Hrun; try assumption.
      * simpl in Hrun. injection Hrun as <- <- <-.
        eapply Hfinish; [reflexivity| | | | |].
        -- rewrite new_entry_bits by lia. apply orb_true_r.
        -- rewrite new_entry_bits, perm_bits by lia.
           change PTE_V with (Z.shiftl 1 0). rewrite clear_bit_spec, BU by lia.
           destruct (Z.eqb_spec 4 fbit); [lia|reflexivity].
        -- rewrite new_entry_bits, perm_bits by lia. rewrite Z.eqb_refl.
           destruct (Z.ltb_spec fbit 10); [|lia].
           destruct (Z.eqb_spec fbit 0); [lia|]. rewrite andb_false_r. reflexivity.
        -- rewrite new_entry_bits, perm_bits by lia.
           destruct (Z.eqb_spec 2 fbit); [lia|]. simpl. rewrite !orb_true_r. reflexivity.
        -- apply new_entry_maps; [lia|exact Hmal].
      * simpl. rewrite upd_other by (intros Hc; apply Hidx; symmetry; exact Hc).
        rewrite u32_pred by lia. lia.
    + rewrite kfree_last in Hrun; try assumption.
      * simpl in Hrun. injection Hrun as <- _ _. contradiction Hret. reflexivity.
      * simpl. rewrite upd_same. reflexivity.
Qed.

Lemma cowalloc_resolves_fault_witness :
  exists ret pt' s',
    cowalloc 8 true 2147618816 2281701376 cow_demo_pt 0 cow_demo_state =
      Done (ret, pt', s') /\
    cowpage 8 cow_demo_pt 0 = 0 /\
    cowpage 8 pt' 0 = -1 /\ walkaddr pt' (PGROUNDDOWN 0) = ret.
Proof.
  assert (Hd : match cowalloc 8 true 2147618816 2281701376 cow_demo_pt 0 cow_demo_state with
               | Done (r, _, _) => r = 2147745792
               | _ => False
               end) by (vm_compute; reflexivity).
  destruct (cowalloc 8 true 2147618816 2281701376 cow_demo_pt 0 cow_demo_state)
    as [[[ret pt'] s']| | |] eqn:Hrun; try contradiction.
  rename Hd into Hret.
  exists ret, pt', s'. split; [reflexivity|]. split; [reflexivity|].
  assert (Href : 1 <= ref cow_demo_state (PTE2PA cow_demo_pte / PGSIZE) < 2 ^ 32)
    by (split; [vm_compute; discriminate|vm_compute; reflexivity]).
  assert (Hnz : ret <> 0) by (rewrite Hret; discriminate).
  destruct (cowalloc_resolves_fault 8 2147618816 2281701376 cow_demo_pt 0 cow_demo_pte
              cow_demo_state true ret pt' s' (or_introl eq_refl) cow_demo_resolvable
              cow_demo_freelist_ok cow_demo_allocated Href Hrun Hnz) as (C1 & C2 & _).
  split; assumption.
Defined.

(** X5.  Two address spaces share a page with count 2.  A write fault in the
    first one gets a copy: the count of the shared page drops to 1 and its
    bytes stay as they were.  A write fault in the second one then allocates
    nothing: it gets the shared page itself, the allocator state unchanged,
    whether or not [mappages] would have succeeded. *)
Theorem cow_second_fault_in_place (fbit kend PHYSTOP : Z) (pt1 pt2 : gmap Z Z)
    (va1 va2 pte1 pte2 : Z) (s : kstate) (m : Z) (rest : list Z)
    (Hres1 : resolvable kend PHYSTOP pt1 va1 pte1)
    (Hres2 : resolvable kend PHYSTOP pt2 va2 pte2)
    (Hsame : PTE2PA pte1 = PTE2PA pte2)
    (Hfl : freelist_ok kend PHYSTOP (freelist s))
    (Hna : PTE2PA pte1 ∉ freelist s)
    (Htwo : ref s (PTE2PA pte1 / PGSIZE) = 2)
    (Hcons : freelist s = m :: rest) :
  let pa := PTE2PA pte1 in
  exists pte1' pte2' s1,
    cowalloc fbit true kend PHYSTOP pt1 va1 s =
      Done (m, <[va1 / PGSIZE := pte1']> pt1, s1) /\
    ref s1 (pa / PGSIZE) = 1 /\
    freelist s1 = rest /\
    (forall a, pa <= a < pa + PGSIZE -> mem s1 a = mem s a) /\
    (forall off, 0 <= off < PGSIZE -> mem s1 (m + off) = mem s (pa + off)) /\
    forall ok,
      cowalloc fbit ok kend PHYSTOP pt2 va2 s1 =
        Done (pa, <[va2 / PGSIZE := pte2']> pt2, s1).
Proof.
  intros pa. subst pa.
  destruct Hfl as [Hnd Hall]. rewrite Hcons in Hnd, Hall, Hna.
  apply Forall_cons in Hall as [(Hm0 & Hmal & Hmlo & Hmhi) _].
  assert (Hmpa : m <> PTE2PA pte1).
  { intros ->. apply Hna. apply elem_of_cons. left. reflexivity. }
  pose proof Hres1 as (_ & _ & Hnn & _ & _ & Hlo & Hhi & _).
  destruct (PTE2PA_aligned pte1 Hnn) as [Hpal _].
  destruct (aligned_pages_apart m (PTE2PA pte1) Hmal Hpal Hmpa) as [Hidx Hapart].
  assert (Hidx' : PTE2PA pte1 / PGSIZE <> m / PGSIZE) by (intros Hc; apply Hidx; symmetry; exact Hc).
  assert (Hrun1 : cowalloc fbit true kend PHYSTOP pt1 va1 s =
            Done (m, <[va1 / PGSIZE :=
                        Z.lor (Z.lor (PA2PTE m)
                          (Z.land (Z.lor (PTE_FLAGS (Z.land pte1 (Z.lnot PTE_V))) PTE_W)
                                  (Z.lnot (PTE_F fbit)))) PTE_V]> pt1,
                  mkK rest (upd (upd (ref s) (m / PGSIZE) 1) (PTE2PA pte1 / PGSIZE) 1)
                      (memmove (memset (mem s) m 5 PGSIZE) m (PTE2PA pte1) PGSIZE))).
  { rewrite (cowalloc_shared fbit true kend PHYSTOP pt1 va1 pte1 s m rest Hres1)
      by (try assumption; lia).
    cbv zeta. rewrite kfree_shared; try assumption.
    - simpl. rewrite (upd_other _ _ _ _ Hidx'), Htwo. reflexivity.
    - simpl. rewrite (upd_other _ _ _ _ Hidx'), Htwo. discriminate. }
  do 3 eexists. split; [exact Hrun1|]. simpl.
  split; [apply upd_same|]. split; [reflexivity|].
  split.
  { intros a Ha. unfold PGSIZE in *. rewrite memmove_out by lia. apply memset_out. lia. }
  split.
  { intros off Hoff. rewrite memmove_in by lia.
    replace (m + off - m) with off by lia. apply memset_out. unfold PGSIZE in *. lia. }
  intros ok. rewrite Hsame.
  apply (cowalloc_sole fbit ok kend PHYSTOP pt2 va2 pte2 _ Hres2).
  simpl. rewrite <- Hsame. apply upd_same.
Qed.

Lemma cow_second_fault_in_place_witness :
  exists pte1' pte2' s1,
    cowalloc 8 true 2147618816 2281701376 cow_demo_pt 0 cow_demo_state =
      Done (2147745792, <[0 / PGSIZE := pte1']> cow_demo_pt, s1) /\
    ref s1 (PTE2PA cow_demo_pte / PGSIZE) = 1 /\
    cowalloc 8 false 2147618816 2281701376 cow_demo_pt 0 s1 =
      Done (PTE2PA cow_demo_pte, <[0 / PGSIZE := pte2']> cow_demo_pt, s1).
Proof.
  destruct (cow_second_fault_in_place 8 2147618816 2281701376 cow_demo_pt cow_demo_pt
              0 0 cow_demo_pte cow_demo_pte cow_demo_state 2147745792 []
              cow_demo_resolvable cow_demo_resolvable eq_refl cow_demo_freelist_ok
              cow_demo_allocated eq_refl eq_refl)
    as (p1 & p2 & s1 & H1 & H2 & _ & _ & _ & H6).
  exists p1, p2, s1. split; [exact H1|]. split; [exact H2|apply H6].
Defined.

(** X6.  [cowalloc] on an address it cannot resolve (beyond [MAXVA], no entry,
    entry not valid, not a user entry, or mapping physical address 0)
    returns the null pointer and changes neither the address space nor the
    allocator, whatever the counts and the free list are. *)
Theorem cowalloc_refuses_unmapped (fbit : Z) (ok : bool) (kend PHYSTOP : Z)
    (pt : gmap Z Z) (va : Z) (s : kstate) :
  MAXVA <= PGROUNDDOWN va \/
  pt !! (va / PGSIZE) = None \/
  (exists pte, pt !! (va / PGSIZE) = Some pte /\
               (Z.land pte PTE_V = 0 \/ Z.land pte PTE_U = 0 \/ PTE2PA pte = 0)) ->
  cowalloc fbit ok kend PHYSTOP pt va s = Done (0, pt, s).
Proof.
  intros H. unfold cowalloc.
  assert (Hwa : walkaddr pt (PGROUNDDOWN va) = 0).
  { unfold walkaddr, walk. rewrite vpn_rounddown.
    destruct (Z.leb_spec MAXVA (PGROUNDDOWN va)) as [|Hlt]; [reflexivity|].
    destruct H as [H|[H|(pte & Hpt & H)]]; [lia|rewrite H; reflexivity|].
    rewrite Hpt. destruct H as [H|[H|H]].
    - rewrite H. reflexivity.
    - destruct (Z.land pte PTE_V =? 0); [reflexivity|]. rewrite H. reflexivity.
    - destruct (Z.land pte PTE_V =? 0); [reflexivity|].
      destruct (Z.land pte PTE_U =? 0); [reflexivity|exact H]. }
  rewrite Hwa. reflexivity.
Qed.

Lemma cowalloc_refuses_unmapped_witness :
  cowalloc 8 true 2147618816 2281701376 cow_demo_pt 4096 cow_demo_state =
    Done (0, cow_demo_pt, cow_demo_state).
Proof.
  apply cowalloc_refuses_unmapped. right. left. reflexivity.
Defined.

(** X7.  After [kinit] the pool is handed out from the top: [N] calls of
    [kalloc] return the pages [p0 + (N-1) * PGSIZE], ..., [p0 + PGSIZE],
    [p0], in that order, where [p0] is [end] rounded up to a page and [N]
    the number of whole pages between [p0] and [PHYSTOP]. *)
Theorem kinit_allocation_order (kend PHYSTOP : Z) (m0 : memory)
    (H0 : 0 < kend) (H1 : kend + PGSIZE - 1 < 2 ^ 64) (H2 : kend <= PHYSTOP) :
  exists s0,
    kinit kend PHYSTOP m0 = Done s0 /\
    let p0 := PGROUNDUP kend in
    let N := Z.to_nat ((PHYSTOP - p0) / PGSIZE) in
    fst (kalloc_n N s0) = rev (pages_from p0 N) /\
    (forall k, (k < N)%nat ->
       fst (kalloc_n N s0) !! k = Some (p0 + Z.of_nat (N - 1 - k) * PGSIZE)).
Proof.
  destruct (kinit_pool kend PHYSTOP m0 H0 H1 H2) as (s0 & Hs0 & Hfl).
  exists s0. split; [exact Hs0|]. cbv zeta.
  set (p0 := PGROUNDUP kend) in *. set (N := Z.to_nat ((PHYSTOP - p0) / PGSIZE)) in *.
  assert (Hlen : length (freelist s0) = N) by (rewrite Hfl, length_rev; apply pages_from_length).
  destruct (kalloc_n_take N s0) as [Ht _]; [rewrite Hlen; apply Nat.le_refl|].
  rewrite <- Hlen in Ht at 2. rewrite firstn_all in Ht. rewrite Ht, Hfl.
  split; [reflexivity|].
  assert (Hnth : forall n p k, (k < n)%nat ->
            pages_from p n !! k = Some (p + Z.of_nat k * PGSIZE)).
  { induction n as [|n IH]; intros p k Hk; [lia|]. destruct k as [|k]; simpl.
    - f_equal. lia.
    - rewrite IH by lia. f_equal. lia. }
  intros k Hk.
  rewrite rev_alt. change (rev_append (pages_from p0 N) []) with (reverse (pages_from p0 N)).
  rewrite reverse_lookup by (rewrite pages_from_length; exact Hk).
  rewrite pages_from_length, Hnth by lia. do 3 f_equal. lia.
Qed.

Lemma kinit_allocation_order_witness :
  exists s0,
    kinit 2147618816 2281701376 (fun _ => 0) = Done s0 /\
    let p0 := PGROUNDUP 2147618816 in
    let N := Z.to_nat ((2281701376 - p0) / PGSIZE) in
    fst (kalloc_n N s0) = rev (pages_from p0 N) /\
    (forall k, (k < N)%nat ->
       fst (kalloc_n N s0) !! k = Some (p0 + Z.of_nat (N - 1 - k) * PGSIZE)).
Proof.
  apply (kinit_allocation_order 2147618816 2281701376 (fun _ => 0));
    unfold PGSIZE; lia.
Defined.

(* ===================================================================== *)
(** * Part VI: further properties of kernel/bio.c                         *)
(* ===================================================================== *)

(** ** [HASH] and block numbers *)

(** X8.  For a block number below 2^31 the bucket is the block number modulo
    13.  From 2^31 on the conversion to [int] makes it negative and [HASH]
    gives minus the remainder of its absolute value; unless that remainder
    is zero, [bget] indexes [bcache.lock] below the array. *)
Theorem HASH_of_blockno (n : Z) :
  (0 <= n < 2 ^ 31 ->
   HASH (to_int n) = n mod 13 /\ 0 <= HASH (to_int n) < NBUCKET) /\
  (2 ^ 31 <= n < 2 ^ 32 ->
   HASH (to_int n) = - ((2 ^ 32 - n) mod 13) /\
   ((2 ^ 32 - n) mod 13 <> 0 ->
    forall pid d s, bget pid d n s = (OutOfBounds, s))).
Proof.
  split.
  - intros Hn. unfold to_int, u32.
    rewrite Z.mod_small by lia.
    destruct (Z.ltb_spec n (2 ^ 31)); [|lia].
    unfold HASH, NBUCKET. rewrite Z.rem_mod_nonneg by lia.
    split; [reflexivity|]. apply Z.mod_pos_bound. lia.
  - intros Hn.
    assert (Hh : HASH (to_int n) = - ((2 ^ 32 - n) mod 13)).
    { unfold to_int, u32. rewrite Z.mod_small by lia.
      destruct (Z.ltb_spec n (2 ^ 31)); [lia|].
      unfold HASH, NBUCKET.
      replace (n - 2 ^ 32) with (- (2 ^ 32 - n)) by lia.
      rewrite Z.rem_opp_l by lia. rewrite Z.rem_mod_nonneg by lia. reflexivity. }
    split; [exact Hh|].
    intros Hne pid d s. apply bget_out_of_bounds. rewrite Hh.
    pose proof (Z.mod_pos_bound (2 ^ 32 - n) 13 ltac:(lia)). lia.
Qed.

Lemma HASH_of_blockno_witness :
  (HASH (to_int 31) = 31 mod 13 /\ 0 <= HASH (to_int 31) < NBUCKET) /\
  (HASH (to_int 4294967295) = - ((2 ^ 32 - 4294967295) mod 13) /\
   forall pid d s, bget pid d 4294967295 s = (OutOfBounds, s)).
Proof.
  split.
  - apply (proj1 (HASH_of_blockno 31)). lia.
  - destruct (proj2 (HASH_of_blockno 4294967295) ltac:(lia)) as [Hh Hb].
    split; [exact Hh|]. apply Hb. discriminate.
Defined.

(** ** [binit] *)

(** X9.  [binit] leaves every buffer zeroed and unlocked, all of them on the
    list of bucket 0 with the last buffer of the array first, the twelve
    other lists empty, and the cache invariant established. *)
Theorem binit_layout (nbuf bsize : nat) (dsk : Z -> Z -> list byte) (t : Z) :
  let s := binit nbuf bsize dsk t in
  length (bufs s) = nbuf /\
  (forall b, (b < nbuf)%nat -> bufs s !! b = Some (zero_buf bsize)) /\
  length (heads s) = Z.to_nat NBUCKET /\
  bucket (heads s) 0 = rev (seq 0 nbuf) /\
  (forall i, 0 < i < NBUCKET -> bucket (heads s) i = []) /\
  trace s = [] /\
  ok s.
Proof.
  cbv zeta. split; [apply length_replicate|].
  split; [intros b Hb; apply lookup_replicate_2, Hb|].
  unfold binit at 1 2 3 4. cbn [heads trace]. rewrite binit_heads_eq.
  split; [reflexivity|]. split; [reflexivity|].
  split; [intros i Hi; apply bucket_empty_tail; lia|].
  split; [reflexivity|apply binit_ok].
Qed.

Lemma binit_layout_witness :
  bufs fresh_cache !! 29%nat = Some (zero_buf 1024) /\
  bucket (heads fresh_cache) 5 = [].
Proof.
  destruct (binit_layout 30 1024 (fun _ _ => replicate 1024 x00) 0)
    as (_ & Hb & _ & _ & He & _).
  split.
  - apply (Hb 29%nat). lia.
  - apply (He 5). unfold NBUCKET. lia.
Defined.

(** ** What one call of [bget] changes *)

(** The result [r] of a call by [pid] on state [s] hands over buffer [p],
    which held [x0]: [p] now holds [y0] (up to the sleep-lock), no other
    buffer has changed, the disk and the clock are as they were, the events
    added include no disk traffic, and the caller has the sleep-lock exactly
    when nobody held it. *)
Definition took (pid p : nat) (x0 y0 : buf) (s : state) (r : outcome got * state)
  : Prop :=
  exists y evs,
    bufs (snd r) = <[p := y]> (bufs s) /\ same_fields y0 y /\
    disk (snd r) = disk s /\ ticks (snd r) = ticks s /\
    trace (snd r) = trace s ++ evs /\ disk_events evs = [] /\
    ((fst r = Done (Held p) /\ lock x0 = None /\ lock y = Some pid) \/
     (fst r = Done (Waiting p) /\ lock x0 <> None /\ y = y0)).

Lemma took_after pid p x0 y0 s st E :
  bufs s !! p = Some x0 -> bufs st = <[p := y0]> (bufs s) -> lock y0 = lock x0 ->
  disk st = disk s -> ticks st = ticks s -> trace st = trace s ++ E ->
  disk_events E = [] ->
  took pid p x0 y0 s (acquiresleep pid p st) /\
  heads (snd (acquiresleep pid p st)) = heads st.
Proof.
  intros Hx Hst Hl Hd Ht Htr HE.
  assert (Hlt : (p < length (bufs s))%nat) by (apply lookup_lt_is_Some; eauto).
  assert (Hy : bufs st !! p = Some y0) by (rewrite Hst; apply list_lookup_insert_eq, Hlt).
  destruct (after_acquiresleep pid p st y0 (bufs s) Hst Hlt)
    as (y & Hbufs & Hheads & Hdisk & Hticks & Hsame & Hcase).
  destruct (acquiresleep_trace pid p st y0 Hy) as (tl & Htl & Htlc).
  split; [|exact Hheads].
  exists y, (E ++ tl).
  split; [exact Hbufs|]. split; [exact Hsame|].
  split; [congruence|]. split; [congruence|].
  split; [rewrite Htl, Htr, app_assoc; reflexivity|].
  split; [rewrite disk_events_app, HE; destruct Htlc as [->| ->]; reflexivity|].
  rewrite <- Hl. destruct Hcase as [(Hr & Hn & Hp)|(Hr & Hn & Hyy & _)].
  - left. split; [exact Hr|]. split; [exact Hn|exact Hp].
  - right. split; [exact Hr|]. split; [exact Hn|exact Hyy].
Qed.

(** The three ways a call can end: a hit on [p]; a buffer [p] with count 0
    of some bucket recycled for the key; or the panic, when no bucket has a
    buffer with count 0. *)
Definition bget_result (pid : nat) (d n bid : Z) (s : state) (r : outcome got * state)
  : Prop :=
  let l := bucket (heads s) bid in
  (exists p x0,
     find_cached (bufs s) d n l = Some p /\ bufs s !! p = Some x0 /\ has_key d n x0 /\
     heads (snd r) = heads s /\ took pid p x0 (incref x0) s r)
  \/
  (not_cached (bufs s) d n l /\
   exists p x0 i,
     in_range i /\ p ∈ bucket (heads s) i /\ bufs s !! p = Some x0 /\ refcnt x0 = 0 /\
     length (heads (snd r)) = length (heads s) /\
     took pid p x0 (repurpose x0 d n) s r)
  \/
  (not_cached (bufs s) d n l /\
   (forall i, in_range i -> no_free (bufs s) (bucket (heads s) i)) /\
   exists evs, r = (Panic "bget: no buffers", with_events s evs) /\ disk_events evs = []).

Lemma bget_evict_result pid d n bid s :
  in_range bid -> bget_result pid d n bid s (bget_evict pid d n bid s).
Proof.
  intros Hrange. unfold bget_result. cbv zeta.
  destruct (walkb_cycle bid Hrange) as (Hend & Hnot & Hreach & Hin).
  destruct (bget_evict_outcomes pid d n bid s Hrange)
    as [(p & z & Hf & Hz & Hrun)|[(Hnc & k & p & z & Hold & Hrun)|
        [(Hnc & Hnf & c & k & p & z & Hc & Hbefore & Hold & Hrun)|
         (Hnc & Hnf & Hall & Hrun)]]]; rewrite Hrun.
  - left. exists p, z.
    destruct (find_cached_lookup _ _ _ _ _ Hf) as (z' & Hz' & Hkey & _).
    rewrite Hz in Hz'. injection Hz' as <-.
    destruct (took_after pid p z (incref z) s
                (with_buf s p (incref z) (evict_head bid ++ evict_tail bid))
                (evict_head bid ++ evict_tail bid) Hz eq_refl eq_refl eq_refl eq_refl
                eq_refl eq_refl) as [Htook Hheads].
    split; [exact Hf|]. split; [exact Hz|]. split; [exact Hkey|].
    split; [exact Hheads|exact Htook].
  - right. left. split; [exact Hnc|].
    destruct (oldest_free_facts _ _ _ _ _ Hold) as (Hpin & Hz & Hlt & Hr0).
    destruct (took_after pid p z (repurpose z d n) s
                (with_buf s p (repurpose z d n) (evict_head bid ++ evict_tail bid))
                (evict_head bid ++ evict_tail bid) Hz eq_refl eq_refl eq_refl eq_refl
                eq_refl eq_refl) as [Htook Hheads].
    exists p, z, bid.
    split; [exact Hrange|]. split; [exact Hpin|]. split; [exact Hz|].
    split; [exact Hr0|]. split; [rewrite Hheads; reflexivity|exact Htook].
  - right. left. split; [exact Hnc|].
    destruct (oldest_free_facts _ _ _ _ _ Hold) as (Hpin & Hz & Hlt & Hr0).
    set (src := walkb c (HASH (bid + 1))) in *.
    set (evs := evict_head bid ++ scan_events c (HASH (bid + 1)) ++
                migration bid src p ++ evict_tail bid) in *.
    assert (HE : disk_events evs = []).
    { unfold evs. rewrite !disk_events_app, disk_events_scan. reflexivity. }
    destruct (took_after pid p z (repurpose z d n) s (stolen s bid src p z d n evs) evs
                Hz eq_refl eq_refl eq_refl eq_refl eq_refl HE) as [Htook Hheads].
    exists p, z, src.
    split; [exact (Hin c Hc)|]. split; [exact Hpin|]. split; [exact Hz|].
    split; [exact Hr0|]. split; [|exact Htook].
    rewrite Hheads. unfold stolen. cbn [heads]. rewrite !length_insert. reflexivity.
  - right. right. split; [exact Hnc|]. split.
    + intros i Hi. destruct (Z.eq_dec i bid) as [->|Hne]; [exact Hnf|].
      destruct (Hreach i Hi Hne) as (c & Hc & <-). apply Hall, Hc.
    + eexists. split; [reflexivity|].
      rewrite !disk_events_app, disk_events_scan. reflexivity.
Qed.

Lemma took_later pid p x0 y0 s E r :
  disk_events E = [] -> took pid p x0 y0 (with_events s E) r -> took pid p x0 y0 s r.
Proof.
  intros HE (y & evs & Hb & Hs & Hd & Ht & Htr & Hev & Hcase).
  exists y, (E ++ evs). cbn [bufs disk ticks trace with_events] in *.
  split; [exact Hb|]. split; [exact Hs|]. split; [exact Hd|]. split; [exact Ht|].
  split; [rewrite Htr, app_assoc; reflexivity|].
  split; [rewrite disk_events_app, HE, Hev; reflexivity|exact Hcase].
Qed.

Lemma bget_result_of pid d n s :
  0 <= HASH (to_int n) -> bget_result pid d n (HASH (to_int n)) s (bget pid d n s).
Proof.
  intros Hbid. set (bid := HASH (to_int n)).
  pose proof (HASH_range _ Hbid) as Hrange. fold bid in Hrange.
  pose proof (bget_cases pid d n s Hbid) as Hget. cbv zeta in Hget. fold bid in Hget.
  destruct (find_cached (bufs s) d n (bucket (heads s) bid)) as [p|] eqn:Hf.
  - destruct Hget as (z & Hz & Hrun). rewrite Hrun. left. exists p, z.
    destruct (find_cached_lookup _ _ _ _ _ Hf) as (z' & Hz' & Hkey & _).
    rewrite Hz in Hz'. injection Hz' as <-.
    destruct (took_after pid p z (incref z) s
                (with_buf s p (incref z) [Acquire (Lbucket bid); Release (Lbucket bid)])
                [Acquire (Lbucket bid); Release (Lbucket bid)] Hz eq_refl eq_refl eq_refl
                eq_refl eq_refl eq_refl) as [Htook Hheads].
    split; [exact Hf|]. split; [exact Hz|]. split; [exact Hkey|].
    split; [exact Hheads|exact Htook].
  - rewrite Hget.
    set (E := [Acquire (Lbucket bid); Release (Lbucket bid)]).
    assert (HE : disk_events E = []) by reflexivity.
    destruct (bget_evict_result pid d n bid (with_events s E) Hrange)
      as [(p & x0 & Hf' & _)|[(Hnc & p & x0 & i & Hi & Hp & Hx & Hr0 & Hlen & Htook)|
          (Hnc & Hall & evs & Hrun & Hev)]]; cbn [bufs heads with_events] in *.
    + congruence.
    + right. left. split; [exact Hnc|]. exists p, x0, i.
      split; [exact Hi|]. split; [exact Hp|]. split; [exact Hx|]. split; [exact Hr0|].
      split; [exact Hlen|]. apply (took_later pid p x0 _ s E _ HE Htook).
    + right. right. split; [exact Hnc|]. split; [exact Hall|].
      exists (E ++ evs). split.
      * rewrite Hrun. unfold with_events. cbn [bufs heads disk ticks trace].
        rewrite <- app_assoc. reflexivity.
      * rewrite disk_events_app, HE, Hev. reflexivity.
Qed.

Lemma took_frame pid p x0 y0 s r :
  bufs s !! p = Some x0 -> took pid p x0 y0 s r ->
  disk (snd r) = disk s /\ ticks (snd r) = ticks s /\
  length (bufs (snd r)) = length (bufs s) /\
  (exists evs, trace (snd r) = trace s ++ evs /\ disk_events evs = []) /\
  exists g, fst r = Done g /\ handle g = p /\
    forall q, q <> p -> bufs (snd r) !! q = bufs s !! q.
Proof.
  intros Hx (y & evs & Hb & _ & Hd & Ht & Htr & Hev & Hcase).
  split; [exact Hd|]. split; [exact Ht|].
  split; [rewrite Hb; apply length_insert|].
  split; [exists evs; split; assumption|].
  assert (Hq : forall q, q <> p -> bufs (snd r) !! q = bufs s !! q).
  { intros q Hq. rewrite Hb. apply list_lookup_insert_ne. congruence. }
  destruct Hcase as [(Hr & _)|(Hr & _)].
  - exists (Held p). split; [exact Hr|]. split; [reflexivity|exact Hq].
  - exists (Waiting p). split; [exact Hr|]. split; [reflexivity|exact Hq].
Qed.

(** X10.  [bget] leaves the disk and the clock alone, does no disk traffic, and
    changes at most one buffer: the one it returns.  When it does not
    return (the panic, or a negative bucket number) no buffer and no list
    has changed. *)
Theorem bget_changes_one_buffer (pid : nat) (d n : Z) (s : state) :
  let r := bget pid d n s in
  disk (snd r) = disk s /\ ticks (snd r) = ticks s /\
  length (bufs (snd r)) = length (bufs s) /\
  (exists evs, trace (snd r) = trace s ++ evs /\ disk_events evs = []) /\
  match fst r with
  | Done g =>
      (handle g < length (bufs s))%nat /\
      forall q, q <> handle g -> bufs (snd r) !! q = bufs s !! q
  | _ => bufs (snd r) = bufs s /\ heads (snd r) = heads s
  end.
Proof.
  cbv zeta.
  destruct (Z_lt_le_dec (HASH (to_int n)) 0) as [Hneg|Hbid].
  { rewrite bget_out_of_bounds by exact Hneg. cbn [fst snd].
    split; [reflexivity|]. split; [reflexivity|]. split; [reflexivity|].
    split; [exists []; split; [symmetry; apply app_nil_r|reflexivity]|].
    split; reflexivity. }
  assert (Hone : forall p x0 y0, bufs s !! p = Some x0 ->
            took pid p x0 y0 s (bget pid d n s) ->
            disk (snd (bget pid d n s)) = disk s /\
            ticks (snd (bget pid d n s)) = ticks s /\
            length (bufs (snd (bget pid d n s))) = length (bufs s) /\
            (exists evs, trace (snd (bget pid d n s)) = trace s ++ evs /\
                         disk_events evs = []) /\
            match fst (bget pid d n s) with
            | Done g =>
                (handle g < length (bufs s))%nat /\
                forall q, q <> handle g ->
                  bufs (snd (bget pid d n s)) !! q = bufs s !! q
            | _ => bufs (snd (bget pid d n s)) = bufs s /\
                   heads (snd (bget pid d n s)) = heads s
            end).
  { intros p x0 y0 Hx Htook.
    destruct (took_frame pid p x0 y0 s _ Hx Htook)
      as (Hd & Ht & Hlen & Hev & g & Hg & Hh & Hq).
    split; [exact Hd|]. split; [exact Ht|]. split; [exact Hlen|]. split; [exact Hev|].
    rewrite Hg, Hh. split; [apply lookup_lt_is_Some; eauto|exact Hq]. }
  destruct (bget_result_of pid d n s Hbid)
    as [(p & x0 & _ & Hx & _ & _ & Htook)|
        [(_ & p & x0 & i & _ & _ & Hx & _ & _ & Htook)|(_ & _ & evs & Hrun & Hev)]].
  - exact (Hone p x0 _ Hx Htook).
  - exact (Hone p x0 _ Hx Htook).
  - rewrite Hrun. cbn [fst snd bufs heads disk ticks trace with_events].
    split; [reflexivity|]. split; [reflexivity|]. split; [reflexivity|].
    split; [exists evs; split; [reflexivity|exact Hev]|]. split; reflexivity.
Qed.

Lemma fresh_cache_reachable : reachable 30 1024 fresh_cache.
Proof. unfold fresh_cache. apply reach_init. Qed.

Lemma no_free_everywhere s :
  ok s ->
  (forall i, in_range i -> no_free (bufs s) (bucket (heads s) i)) <->
  (forall b x, bufs s !! b = Some x -> refcnt x <> 0).
Proof.
  intros (_ & Hmem & _). split.
  - intros Hall b x Hx.
    destruct (Hmem b) as (i & Hi & Hb); [apply lookup_lt_is_Some; eauto|].
    exact (Hall i Hi b x Hb Hx).
  - intros Hall i _ b x _ Hx. exact (Hall b x Hx).
Qed.

Lemma not_cached_anywhere s d n :
  ok s -> in_range (HASH (to_int n)) ->
  not_cached (bufs s) d n (bucket (heads s) (HASH (to_int n))) <->
  (forall b x, bufs s !! b = Some x -> ~ has_key d n x).
Proof.
  intros (_ & Hmem & _ & Hhome & _) Hrange. split.
  - intros Hnc b x Hx Hkey.
    destruct (Hmem b) as (i & Hi & Hb); [apply lookup_lt_is_Some; eauto|].
    pose proof (Hhome i b x Hi Hb Hx) as Hh. pose proof Hkey as [_ Hn].
    rewrite Hn in Hh. rewrite Hh in Hnc. exact (Hnc b x Hb Hx Hkey).
  - intros Hall b x _ Hx. exact (Hall b x Hx).
Qed.

(** X11.  In a reachable state, a call of [bget] for a block number whose bucket
    number is not negative either returns a buffer or panics with
    "bget: no buffers"; it panics exactly when no buffer holds the key and
    every buffer of the cache has a non-zero count. *)
Theorem bget_panics_iff_all_in_use (nbuf bsize : nat) (s : state) (pid : nat) (d n : Z) :
  reachable nbuf bsize s -> 0 <= HASH (to_int n) ->
  let r := bget pid d n s in
  ((exists g, fst r = Done g) \/ fst r = Panic "bget: no buffers") /\
  (fst r = Panic "bget: no buffers" <->
   (forall b x, bufs s !! b = Some x -> ~ has_key d n x /\ refcnt x <> 0)).
Proof.
  intros Hreach Hbid. cbv zeta.
  pose proof (reachable_ok _ _ _ Hreach) as Hok.
  pose proof (HASH_range _ Hbid) as Hrange.
  pose proof (not_cached_anywhere s d n Hok Hrange) as Hnc_iff.
  pose proof (no_free_everywhere s Hok) as Hnf_iff.
  destruct (bget_result_of pid d n s Hbid)
    as [(p & x0 & Hf & Hx & Hkey & _ & Htook)|
        [(Hnc & p & x0 & i & Hi & Hp & Hx & Hr0 & _ & Htook)|
         (Hnc & Hall & evs & Hrun & Hev)]].
  - destruct (took_frame pid p x0 _ s _ Hx Htook) as (_ & _ & _ & _ & g & Hg & _).
    split; [left; exists g; exact Hg|]. rewrite Hg. split; [discriminate|].
    intros Hfull. destruct (Hfull p x0 Hx) as [Hno _]. contradiction.
  - destruct (took_frame pid p x0 _ s _ Hx Htook) as (_ & _ & _ & _ & g & Hg & _).
    split; [left; exists g; exact Hg|]. rewrite Hg. split; [discriminate|].
    intros Hfull. destruct (Hfull p x0 Hx) as [_ Hno]. contradiction.
  - rewrite Hrun. cbn [fst]. split; [right; reflexivity|].
    split; [|reflexivity]. intros _ b x Hx.
    split; [exact (proj1 Hnc_iff Hnc b x Hx)|exact (proj1 Hnf_iff Hall b x Hx)].
Qed.

Lemma bget_panics_iff_all_in_use_witness :
  ((exists g, fst (bget 1 1 1 fresh_cache) = Done g) \/
   fst (bget 1 1 1 fresh_cache) = Panic "bget: no buffers") /\
  (fst (bget 1 1 1 fresh_cache) = Panic "bget: no buffers" <->
   (forall b x, bufs fresh_cache !! b = Some x -> ~ has_key 1 1 x /\ refcnt x <> 0)).
Proof.
  apply (bget_panics_iff_all_in_use 30 1024 fresh_cache 1 1 1).
  - exact fresh_cache_reachable.
  - apply (Zle_bool_imp_le 0 (HASH (to_int 1))). reflexivity.
Defined.

(** ** [bread] *)

(** What [bread] makes of a buffer [p] that [bget] handed over. *)
Lemma finish_bread_took pid p x0 y0 s r b :
  bufs s !! p = Some x0 -> took pid p x0 y0 s r ->
  fst (finish_bread r) = Done (Held b) ->
  b = p /\ lock x0 = None /\
  exists y',
    bufs (snd (finish_bread r)) = <[p := y']> (bufs s) /\
    heads (snd (finish_bread r)) = heads (snd r) /\
    disk (snd (finish_bread r)) = disk s /\ ticks (snd (finish_bread r)) = ticks s /\
    dev y' = dev y0 /\ blockno y' = blockno y0 /\ refcnt y' = refcnt y0 /\
    mticks y' = mticks y0 /\ lock y' = Some pid /\
    ((valid y0 = 0 /\ valid y' = 1 /\ data y' = disk s (dev y0) (blockno y0) /\
      exists evs, trace (snd (finish_bread r)) = trace s ++ evs /\
                  disk_events evs = [DiskRead (dev y0) (blockno y0)]) \/
     (valid y0 <> 0 /\ valid y' = valid y0 /\ data y' = data y0 /\
      exists evs, trace (snd (finish_bread r)) = trace s ++ evs /\
                  disk_events evs = [])).
Proof.
  intros Hx (y & evs & Hb & (S1 & S2 & S3 & S4 & S5 & S6) & Hd & Ht & Htr & Hev & Hcase)
    Hfin.
  assert (Hlt : (p < length (bufs s))%nat) by (apply lookup_lt_is_Some; eauto).
  destruct r as [o s1]. cbn [fst snd] in *.
  destruct Hcase as [(Hr & Hl0 & Hl)|(Hr & _)]; subst o;
    cbn [finish_bread fst snd] in *; [|discriminate].
  injection Hfin as <-. split; [reflexivity|]. split; [exact Hl0|].
  assert (Hy : bufs s1 !! p = Some y) by (rewrite Hb; apply list_lookup_insert_eq, Hlt).
  rewrite (bread_fill_eq p s1 y Hy). rewrite S1.
  destruct (Z.eqb_spec (valid y0) 0) as [Hv|Hv].
  - exists (filled (disk s1 (dev y) (blockno y)) y).
    cbn [bufs heads disk ticks trace filled dev blockno refcnt mticks lock valid data].
    split; [rewrite Hb; apply insert_twice|]. split; [reflexivity|].
    split; [exact Hd|]. split; [exact Ht|]. split; [exact S2|]. split; [exact S3|].
    split; [exact S4|]. split; [exact S5|]. split; [exact Hl|].
    left. split; [exact Hv|]. split; [reflexivity|].
    split; [rewrite Hd, S2, S3; reflexivity|].
    exists (evs ++ [DiskRead (dev y0) (blockno y0)]).
    split; [rewrite Htr, S2, S3, app_assoc; reflexivity|].
    rewrite disk_events_app, Hev. reflexivity.
  - exists y.
    split; [exact Hb|]. split; [reflexivity|].
    split; [exact Hd|]. split; [exact Ht|]. split; [exact S2|]. split; [exact S3|].
    split; [exact S4|]. split; [exact S5|]. split; [exact Hl|].
    right. split; [exact Hv|]. split; [exact S1|]. split; [exact S6|].
    exists evs. split; [exact Htr|exact Hev].
Qed.

(** X12.  When [bread] returns buffer [b] to its caller, the buffer holds the
    requested key, is valid and is sleep-locked by the caller; no other
    buffer has changed and the disk is as it was.  Either the buffer already
    held the key and was valid, and then its data are untouched, its count
    is one more, and there was no disk traffic; or its data are what the
    disk holds for the block, read by exactly one disk read. *)
Theorem bread_returns_block (pid : nat) (d n : Z) (s : state) (b : nat) :
  fst (bread pid d n s) = Done (Held b) ->
  let s' := snd (bread pid d n s) in
  exists y,
    bufs s' !! b = Some y /\ has_key d n y /\ valid y <> 0 /\ lock y = Some pid /\
    (forall q, q <> b -> bufs s' !! q = bufs s !! q) /\
    disk s' = disk s /\
    ((exists x, bufs s !! b = Some x /\ has_key d n x /\ valid x <> 0 /\
                lock x = None /\
                data y = data x /\ refcnt y = u32 (refcnt x + 1) /\
                heads s' = heads s /\
                exists evs, trace s' = trace s ++ evs /\ disk_events evs = []) \/
     (data y = disk s d n /\ valid y = 1 /\
      exists evs, trace s' = trace s ++ evs /\ disk_events evs = [DiskRead d n])).
Proof.
  intros Hfin. cbv zeta. unfold bread in *.
  destruct (Z_lt_le_dec (HASH (to_int n)) 0) as [Hneg|Hbid].
  { rewrite bget_out_of_bounds in Hfin by exact Hneg. discriminate. }
  destruct (bget_result_of pid d n s Hbid)
    as [(p & x0 & Hf & Hx & Hkey & Hheads & Htook)|
        [(Hnc & p & x0 & i & Hi & Hp & Hx & Hr0 & _ & Htook)|
         (Hnc & Hall & evs & Hrun & Hev)]].
  - destruct (finish_bread_took pid p x0 _ s _ b Hx Htook Hfin)
      as (-> & Hl0 & y' & Hb & Hh & Hd & _ & Y1 & Y2 & Y3 & _ & Y5 & Hcase).
    assert (Hlt : (p < length (bufs s))%nat) by (apply lookup_lt_is_Some; eauto).
    destruct Hkey as [K1 K2]. cbn [incref dev blockno refcnt valid data] in *.
    exists y'. split; [rewrite Hb; apply list_lookup_insert_eq, Hlt|].
    split; [split; congruence|].
    split; [destruct Hcase as [(_ & -> & _)|(Hv & -> & _)]; [discriminate|exact Hv]|].
    split; [exact Y5|].
    split; [intros q Hq; rewrite Hb; apply list_lookup_insert_ne; congruence|].
    split; [exact Hd|].
    destruct Hcase as [(Hv & Hv' & Hdata & evs & Htr & Hev)|
                       (Hv & Hv' & Hdata & evs & Htr & Hev)].
    + right. split; [rewrite Hdata, K1, K2; reflexivity|]. split; [exact Hv'|].
      exists evs. split; [exact Htr|]. rewrite Hev, K1, K2. reflexivity.
    + left. exists x0. split; [exact Hx|]. split; [split; assumption|].
      split; [exact Hv|]. split; [exact Hl0|]. split; [exact Hdata|].
      split; [exact Y3|]. split; [rewrite Hh; exact Hheads|].
      exists evs. split; [exact Htr|exact Hev].
  - destruct (finish_bread_took pid p x0 _ s _ b Hx Htook Hfin)
      as (-> & Hl0 & y' & Hb & Hh & Hd & _ & Y1 & Y2 & Y3 & _ & Y5 & Hcase).
    assert (Hlt : (p < length (bufs s))%nat) by (apply lookup_lt_is_Some; eauto).
    cbn [repurpose dev blockno refcnt valid data] in *.
    destruct Hcase as [(_ & Hv' & Hdata & evs & Htr & Hev)|(Hv & _)];
      [|contradiction Hv; reflexivity].
    exists y'. split; [rewrite Hb; apply list_lookup_insert_eq, Hlt|].
    split; [split; assumption|].
    split; [rewrite Hv'; discriminate|].
    split; [exact Y5|].
    split; [intros q Hq; rewrite Hb; apply list_lookup_insert_ne; congruence|].
    split; [exact Hd|].
    right. split; [exact Hdata|]. split; [exact Hv'|].
    exists evs. split; [exact Htr|exact Hev].
  - rewrite Hrun in Hfin. discriminate.
Qed.

Lemma bread_returns_block_witness :
  exists y,
    bufs (snd (bread 1 1 1 fresh_cache)) !! 29%nat = Some y /\ has_key 1 1 y /\
    valid y <> 0 /\ lock y = Some 1%nat /\
    (forall q, q <> 29%nat ->
       bufs (snd (bread 1 1 1 fresh_cache)) !! q = bufs fresh_cache !! q) /\
    disk (snd (bread 1 1 1 fresh_cache)) = disk fresh_cache /\
    ((exists x, bufs fresh_cache !! 29%nat = Some x /\ has_key 1 1 x /\ valid x <> 0 /\
                lock x = None /\
                data y = data x /\ refcnt y = u32 (refcnt x + 1) /\
                heads (snd (bread 1 1 1 fresh_cache)) = heads fresh_cache /\
                exists evs, trace (snd (bread 1 1 1 fresh_cache)) =
                              trace fresh_cache ++ evs /\ disk_events evs = []) \/
     (data y = disk fresh_cache 1 1 /\ valid y = 1 /\
      exists evs, trace (snd (bread 1 1 1 fresh_cache)) = trace fresh_cache ++ evs /\
                  disk_events evs = [DiskRead 1 1])).
Proof.
  apply (bread_returns_block 1 1 1 fresh_cache 29). vm_compute. reflexivity.
Defined.

(** ** [brelse], [bpin] and [bunpin] *)

Lemma holdingsleep_false pid x : lock x <> Some pid -> holdingsleep pid x = false.
Proof. intros H. unfold holdingsleep. apply bool_decide_eq_false. exact H. Qed.

Lemma u32_inc_dec r : 0 <= r < 2 ^ 32 -> u32 (u32 (r + 1) - 1) = r.
Proof.
  intros Hr. unfold u32.
  destruct (Z.eq_dec r (2 ^ 32 - 1)) as [->|Hne]; [reflexivity|].
  rewrite (Z.mod_small (r + 1)) by lia. rewrite Z.mod_small; lia.
Qed.

Lemma u32_dec_inc r : 0 <= r < 2 ^ 32 -> u32 (u32 (r - 1) + 1) = r.
Proof.
  intros Hr. unfold u32.
  destruct (Z.eq_dec r 0) as [->|Hne]; [reflexivity|].
  rewrite (Z.mod_small (r - 1)) by lia. rewrite Z.mod_small; lia.
Qed.

(** What [brelse] leaves in the buffer: unlocked, one reference fewer, and
    stamped with the clock when that was the last reference. *)
Definition released (t : Z) (x : buf) : buf :=
  mkBuf (valid x) (dev x) (blockno x) None (u32 (refcnt x - 1))
        (if u32 (refcnt x - 1) =? 0 then t else mticks x) (data x).

Lemma brelse_done pid b s x :
  bufs s !! b = Some x -> lock x = Some pid -> 0 <= HASH (to_int (blockno x)) ->
  exists evs,
    brelse pid b s =
      (Done tt, mkS (<[b := released (ticks s) x]> (bufs s)) (heads s) (disk s) (ticks s)
                    (trace s ++ evs)) /\
    disk_events evs = [].
Proof.
  intros Hx Hl Hbid. unfold brelse. rewrite Hx.
  rewrite (proj2 (holdingsleep_true pid x) Hl). cbn [negb]. cbv zeta.
  cbn [blockno set_lock refcnt decref].
  destruct (Z.ltb_spec (HASH (to_int (blockno x))) 0) as [|_]; [lia|].
  unfold released.
  destruct (u32 (refcnt x - 1) =? 0); eexists; (split; [|shelve]);
    unfold emit, set_buf, set_mticks, decref, set_lock;
    cbn [bufs heads disk ticks trace valid dev blockno lock refcnt mticks data];
    rewrite ?insert_twice, <- ?app_assoc; cbn [app]; reflexivity.
  Unshelve. all: reflexivity.
Qed.

(** X13.  [brelse] by a process that does not hold the buffer's sleep-lock panics
    and changes nothing.  By the holder it unlocks the buffer and takes one
    from its count, stamping [mticks] with the clock when the count reaches
    zero; the buffer keeps its place in its list, and its key, [valid] and
    data.  After that, any further [brelse] or [bwrite] of the buffer
    panics until somebody has taken the sleep-lock again. *)
Theorem brelse_spec (pid b : nat) (s : state) (x : buf) :
  bufs s !! b = Some x ->
  (lock x <> Some pid -> brelse pid b s = (Panic "brelse", s)) /\
  (lock x = Some pid -> 0 <= HASH (to_int (blockno x)) ->
   exists s1,
     brelse pid b s = (Done tt, s1) /\
     bufs s1 = <[b := released (ticks s) x]> (bufs s) /\
     heads s1 = heads s /\ disk s1 = disk s /\ ticks s1 = ticks s /\
     (forall pid',
        brelse pid' b s1 = (Panic "brelse", s1) /\
        bwrite pid' b s1 = (Panic "bwrite", s1))).
Proof.
  intros Hx. split.
  - intros Hl. unfold brelse. rewrite Hx, (holdingsleep_false pid x Hl). reflexivity.
  - intros Hl Hbid.
    destruct (brelse_done pid b s x Hx Hl Hbid) as (evs & Hrun & _).
    eexists. split; [exact Hrun|]. cbn [bufs heads disk ticks].
    split; [reflexivity|]. split; [reflexivity|]. split; [reflexivity|].
    split; [reflexivity|].
    assert (Hlt : (b < length (bufs s))%nat) by (apply lookup_lt_is_Some; eauto).
    intros pid'. unfold brelse, bwrite. cbn [bufs].
    rewrite list_lookup_insert_eq by exact Hlt.
    rewrite holdingsleep_false by (cbn [released lock]; discriminate).
    split; reflexivity.
Qed.

Lemma brelse_spec_witness :
  brelse 2 29 held_cache = (Panic "brelse", held_cache) /\
  exists s1,
    brelse 1 29 held_cache = (Done tt, s1) /\
    bufs s1 =
      <[29%nat := released (ticks held_cache)
                    (mkBuf 1 1 1 (Some 1%nat) 1 0 (replicate 1024 x00))]>
        (bufs held_cache) /\
    heads s1 = heads held_cache /\ disk s1 = disk held_cache /\
    ticks s1 = ticks held_cache /\
    (forall pid',
       brelse pid' 29 s1 = (Panic "brelse", s1) /\
       bwrite pid' 29 s1 = (Panic "bwrite", s1)).
Proof.
  split.
  - apply (proj1 (brelse_spec 2 29 held_cache _ held_cache_29)).
    cbn [lock]. discriminate.
  - apply (proj2 (brelse_spec 1 29 held_cache _ held_cache_29)).
    + reflexivity.
    + apply (Zle_bool_imp_le 0). reflexivity.
Defined.

(** X14.  A block that is cached, valid and not sleep-locked, read and released
    again: both calls return, there is no disk traffic, no list changes, and
    the buffer ends as it began, with the same count, except that a buffer
    whose count was zero has its [mticks] set to the clock. *)
Theorem bread_then_brelse (pid : nat) (d n : Z) (s : state) (b : nat) (x : buf)
    (Hbid : 0 <= HASH (to_int n))
    (Hf : find_cached (bufs s) d n (bucket (heads s) (HASH (to_int n))) = Some b)
    (Hx : bufs s !! b = Some x)
    (Hv : valid x <> 0) (Hl : lock x = None) (Hr : 0 <= refcnt x < 2 ^ 32) :
  exists s1 s2 evs,
    bread pid d n s = (Done (Held b), s1) /\
    brelse pid b s1 = (Done tt, s2) /\
    bufs s2 = <[b := if refcnt x =? 0 then set_mticks (ticks s) x else x]> (bufs s) /\
    heads s2 = heads s /\ disk s2 = disk s /\ ticks s2 = ticks s /\
    trace s2 = trace s ++ evs /\ disk_events evs = [].
Proof.
  assert (Hlt : (b < length (bufs s))%nat) by (apply lookup_lt_is_Some; eauto).
  destruct (find_cached_lookup _ _ _ _ _ Hf) as (x' & Hx' & [Hk1 Hk2] & _).
  rewrite Hx in Hx'. injection Hx' as <-.
  pose proof (bget_cases pid d n s Hbid) as Hget. cbv zeta in Hget. rewrite Hf in Hget.
  destruct Hget as (x' & Hx' & Hget). rewrite Hx in Hx'. injection Hx' as <-.
  set (E := [Acquire (Lbucket (HASH (to_int n))); Release (Lbucket (HASH (to_int n)))])
    in *.
  set (y := set_lock (Some pid) (incref x)).
  set (s1 := mkS (<[b := y]> (bufs s)) (heads s) (disk s) (ticks s)
                 (trace s ++ E ++ [AcquireSleep b])).
  assert (Hrun : bread pid d n s = (Done (Held b), s1)).
  { unfold bread. rewrite Hget.
    rewrite (acquiresleep_eq pid b _ (incref x))
      by (cbn [bufs with_buf]; apply list_lookup_insert_eq, Hlt).
    cbn [lock incref]. rewrite Hl. cbn [finish_bread].
    rewrite (bread_fill_eq b _ y)
      by (cbn [bufs with_buf]; rewrite insert_twice; apply list_lookup_insert_eq, Hlt).
    cbn [valid y set_lock incref].
    destruct (Z.eqb_spec (valid x) 0) as [|_]; [contradiction|].
    unfold s1, with_buf. cbn [bufs heads disk ticks trace].
    rewrite insert_twice, <- app_assoc. reflexivity. }
  assert (Hy : bufs s1 !! b = Some y) by (apply list_lookup_insert_eq, Hlt).
  destruct (brelse_done pid b s1 y Hy eq_refl) as (evs & Hrel & Hev).
  { cbn [blockno y set_lock incref]. rewrite Hk2. exact Hbid. }
  eexists s1, _, (E ++ [AcquireSleep b] ++ evs).
  split; [exact Hrun|]. split; [exact Hrel|].
  cbn [bufs heads disk ticks trace s1].
  split; [|split; [reflexivity|split; [reflexivity|split; [reflexivity|split]]]].
  - rewrite insert_twice. f_equal.
    unfold released, y. cbn [valid dev blockno refcnt mticks data set_lock incref].
    rewrite (u32_inc_dec _ Hr).
    destruct x as [xv xd xn xl xr xm xdata]. cbn in *. subst xl.
    destruct (xr =? 0); reflexivity.
  - rewrite <- !app_assoc. reflexivity.
  - rewrite !disk_events_app, Hev. reflexivity.
Qed.

Lemma bread_then_brelse_witness :
  exists s1 s2 evs,
    bread 2 1 1 pinned_cache = (Done (Held 29), s1) /\
    brelse 2 29 s1 = (Done tt, s2) /\
    bufs s2 =
      <[29%nat := if refcnt (mkBuf 1 1 1 None 1 0 (replicate 1024 x00)) =? 0
                  then set_mticks (ticks pinned_cache)
                         (mkBuf 1 1 1 None 1 0 (replicate 1024 x00))
                  else mkBuf 1 1 1 None 1 0 (replicate 1024 x00)]> (bufs pinned_cache) /\
    heads s2 = heads pinned_cache /\ disk s2 = disk pinned_cache /\
    ticks s2 = ticks pinned_cache /\
    trace s2 = trace pinned_cache ++ evs /\ disk_events evs = [].
Proof.
  apply (bread_then_brelse 2 1 1 pinned_cache 29
           (mkBuf 1 1 1 None 1 0 (replicate 1024 x00))).
  - apply (Zle_bool_imp_le 0). reflexivity.
  - vm_compute. reflexivity.
  - exact pinned_cache_29.
  - discriminate.
  - reflexivity.
  - cbn [refcnt]. lia.
Defined.

(** X15.  [bpin] followed by [bunpin], and [bunpin] followed by [bpin], leave
    every buffer and every list as they were, whatever the count (which
    wraps round at 2^32). *)
Theorem bpin_bunpin_inverse (b : nat) (s : state) (x : buf)
    (Hx : bufs s !! b = Some x) (Hr : 0 <= refcnt x < 2 ^ 32)
    (Hbid : 0 <= HASH (to_int (blockno x))) :
  (exists s1 s2,
     bpin b s = (Done tt, s1) /\ bunpin b s1 = (Done tt, s2) /\
     bufs s1 = <[b := incref x]> (bufs s) /\
     bufs s2 = bufs s /\ heads s2 = heads s /\ disk s2 = disk s /\ ticks s2 = ticks s) /\
  (exists s1 s2,
     bunpin b s = (Done tt, s1) /\ bpin b s1 = (Done tt, s2) /\
     bufs s1 = <[b := decref x]> (bufs s) /\
     bufs s2 = bufs s /\ heads s2 = heads s /\ disk s2 = disk s /\ ticks s2 = ticks s).
Proof.
  assert (Hlt : (b < length (bufs s))%nat) by (apply lookup_lt_is_Some; eauto).
  assert (Hge : (HASH (to_int (blockno x)) <? 0) = false) by (apply Z.ltb_ge; exact Hbid).
  split.
  - eexists _, _. unfold bpin at 1. rewrite Hx. cbv zeta. rewrite Hge.
    split; [reflexivity|].
    unfold bunpin, bpin. cbn [bufs emit set_buf]. rewrite list_lookup_insert_eq by exact Hlt.
    cbv zeta. cbn [blockno incref]. rewrite Hge.
    split; [reflexivity|]. cbn [bufs heads disk ticks emit set_buf].
    split; [reflexivity|].
    split; [|split; [reflexivity|split; reflexivity]].
    rewrite insert_twice. apply list_insert_id. rewrite Hx. f_equal.
    unfold decref, incref. cbn [valid dev blockno lock refcnt mticks data].
    rewrite (u32_inc_dec _ Hr). destruct x; reflexivity.
  - eexists _, _. unfold bunpin at 1. rewrite Hx. cbv zeta. rewrite Hge.
    split; [reflexivity|].
    unfold bunpin, bpin. cbn [bufs emit set_buf]. rewrite list_lookup_insert_eq by exact Hlt.
    cbv zeta. cbn [blockno decref]. rewrite Hge.
    split; [reflexivity|]. cbn [bufs heads disk ticks emit set_buf].
    split; [reflexivity|].
    split; [|split; [reflexivity|split; reflexivity]].
    rewrite insert_twice. apply list_insert_id. rewrite Hx. f_equal.
    unfold decref, incref. cbn [valid dev blockno lock refcnt mticks data].
    rewrite (u32_dec_inc _ Hr). destruct x; reflexivity.
Qed.

Lemma bpin_bunpin_inverse_witness :
  (exists s1 s2,
     bpin 29 held_cache = (Done tt, s1) /\ bunpin 29 s1 = (Done tt, s2) /\
     bufs s1 =
       <[29%nat := incref (mkBuf 1 1 1 (Some 1%nat) 1 0 (replicate 1024 x00))]>
         (bufs held_cache) /\
     bufs s2 = bufs held_cache /\ heads s2 = heads held_cache /\
     disk s2 = disk held_cache /\ ticks s2 = ticks held_cache) /\
  (exists s1 s2,
     bunpin 29 held_cache = (Done tt, s1) /\ bpin 29 s1 = (Done tt, s2) /\
     bufs s1 =
       <[29%nat := decref (mkBuf 1 1 1 (Some 1%nat) 1 0 (replicate 1024 x00))]>
         (bufs held_cache) /\
     bufs s2 = bufs held_cache /\ heads s2 = heads held_cache /\
     disk s2 = disk held_cache /\ ticks s2 = ticks held_cache).
Proof.
  apply (bpin_bunpin_inverse 29 held_cache
           (mkBuf 1 1 1 (Some 1%nat) 1 0 (replicate 1024 x00))).
  - exact held_cache_29.
  - cbn [refcnt]. lia.
  - apply (Zle_bool_imp_le 0). reflexivity.
Defined.

(** ** The lists in every reachable state *)

Lemma bread_fill_length b s : length (bufs (bread_fill b s)) = length (bufs s).
Proof.
  destruct (bufs s !! b) as [y|] eqn:Hy.
  - rewrite (bread_fill_eq b s y Hy). destruct (valid y =? 0); [|reflexivity].
    cbn [bufs]. apply length_insert.
  - unfold bread_fill. rewrite Hy. reflexivity.
Qed.

Lemma finish_bread_length r :
  length (bufs (snd (finish_bread r))) = length (bufs (snd r)).
Proof.
  unfold finish_bread. destruct r as [[[b|b]| | |] s1]; cbn [snd]; try reflexivity.
  apply bread_fill_length.
Qed.

Lemma bget_result_length pid d n bid s r :
  bget_result pid d n bid s r -> length (bufs (snd r)) = length (bufs s).
Proof.
  intros [(p & x0 & _ & Hx & _ & _ & Htook)|
          [(_ & p & x0 & i & _ & _ & Hx & _ & _ & Htook)|(_ & _ & evs & -> & _)]].
  - apply (took_frame pid p x0 _ s r Hx Htook).
  - apply (took_frame pid p x0 _ s r Hx Htook).
  - reflexivity.
Qed.

Lemma acquiresleep_length pid b s :
  length (bufs (snd (acquiresleep pid b s))) = length (bufs s).
Proof.
  unfold acquiresleep. destruct (bufs s !! b) as [x|]; [|reflexivity].
  destruct (lock x); [reflexivity|]. cbn [snd bufs emit set_buf]. apply length_insert.
Qed.

Lemma run1_length s c : length (bufs (run1 s c)) = length (bufs s).
Proof.
  destruct c; cbn [run1].
  - unfold bread. rewrite finish_bread_length.
    destruct (Z_lt_le_dec (HASH (to_int n)) 0) as [Hneg|Hbid].
    + rewrite bget_out_of_bounds by exact Hneg. reflexivity.
    + exact (bget_result_length _ _ _ _ _ _ (bget_result_of pid d n s Hbid)).
  - unfold brelse. destruct (bufs s !! b) as [x|]; [|reflexivity].
    destruct (holdingsleep pid x); [|reflexivity]. cbn [negb]. cbv zeta.
    destruct (HASH (to_int (blockno (set_lock None x))) <? 0).
    + cbn [snd bufs emit set_buf]. apply length_insert.
    + destruct (refcnt (decref (set_lock None x)) =? 0);
        cbn [snd bufs emit set_buf]; rewrite !length_insert; reflexivity.
  - unfold bwrite. destruct (bufs s !! b) as [x|] eqn:Hx; [|reflexivity].
    destruct (holdingsleep pid x); [|reflexivity]. cbn [negb snd].
    unfold virtio_disk_rw. rewrite Hx. reflexivity.
  - unfold bpin. destruct (bufs s !! b) as [x|]; [|reflexivity].
    destruct (HASH (to_int (blockno x)) <? 0); [reflexivity|].
    cbn [snd bufs emit set_buf]. apply length_insert.
  - unfold bunpin. destruct (bufs s !! b) as [x|]; [|reflexivity].
    destruct (HASH (to_int (blockno x)) <? 0); [reflexivity|].
    cbn [snd bufs emit set_buf]. apply length_insert.
  - unfold write_data. destruct (bufs s !! b) as [x|]; [|reflexivity].
    cbn [bufs set_buf]. apply length_insert.
  - reflexivity.
  - unfold bread_late.
    destruct (Z.ltb_spec (HASH (to_int n)) 0) as [|Hbid]; [reflexivity|].
    rewrite finish_bread_length.
    exact (bget_result_length _ _ _ _ _ _
             (bget_evict_result pid d n _ s (HASH_range _ Hbid))).
  - unfold bread_resume. rewrite finish_bread_length. apply acquiresleep_length.
Qed.

Lemma reachable_length nbuf bsize s : reachable nbuf bsize s -> length (bufs s) = nbuf.
Proof.
  induction 1 as [dsk t|s c Hs IH Hperm].
  - apply length_replicate.
  - rewrite run1_length. exact IH.
Qed.

(** X16.  In every state reachable from [binit] the cache still has its [nbuf]
    buffers and thirteen lists; every buffer is on the list of the bucket
    its block number hashes to and on no other list; and no list holds a
    buffer twice.  No call loses a buffer or links it in twice. *)
Theorem reachable_lists (nbuf bsize : nat) (s : state) :
  reachable nbuf bsize s ->
  length (bufs s) = nbuf /\ length (heads s) = 13%nat /\
  (forall b x, bufs s !! b = Some x ->
     in_range (HASH (to_int (blockno x))) /\
     b ∈ bucket (heads s) (HASH (to_int (blockno x))) /\
     (forall j, in_range j -> b ∈ bucket (heads s) j -> j = HASH (to_int (blockno x)))) /\
  (forall i, in_range i -> NoDup (bucket (heads s) i)).
Proof.
  intros Hreach. pose proof (reachable_ok _ _ _ Hreach) as (Hlen & Hmem & Hnd & Hhome & _).
  split; [exact (reachable_length _ _ _ Hreach)|]. split; [exact Hlen|].
  split; [|exact Hnd].
  intros b x Hx.
  destruct (Hmem b) as (i & Hi & Hb); [apply lookup_lt_is_Some; eauto|].
  rewrite (Hhome i b x Hi Hb Hx).
  split; [exact Hi|]. split; [exact Hb|].
  intros j Hj Hbj. rewrite <- (Hhome j b x Hj Hbj Hx). apply (Hhome i b x Hi Hb Hx).
Qed.

Lemma reachable_lists_witness :
  length (bufs pinned_cache) = 30%nat /\ length (heads pinned_cache) = 13%nat /\
  (forall b x, bufs pinned_cache !! b = Some x ->
     in_range (HASH (to_int (blockno x))) /\
     b ∈ bucket (heads pinned_cache) (HASH (to_int (blockno x))) /\
     (forall j, in_range j -> b ∈ bucket (heads pinned_cache) j ->
        j = HASH (to_int (blockno x)))) /\
  (forall i, in_range i -> NoDup (bucket (heads pinned_cache) i)).
Proof.
  apply (reachable_lists 30 1024 pinned_cache). exact pinned_cache_reachable.
Defined.
